(** * VaultProtocol: envelope codec, certificate ledger and lifecycle controller

    A shallow embedding of
    - [EncryptionService] (encryptFile, decryptFile, encryptForIPFS,
      decryptFromIPFS),
    - the [CertificateManager] Solidity contract,
    - [BlockchainService], [IPFSService] and the [CertificateController]
      handlers verify, delete and download,
    followed by the properties established about them. *)

From Stdlib Require Import ZArith NArith List Lia.
From Stdlib.Strings Require Import Byte Ascii String.
From stdpp Require Import base option list gmap strings pretty.

Local Open Scope string_scope.
Local Open Scope list_scope.

(* ===================================================================== *)
(** * Part I: definitions                                                 *)
(* ===================================================================== *)

(** ** JavaScript completion values

    A JavaScript call either returns a value or throws an [Error] carrying
    a message. *)

Inductive outcome (A : Type) : Type :=
| Return (a : A)
| Throw (message : string).
Arguments Return {A} a.
Arguments Throw {A} message.

Definition obind {A B} (m : outcome A) (k : A -> outcome B) : outcome B :=
  match m with
  | Return a => k a
  | Throw e => Throw e
  end.

(** [try { m } catch (error) { throw new Error(prefix + error.message) }] *)
Definition rethrow {A} (prefix : string) (m : outcome A) : outcome A :=
  match m with
  | Return a => Return a
  | Throw e => Throw (prefix ++ e)
  end.

#[global] Instance outcome_ret : MRet outcome := fun A a => Return a.
#[global] Instance outcome_bind : MBind outcome := fun A B k m => obind m k.

(** ** JavaScript strings

    A JavaScript string is kept as the UTF-8 bytes of its text.  Node's
    base64 and hex decoders read a string one UTF-16 code unit at a time
    and keep only the low byte of each unit; [utf16_low_bytes] gives these
    bytes.  On ASCII text it is the identity. *)

(** Every byte is below 128. *)
Fixpoint ascii_text (s : string) : bool :=
  match s with
  | EmptyString => true
  | String c rest => (N_of_ascii c <? 128)%N && ascii_text rest
  end.

(** The byte is a UTF-8 continuation byte (10xxxxxx). *)
Definition continuation (c : ascii) : bool :=
  ((128 <=? N_of_ascii c) && (N_of_ascii c <? 192))%N.

(** The six payload bits of a continuation byte. *)
Definition payload (c : ascii) : N := (N_of_ascii c mod 64)%N.

(** The low byte of a code unit. *)
Definition low_byte (unit : N) : ascii := ascii_of_N (unit mod 256).

(** Bytes that are not UTF-8 text read as U+FFFD, whose low byte is 253. *)
Fixpoint utf16_low_bytes (s : string) : string :=
  match s with
  | EmptyString => EmptyString
  | String c rest =>
      let n := N_of_ascii c in
      if (n <? 128)%N then String c (utf16_low_bytes rest)
      else if (n <? 192)%N then String "253"%char (utf16_low_bytes rest)
      else if (n <? 224)%N then
        (* U+0080 .. U+07FF: 110xxxxx 10yyyyyy *)
        match rest with
        | String c1 rest1 =>
            if continuation c1 then
              String (low_byte ((n mod 32) * 64 + payload c1))
                (utf16_low_bytes rest1)
            else String "253"%char (utf16_low_bytes rest)
        | EmptyString => String "253"%char EmptyString
        end
      else if (n <? 240)%N then
        (* U+0800 .. U+FFFF: 1110xxxx 10yyyyyy 10zzzzzz *)
        match rest with
        | String c1 (String c2 rest2) =>
            if continuation c1 && continuation c2 then
              String (low_byte ((n mod 16) * 4096 + payload c1 * 64 + payload c2))
                (utf16_low_bytes rest2)
            else String "253"%char (utf16_low_bytes rest)
        | _ => String "253"%char (utf16_low_bytes rest)
        end
      else
        (* U+10000 ..: 11110www 10xxxxxx 10yyyyyy 10zzzzzz, two code
           units: 0xD800 + (v >> 10) and 0xDC00 + (v & 0x3FF) for
           v = code point - 0x10000 *)
        match rest with
        | String c1 (String c2 (String c3 rest3)) =>
            if continuation c1 && continuation c2 && continuation c3 then
              let v := ((n mod 8) * 262144 + payload c1 * 4096
                        + payload c2 * 64 + payload c3 - 65536)%N in
              String (low_byte (v / 1024))
                (String (low_byte (v mod 1024)) (utf16_low_bytes rest3))
            else String "253"%char (utf16_low_bytes rest)
        | _ => String "253"%char (utf16_low_bytes rest)
        end
  end.

(** ** Buffer <-> base64 text

    [buf.toString("base64")] and [Buffer.from(text, "base64")] as Node
    implements them: the encoder emits the standard alphabet with [=]
    padding; the decoder reads the low byte of every code unit and is
    lenient: it skips every byte outside the alphabet, accepts the
    URL-safe [-] and [_], and stops at the first [=]. *)

Module Base64.

(** Six bits, most significant first. *)
Definition sextet : Type := (bool * bool * bool * bool * bool * bool)%type.

Definition sextet_index (s : sextet) : N :=
  let '(b5, b4, b3, b2, b1, b0) := s in
  (32 * N.b2n b5 + 16 * N.b2n b4 + 8 * N.b2n b3
   + 4 * N.b2n b2 + 2 * N.b2n b1 + N.b2n b0)%N.

Definition index_sextet (n : N) : sextet :=
  (N.testbit n 5, N.testbit n 4, N.testbit n 3,
   N.testbit n 2, N.testbit n 1, N.testbit n 0).

Definition alphabet : string :=
  "ABCDEFGHIJKLMNOPQRSTUVWXYZabcdefghijklmnopqrstuvwxyz0123456789+/".

(** [table[i]] *)
Definition base64_char (s : sextet) : ascii :=
  default "A"%char (String.get (N.to_nat (sextet_index s)) alphabet).

(** [unbase64(c)]: [None] is the table's negative entry. *)
Definition unbase64 (c : ascii) : option sextet :=
  let n := N_of_ascii c in
  if ((65 <=? n) && (n <=? 90))%N then Some (index_sextet (n - 65))
  else if ((97 <=? n) && (n <=? 122))%N then Some (index_sextet (n - 71))
  else if ((48 <=? n) && (n <=? 57))%N then Some (index_sextet (n + 4))
  else if ((n =? 43) || (n =? 45))%N then Some (index_sextet 62)
  else if ((n =? 47) || (n =? 95))%N then Some (index_sextet 63)
  else None.

(** The four table indices of a full group:
    [a >> 2], [((a & 3) << 4) | (b >> 4)],
    [((b & 15) << 2) | (c >> 6)], [c & 63]. *)
Definition split3 (a b c : byte) : sextet * sextet * sextet * sextet :=
  let '(a0, (a1, (a2, (a3, (a4, (a5, (a6, a7))))))) := Byte.to_bits a in
  let '(b0, (b1, (b2, (b3, (b4, (b5, (b6, b7))))))) := Byte.to_bits b in
  let '(c0, (c1, (c2, (c3, (c4, (c5, (c6, c7))))))) := Byte.to_bits c in
  ((a7, a6, a5, a4, a3, a2), (a1, a0, b7, b6, b5, b4),
   (b3, b2, b1, b0, c7, c6), (c5, c4, c3, c2, c1, c0)).

(** [(s1 << 2) | (s2 >> 4)] *)
Definition join1 (s1 s2 : sextet) : byte :=
  let '(p5, p4, p3, p2, p1, p0) := s1 in
  let '(q5, q4, _, _, _, _) := s2 in
  Byte.of_bits (q4, (q5, (p0, (p1, (p2, (p3, (p4, p5))))))).

(** [((s2 & 15) << 4) | (s3 >> 2)] *)
Definition join2 (s2 s3 : sextet) : byte :=
  let '(_, _, q3, q2, q1, q0) := s2 in
  let '(r5, r4, r3, r2, _, _) := s3 in
  Byte.of_bits (r2, (r3, (r4, (r5, (q0, (q1, (q2, q3))))))).

(** [((s3 & 3) << 6) | s4] *)
Definition join3 (s3 s4 : sextet) : byte :=
  let '(_, _, _, _, r1, r0) := s3 in
  let '(t5, t4, t3, t2, t1, t0) := s4 in
  Byte.of_bits (t0, (t1, (t2, (t3, (t4, (t5, (r0, r1))))))).

Fixpoint encode (bs : list byte) : string :=
  match bs with
  | [] => ""
  | [a] =>
      let '(s1, s2, _, _) := split3 a "000"%byte "000"%byte in
      String (base64_char s1) (String (base64_char s2) "==")
  | [a; b] =>
      let '(s1, s2, s3, _) := split3 a b "000"%byte in
      String (base64_char s1)
        (String (base64_char s2) (String (base64_char s3) "="))
  | a :: b :: c :: rest =>
      let '(s1, s2, s3, s4) := split3 a b c in
      String (base64_char s1)
        (String (base64_char s2)
           (String (base64_char s3)
              (String (base64_char s4) (encode rest))))
  end.

(** The legal characters before the first [=], as table indices. *)
Fixpoint sextets (s : string) : list sextet :=
  match s with
  | EmptyString => []
  | String c rest =>
      if Ascii.eqb c "="%char then []
      else match unbase64 c with
           | Some x => x :: sextets rest
           | None => sextets rest
           end
  end.

Fixpoint pack (l : list sextet) : list byte :=
  match l with
  | s1 :: s2 :: s3 :: s4 :: rest =>
      join1 s1 s2 :: join2 s2 s3 :: join3 s3 s4 :: pack rest
  | [s1; s2; s3] => [join1 s1 s2; join2 s2 s3]
  | [s1; s2] => [join1 s1 s2]
  | _ => []
  end.

Definition decode (s : string) : list byte :=
  pack (sextets (utf16_low_bytes s)).

End Base64.

(** ** Buffer <-> hex text

    [buf.toString("hex")] and [Buffer.from(text, "hex")]: the encoder
    writes two lower-case digits per byte; the decoder reads the low byte
    of every code unit of the text, two at a time, and stops at the first
    pair that is not two hexadecimal digits (or at a single last one),
    keeping the bytes read so far. *)

Module Hex.

(** Four bits, most significant first. *)
Definition nibble : Type := (bool * bool * bool * bool)%type.

Definition nibble_index (n : nibble) : N :=
  let '(b3, b2, b1, b0) := n in
  (8 * N.b2n b3 + 4 * N.b2n b2 + 2 * N.b2n b1 + N.b2n b0)%N.

Definition index_nibble (n : N) : nibble :=
  (N.testbit n 3, N.testbit n 2, N.testbit n 1, N.testbit n 0).

Definition digits : string := "0123456789abcdef".

Definition hex_char (n : nibble) : ascii :=
  default "0"%char (String.get (N.to_nat (nibble_index n)) digits).

(** [unhex(c)]: digits and letters of either case. *)
Definition unhex (c : ascii) : option nibble :=
  let n := N_of_ascii c in
  if ((48 <=? n) && (n <=? 57))%N then Some (index_nibble (n - 48))
  else if ((97 <=? n) && (n <=? 102))%N then Some (index_nibble (n - 87))
  else if ((65 <=? n) && (n <=? 70))%N then Some (index_nibble (n - 55))
  else None.

(** [b >> 4] and [b & 15] *)
Definition split (b : byte) : nibble * nibble :=
  let '(b0, (b1, (b2, (b3, (b4, (b5, (b6, b7))))))) := Byte.to_bits b in
  ((b7, b6, b5, b4), (b3, b2, b1, b0)).

(** [(hi << 4) | lo] *)
Definition join (hi lo : nibble) : byte :=
  let '(h3, h2, h1, h0) := hi in
  let '(l3, l2, l1, l0) := lo in
  Byte.of_bits (l0, (l1, (l2, (l3, (h0, (h1, (h2, h3))))))).

Fixpoint encode (bs : list byte) : string :=
  match bs with
  | [] => ""
  | b :: rest =>
      let '(hi, lo) := split b in
      String (hex_char hi) (String (hex_char lo) (encode rest))
  end.

Fixpoint decode_units (s : string) : list byte :=
  match s with
  | String a (String b rest) =>
      match unhex a, unhex b with
      | Some hi, Some lo => join hi lo :: decode_units rest
      | _, _ => []
      end
  | _ => []
  end.

Definition decode (s : string) : list byte := decode_units (utf16_low_bytes s).

(** Every character is a hexadecimal digit. *)
Fixpoint all_hex (s : string) : bool :=
  match s with
  | EmptyString => true
  | String c rest =>
      match unhex c with Some _ => all_hex rest | None => false end
  end.

End Hex.

(** The byte is not a UTF-8 continuation byte (10xxxxxx): it starts a
    character. *)
Definition starts_character (c : ascii) : bool :=
  negb ((128 <=? N_of_ascii c) && (N_of_ascii c <? 192))%N.

(** [s.length]: the number of UTF-16 code units of the text whose UTF-8
    bytes are [s].  Every byte that starts a character counts one, the
    first byte of a four-byte character (a surrogate pair) two. *)
Fixpoint js_length (s : string) : nat :=
  match s with
  | EmptyString => 0
  | String c rest =>
      (if starts_character c
       then if (240 <=? N_of_ascii c)%N then 2 else 1
       else 0) + js_length rest
  end.

(** [a.equals(b)] on buffers. *)
Fixpoint Buffer_equals (a b : list byte) : bool :=
  match a, b with
  | [], [] => true
  | x :: a', y :: b' => Byte.eqb x y && Buffer_equals a' b'
  | _, _ => false
  end.

(** ** Values supplied by the platform

    [Buffer] is Node's byte buffer.  A JavaScript string is kept as its
    UTF-8 bytes, so [Buffer.from(s, "utf8")] is [list_byte_of_string].
    [json] holds the values a metadata field can take after [JSON.parse].
    Its numbers are the integers that JavaScript prints in decimal digits,
    those of magnitude below 2^53; other numbers are outside the model. *)

Abbreviation Buffer := (list byte).

#[local] Unset Elimination Schemes.
Inductive json : Type :=
| JNull
| JBool (b : bool)
| JNumber (n : Z)
| JString (s : string)
| JArray (items : list json)
| JObject (members : list (string * json)).
#[local] Set Elimination Schemes.

(** [null], a boolean, a number or a string. *)
Definition scalar (v : json) : bool :=
  match v with
  | JArray _ | JObject _ => false
  | _ => true
  end.

(** The object has a member of its own under [key]. *)
Definition has_own (key : string) (members : list (string * json)) : bool :=
  existsb (fun member => String.eqb member.1 key) members.

(** [String(v)], also what a template literal makes of [v].  An array is
    joined with commas, [null] elements counting as empty text.  An object
    made by [JSON.parse] has no callable member, so it converts through
    the inherited [toString] unless a member of its own hides it; then the
    conversion throws. *)
Fixpoint js_String (v : json) : outcome string :=
  match v with
  | JNull => Return "null"
  | JBool true => Return "true"
  | JBool false => Return "false"
  | JNumber n => Return (pretty n)
  | JString s => Return s
  | JArray items =>
      (fix join (l : list json) : outcome string :=
         match l with
         | [] => Return ""
         | x :: rest =>
             first ← match x with JNull => Return "" | _ => js_String x end;
             match rest with
             | [] => Return first
             | _ => others ← join rest;
                    Return (first ++ "," ++ others)%string
             end
         end) items
  | JObject members =>
      if has_own "toString" members
      then Throw "Cannot convert object to primitive value"
      else Return "[object Object]"
  end.

(** [v.toString()], [callee] being the text of the expression [v]: a
    [TypeError] on [null] and on an object whose own [toString] member
    hides the inherited method. *)
Definition js_toString (callee : string) (v : json) : outcome string :=
  match v with
  | JNull => Throw "Cannot read properties of null (reading 'toString')"
  | JObject members =>
      if has_own "toString" members
      then Throw (callee ++ ".toString is not a function")
      else Return "[object Object]"
  | _ => js_String v
  end.

(** [a ^ b] on bytes. *)
Definition byte_xor (a b : byte) : byte :=
  let '(a0, (a1, (a2, (a3, (a4, (a5, (a6, a7))))))) := Byte.to_bits a in
  let '(b0, (b1, (b2, (b3, (b4, (b5, (b6, b7))))))) := Byte.to_bits b in
  Byte.of_bits (xorb a0 b0, (xorb a1 b1, (xorb a2 b2, (xorb a3 b3,
               (xorb a4 b4, (xorb a5 b5, (xorb a6 b6, xorb a7 b7))))))).

(** The byte whose only set bit is bit [i] (bit 0 for [i >= 8]). *)
Definition bit_mask (i : nat) : byte :=
  match i with
  | 1 => "002" | 2 => "004" | 3 => "008" | 4 => "016"
  | 5 => "032" | 6 => "064" | 7 => "128" | _ => "001"
  end%byte.

(** [buf] with bit [i mod 8] of byte [i / 8] inverted. *)
Definition flip_bit (i : nat) (buf : Buffer) : Buffer :=
  alter (byte_xor (bit_mask (i mod 8))) (i / 8)%nat buf.

(** [b] is [a] with exactly one bit inverted. *)
Definition one_bit_apart (a b : Buffer) : Prop :=
  exists i, (i < 8 * length a)%nat /\ b = flip_bit i a.

(** The object [encryptForIPFS] serialises and [decryptFromIPFS] parses:
    the three binary fields are base64 text. *)
Record SerializableData : Type := {
  sd_encryptedContent : string;
  sd_iv : string;
  sd_authTag : string;
  sd_algorithm : json;
  sd_fileName : string;
  sd_originalSize : json;
  sd_encryptedSize : json;
  sd_timestamp : json
}.

(** A document whose four metadata fields are scalars, as those of the
    documents [encryptForIPFS] makes are. *)
Definition plain_document (d : SerializableData) : bool :=
  scalar (sd_algorithm d) && scalar (sd_originalSize d)
  && scalar (sd_encryptedSize d) && scalar (sd_timestamp d).

(** What the code takes from Node and npm rather than defining itself.

    - [aes_256_gcm_encrypt key iv aad plaintext] is
      [createCipheriv("aes-256-gcm", key, iv)], [setAAD(aad)], [update],
      [final], [getAuthTag()]: it returns (ciphertext, tag) or throws.
    - [aes_256_gcm_decrypt key iv aad tag ciphertext] is
      [createDecipheriv], [setAAD], [setAuthTag], [update], [final]: it
      throws when the key, nonce or tag is unusable or the tag does not
      verify.
    - [JSON_stringify d] is [Buffer.from(JSON.stringify(d), "utf8")] and
      [JSON_parse b] is [JSON.parse(b.toString("utf8"))] read as an object
      of that shape.
    - [joi_email] is Joi's [string().email()] rule. *)
Class Platform : Type := {
  aes_256_gcm_encrypt : Buffer -> Buffer -> Buffer -> Buffer -> outcome (Buffer * Buffer);
  aes_256_gcm_decrypt : Buffer -> Buffer -> Buffer -> Buffer -> Buffer -> outcome Buffer;
  JSON_stringify : SerializableData -> Buffer;
  JSON_parse : Buffer -> outcome SerializableData;
  joi_email : string -> bool
}.

(** The documented contracts of those functions that the proofs rely on:
    AES-256-GCM decryption inverts encryption under the same 32-byte key,
    non-empty nonce and associated data; [JSON.parse] inverts
    [JSON.stringify] on the documents [encryptForIPFS] makes. *)
Class PlatformSpec (P : Platform) : Prop := {
  gcm_decrypt_encrypt :
    forall key iv aad plaintext,
      length key = 32%nat -> iv <> [] ->
      exists ciphertext tag,
        aes_256_gcm_encrypt key iv aad plaintext = Return (ciphertext, tag)
        /\ aes_256_gcm_decrypt key iv aad tag ciphertext = Return plaintext;
  JSON_parse_stringify :
    forall d, plain_document d = true ->
              JSON_parse (JSON_stringify d) = Return d
}.

(** The four values of an envelope that reach the cipher: nonce,
    associated data, tag, ciphertext. *)
Definition cipher_inputs : Type := (Buffer * Buffer * Buffer * Buffer)%type.

(** [y] is [x] with one bit inverted in exactly one of the four values. *)
Definition tampered (x y : cipher_inputs) : Prop :=
  let '(nonce, aad, tag, ciphertext) := x in
  let '(nonce', aad', tag', ciphertext') := y in
  (one_bit_apart nonce nonce' /\ aad' = aad /\ tag' = tag /\ ciphertext' = ciphertext)
  \/ (nonce' = nonce /\ one_bit_apart aad aad' /\ tag' = tag /\ ciphertext' = ciphertext)
  \/ (nonce' = nonce /\ aad' = aad /\ one_bit_apart tag tag' /\ ciphertext' = ciphertext)
  \/ (nonce' = nonce /\ aad' = aad /\ tag' = tag /\ one_bit_apart ciphertext ciphertext').

(** The cipher refuses every single-bit change of what it produced under
    [key].  For AES-256-GCM this is a property of the key (it needs a
    non-zero hash subkey); it is not part of [PlatformSpec]. *)
Definition rejects_single_bit_changes (P : Platform) (key : Buffer) : Prop :=
  forall nonce aad plaintext ciphertext tag y,
    aes_256_gcm_encrypt key nonce aad plaintext = Return (ciphertext, tag) ->
    tampered (nonce, aad, tag, ciphertext) y ->
    let '(nonce', aad', tag', ciphertext') := y in
    exists reason,
      aes_256_gcm_decrypt key nonce' aad' tag' ciphertext' = Throw reason.

(** ** EncryptionService *)

Module EncryptionService.
Section WithPlatform.
Context {P : Platform}.

(** [this.algorithm], [this.secretKey] *)
Record t : Type := {
  algorithm : string;
  secretKey : Buffer
}.

Record EncryptedData : Type := {
  encryptedContent : Buffer;
  iv : Buffer;
  authTag : Buffer;
  ed_algorithm : json;
  fileName : string;
  originalSize : json;
  encryptedSize : json;
  timestamp : json
}.

(** The object [decryptFromIPFS] returns. *)
Record DecryptedFile : Type := {
  content : Buffer;
  df_fileName : string;
  df_originalSize : json;
  df_encryptedSize : json;
  df_algorithm : json;
  df_timestamp : json
}.

(** [encryptFile(fileData, fileName)].  [nonce] is the value drawn by
    [crypto.randomBytes(16)] and [now] the value of [Date.now()]. *)
Definition encryptFile (this : t) (nonce : Buffer) (now : Z)
    (fileData : Buffer) (name : string) : outcome EncryptedData :=
  rethrow "Failed to encrypt file: "
    ('(encrypted, tag) ←
       aes_256_gcm_encrypt (secretKey this) nonce
         (list_byte_of_string name) fileData;
     mret {| encryptedContent := encrypted;
             iv := nonce;
             authTag := tag;
             ed_algorithm := JString (algorithm this);
             fileName := name;
             originalSize := JNumber (Z.of_nat (length fileData));
             encryptedSize := JNumber (Z.of_nat (length encrypted));
             timestamp := JNumber now |}).

(** [decryptFile(encryptedData)].  After the cipher has released the
    content, and still inside the [try] block, the method logs
    [`Original size: ${encryptedData.originalSize} bytes`]: the conversion
    of [originalSize] to text can throw. *)
Definition decryptFile (this : t) (e : EncryptedData) : outcome Buffer :=
  rethrow "Failed to decrypt file: "
    (decrypted ←
       aes_256_gcm_decrypt (secretKey this) (iv e)
         (list_byte_of_string (fileName e)) (authTag e) (encryptedContent e);
     _ ← js_String (originalSize e);
     mret decrypted).

(** [encryptForIPFS(fileData, fileName)] *)
Definition encryptForIPFS (this : t) (nonce : Buffer) (now : Z)
    (fileData : Buffer) (name : string) : outcome Buffer :=
  e ← encryptFile this nonce now fileData name;
  mret (JSON_stringify
          {| sd_encryptedContent := Base64.encode (encryptedContent e);
             sd_iv := Base64.encode (iv e);
             sd_authTag := Base64.encode (authTag e);
             sd_algorithm := ed_algorithm e;
             sd_fileName := fileName e;
             sd_originalSize := originalSize e;
             sd_encryptedSize := encryptedSize e;
             sd_timestamp := timestamp e |}).

(** What a parsed document makes [decryptFile] pass to the cipher. *)
Definition cipher_inputs_of (d : SerializableData) : cipher_inputs :=
  (Base64.decode (sd_iv d), list_byte_of_string (sd_fileName d),
   Base64.decode (sd_authTag d), Base64.decode (sd_encryptedContent d)).

(** The object [decryptFromIPFS] rebuilds from the parsed document. *)
Definition encryptedData_of (d : SerializableData) : EncryptedData :=
  {| encryptedContent := Base64.decode (sd_encryptedContent d);
     iv := Base64.decode (sd_iv d);
     authTag := Base64.decode (sd_authTag d);
     ed_algorithm := sd_algorithm d;
     fileName := sd_fileName d;
     originalSize := sd_originalSize d;
     encryptedSize := sd_encryptedSize d;
     timestamp := sd_timestamp d |}.

(** [decryptFromIPFS(encryptedBuffer)] *)
Definition decryptFromIPFS (this : t) (encryptedBuffer : Buffer)
    : outcome DecryptedFile :=
  rethrow "Failed to decrypt file from IPFS: "
    (d ← JSON_parse encryptedBuffer;
     let e := encryptedData_of d in
     decrypted ← decryptFile this e;
     mret {| content := decrypted;
             df_fileName := fileName e;
             df_originalSize := originalSize e;
             df_encryptedSize := encryptedSize e;
             df_algorithm := ed_algorithm e;
             df_timestamp := timestamp e |}).

(** [getSecretKey()].  [env] is [process.env.FILE_ENCRYPTION_KEY]
    ([None] when unset), [random] the value [crypto.randomBytes(32)] returns
    when a key has to be generated, and [sha256 b] the digest
    [crypto.createHash("sha256").update(b).digest()]. *)
Definition getSecretKey (sha256 : Buffer -> Buffer) (env : option string)
    (random : Buffer) : Buffer :=
  let key :=
    match env with
    | None => Hex.encode random
    | Some k => if String.eqb k "" then Hex.encode random else k
    end in
  if (js_length key =? 64)%nat then Hex.decode key
  else sha256 (list_byte_of_string key).

(** [new EncryptionService()]: [envAlgorithm] is
    [process.env.FILE_ENCRYPTION_ALGORITHM]. *)
Definition create (sha256 : Buffer -> Buffer)
    (envAlgorithm envKey : option string) (random : Buffer) : t :=
  {| algorithm :=
       match envAlgorithm with
       | None => "aes-256-gcm"
       | Some a => if String.eqb a "" then "aes-256-gcm" else a
       end;
     secretKey := getSecretKey sha256 envKey random |}.

Definition testData : Buffer :=
  list_byte_of_string "This is a test file for encryption".

(** [testEncryption()], with the nonce and the time [encryptFile] uses. *)
Definition testEncryption (this : t) (nonce : Buffer) (now : Z) : bool :=
  match encryptFile this nonce now testData "test.txt" with
  | Throw _ => false
  | Return e =>
      match decryptFile this e with
      | Throw _ => false
      | Return decrypted => Buffer_equals testData decrypted
      end
  end.

End WithPlatform.
End EncryptionService.

(** ** The CertificateManager contract

    A reverted call is [Throw reason]; the EVM then discards every storage
    write of the call (see [transact]).  Gas is not modelled: a call never
    reverts for running out of it. *)

Module CertificateManager.

Definition address : Type := N.

Record Certificate : Type := {
  fid : string;
  cid : string;
  email : string;
  issueDate : N;
  lastModified : N;
  issuer : address;
  isActive : bool
}.

(** The value an unwritten mapping slot reads as. *)
Definition zero_certificate : Certificate :=
  {| fid := ""; cid := ""; email := ""; issueDate := 0; lastModified := 0;
     issuer := 0%N; isActive := false |}.

Record Storage : Type := {
  certificates : gmap string Certificate;
  certificatesByEmail : gmap string (list string);
  allFIDs : list string
}.

Definition empty_storage : Storage :=
  {| certificates := ∅; certificatesByEmail := ∅; allFIDs := [] |}.

(** [certificates[f]] *)
Definition certificate_at (st : Storage) (f : string) : Certificate :=
  default zero_certificate (certificates st !! f).

Inductive Event : Type :=
| CertificateIssued (f c e : string) (issueDate : N) (by_ : address)
| CertificateUpdated (f newCid : string) (modificationDate : N) (by_ : address)
| CertificateVerified (f e : string) (isValid : bool) (by_ : address)
| CertificateDeleted (f : string) (by_ : address).

(** [msg.sender] and [block.timestamp] *)
Record Msg : Type := {
  sender : address;
  timestamp : N
}.

Definition require (cond : bool) (reason : string) : outcome unit :=
  if cond then Return tt else Throw reason.

(** [bytes(s).length > 0] *)
Definition nonempty (s : string) : bool := (0 <? String.length s)%nat.

Definition onlyIssuer (st : Storage) (msg : Msg) (f : string) : outcome unit :=
  require (issuer (certificate_at st f) =? sender msg)%N
    "Only issuer can modify certificate".

Definition certificateExists (st : Storage) (f : string) : outcome unit :=
  require (nonempty (fid (certificate_at st f))) "Certificate does not exist".

Definition certificateActive (st : Storage) (f : string) : outcome unit :=
  require (isActive (certificate_at st f)) "Certificate is not active".

Definition issueCertificate (st : Storage) (msg : Msg) (f c e : string)
    : outcome (Storage * list Event) :=
  _ ← require (nonempty f) "FID cannot be empty";
  _ ← require (nonempty c) "CID cannot be empty";
  _ ← require (nonempty e) "Email cannot be empty";
  _ ← require (negb (nonempty (fid (certificate_at st f))))
        "Certificate with this FID already exists";
  let cert := {| fid := f; cid := c; email := e;
                 issueDate := timestamp msg;
                 lastModified := timestamp msg;
                 issuer := sender msg;
                 isActive := true |} in
  mret ({| certificates := <[f := cert]> (certificates st);
           certificatesByEmail :=
             <[e := default [] (certificatesByEmail st !! e) ++ [f]]>
               (certificatesByEmail st);
           allFIDs := allFIDs st ++ [f] |},
        [CertificateIssued f c e (timestamp msg) (sender msg)]).

Definition updateCertificate (st : Storage) (msg : Msg) (f newCid : string)
    : outcome (Storage * list Event) :=
  _ ← certificateExists st f;
  _ ← onlyIssuer st msg f;
  _ ← certificateActive st f;
  _ ← require (nonempty newCid) "New CID cannot be empty";
  let old := certificate_at st f in
  let cert := {| fid := fid old; cid := newCid; email := email old;
                 issueDate := issueDate old;
                 lastModified := timestamp msg;
                 issuer := issuer old;
                 isActive := isActive old |} in
  mret ({| certificates := <[f := cert]> (certificates st);
           certificatesByEmail := certificatesByEmail st;
           allFIDs := allFIDs st |},
        [CertificateUpdated f newCid (timestamp msg) (sender msg)]).

(** The contract compares [keccak256] digests of the two emails; the
    digest is taken to be collision-free, so this is string equality. *)
Definition verifyCertificate (st : Storage) (msg : Msg) (f e : string)
    : outcome (bool * list Event) :=
  _ ← certificateExists st f;
  _ ← certificateActive st f;
  let isValid := String.eqb (email (certificate_at st f)) e in
  mret (isValid, [CertificateVerified f e isValid (sender msg)]).

Definition getCertificate (st : Storage) (f : string) : outcome Certificate :=
  _ ← certificateExists st f;
  mret (certificate_at st f).

Definition getCertificatesByEmail (st : Storage) (e : string) : list string :=
  default [] (certificatesByEmail st !! e).

Definition deleteCertificate (st : Storage) (msg : Msg) (f : string)
    : outcome (Storage * list Event) :=
  _ ← certificateExists st f;
  _ ← onlyIssuer st msg f;
  let old := certificate_at st f in
  let cert := {| fid := fid old; cid := cid old; email := email old;
                 issueDate := issueDate old;
                 lastModified := lastModified old;
                 issuer := issuer old;
                 isActive := false |} in
  mret ({| certificates := <[f := cert]> (certificates st);
           certificatesByEmail := certificatesByEmail st;
           allFIDs := allFIDs st |},
        [CertificateDeleted f (sender msg)]).

Definition certificateStatus (st : Storage) (f : string) : bool * bool :=
  let exists_ := nonempty (fid (certificate_at st f)) in
  (exists_, exists_ && isActive (certificate_at st f)).

(** The state-changing entry points, as transactions. *)
Inductive Call : Type :=
| IssueCertificate (f c e : string)
| UpdateCertificate (f newCid : string)
| VerifyCertificate (f e : string)
| DeleteCertificate (f : string).

Definition execute (st : Storage) (msg : Msg) (call : Call)
    : outcome (Storage * list Event) :=
  match call with
  | IssueCertificate f c e => issueCertificate st msg f c e
  | UpdateCertificate f newCid => updateCertificate st msg f newCid
  | VerifyCertificate f e =>
      '(_, events) ← verifyCertificate st msg f e; mret (st, events)
  | DeleteCertificate f => deleteCertificate st msg f
  end.

(** One mined transaction: on revert the storage is the one before. *)
Definition transact (st : Storage) (tx : Msg * Call)
    : Storage * outcome (list Event) :=
  match execute st tx.1 tx.2 with
  | Return (st', events) => (st', Return events)
  | Throw reason => (st, Throw reason)
  end.

(** The storage after a sequence of transactions, mined in order. *)
Definition run (st : Storage) (txs : list (Msg * Call)) : Storage :=
  foldl (fun s tx => (transact s tx).1) st txs.

Definition getTotalCertificates (st : Storage) : nat := length (allFIDs st).

Definition getAllFIDs (st : Storage) : list string := allFIDs st.

(** The fid a call is about. *)
Definition call_fid (call : Call) : string :=
  match call with
  | IssueCertificate f _ _ => f
  | UpdateCertificate f _ => f
  | VerifyCertificate f _ => f
  | DeleteCertificate f => f
  end.

(** Every written record sits under its own fid. *)
Definition well_keyed (st : Storage) : Prop :=
  forall f, fid (certificate_at st f) = "" \/ fid (certificate_at st f) = f.

(** The fields of a record that no entry point writes. *)
Definition same_identity (a b : Certificate) : Prop :=
  fid a = fid b /\ email a = email b /\ issuer a = issuer b
  /\ issueDate a = issueDate b.

(** What the fid list and the email index hold: the fids that have a
    record, each once, and for every email the fids of its records. *)
Definition indexed (st : Storage) : Prop :=
  NoDup (allFIDs st)
  /\ (forall f, f ∈ allFIDs st <-> nonempty (fid (certificate_at st f)) = true)
  /\ (forall e f, f ∈ getCertificatesByEmail st e
                  <-> nonempty (fid (certificate_at st f)) = true
                      /\ email (certificate_at st f) = e).

End CertificateManager.

(** ** The world the services talk to

    The chain with the deployed contract, the IPFS daemon behind its HTTP
    API, and the ordered record of the requests sent to either. *)

Inductive Request : Type :=
| EthCall (call : CertificateManager.Call)
| EthGetCertificate (f : string)
| EthSendTransaction (call : CertificateManager.Call)
| IpfsCat (c : string)
| IpfsPinRm (c : string).

Record World : Type := {
  chain : CertificateManager.Storage;
  blockTime : N;
  nonce : N;
  ipfsOnline : bool;
  ipfsBlobs : gmap string Buffer;
  ipfsPins : gset string;
  requests : list Request
}.

Definition sent (r : Request) (w : World) : World :=
  {| chain := chain w; blockTime := blockTime w; nonce := nonce w;
     ipfsOnline := ipfsOnline w; ipfsBlobs := ipfsBlobs w;
     ipfsPins := ipfsPins w; requests := requests w ++ [r] |}.

(** An [async] method: it may change the world and returns or throws. *)
Definition Async (A : Type) : Type := World -> outcome A * World.

#[global] Instance Async_ret : MRet Async := fun A a w => (Return a, w).
#[global] Instance Async_bind : MBind Async := fun A B k m w =>
  match m w with
  | (Return a, w') => k a w'
  | (Throw e, w') => (Throw e, w')
  end.

Definition throw {A} (message : string) : Async A := fun w => (Throw message, w).

(** [try { m } catch (error) { handler(error.message) }] *)
Definition try_catch {A} (m : Async A) (handler : string -> Async A) : Async A :=
  fun w =>
    match m w with
    | (Return a, w') => (Return a, w')
    | (Throw e, w') => handler e w'
    end.

Definition lift {A} (o : outcome A) : Async A := fun w => (o, w).

(** ** BlockchainService *)

Module BlockchainService.
Import CertificateManager.

(** [this.contract] is null when the artifacts or the address were
    missing at start-up; [account] is the address of [privateKeys.member1]. *)
Record t : Type := {
  contractLoaded : bool;
  account : address
}.

Record TxResult : Type := {
  transactionHash : N;
  events : list Event;
  isPrivate : bool
}.

(** Arguments no longer than those the handlers pass: an fid
    [cert_<uuid>], an IPFS address and an e-mail address, in bytes.  The
    gas a transaction with such arguments uses stays below 1000000. *)
Definition handler_sized (f c e : string) : bool :=
  ((String.length f <=? 64) && (String.length c <=? 64)
   && (String.length e <=? 254))%nat.

Definition checkContract (this : t) : Async unit :=
  if contractLoaded this then mret tt
  else throw "Contract not deployed or loaded".

(** Sign and send a transaction from [account] and wait for the receipt;
    web3 throws when the receipt reports a revert.  The thrown message is
    kept as the bare revert reason: the text web3 puts around it is not
    modelled, here and in the two [call]s below.  Nor is the gas limit the
    service puts on a transaction (1000000): a transaction is taken to
    fit it, as one with arguments of the handlers' sizes does
    ([handler_sized]); one that would exceed it throws in the program and
    leaves the storage as it was. *)
Definition sendSignedTransaction (this : t) (call : Call) : Async TxResult :=
  fun w =>
    let w := sent (EthSendTransaction call) w in
    let msg := {| sender := account this; timestamp := blockTime w |} in
    let '(st', result) := transact (chain w) (msg, call) in
    let w' := {| chain := st'; blockTime := blockTime w;
                 nonce := N.succ (nonce w);
                 ipfsOnline := ipfsOnline w; ipfsBlobs := ipfsBlobs w;
                 ipfsPins := ipfsPins w; requests := requests w |} in
    match result with
    | Return evs =>
        (Return {| transactionHash := nonce w; events := evs;
                   isPrivate := false |}, w')
    | Throw reason => (Throw reason, w')
    end.

Definition updateCertificate (this : t) (f newCid : string) : Async TxResult :=
  try_catch
    (_ ← checkContract this;
     sendSignedTransaction this (UpdateCertificate f newCid))
    (fun e => throw ("Failed to update certificate: " ++ e)).

(** [contract.methods.verifyCertificate(fid, email).call()]: evaluated
    against the current storage, nothing is mined. *)
Definition call_verifyCertificate (this : t) (f e : string) : Async bool :=
  fun w =>
    let w := sent (EthCall (VerifyCertificate f e)) w in
    let msg := {| sender := account this; timestamp := blockTime w |} in
    match CertificateManager.verifyCertificate (chain w) msg f e with
    | Return (isValid, _) => (Return isValid, w)
    | Throw reason => (Throw reason, w)
    end.

(** [contract.methods.getCertificate(fid).call()] *)
Definition call_getCertificate (f : string) : Async Certificate :=
  fun w =>
    let w := sent (EthGetCertificate f) w in
    (CertificateManager.getCertificate (chain w) f, w).

Definition verifyCertificate (this : t) (f e : string) : Async bool :=
  try_catch
    (_ ← checkContract this; call_verifyCertificate this f e)
    (fun e => throw ("Failed to verify certificate: " ++ e)).

Definition getCertificate (this : t) (f : string) : Async Certificate :=
  try_catch
    (_ ← checkContract this; call_getCertificate f)
    (fun e => throw ("Failed to get certificate: " ++ e)).

Definition deleteCertificate (this : t) (f : string) : Async TxResult :=
  try_catch
    (_ ← checkContract this;
     sendSignedTransaction this (DeleteCertificate f))
    (fun e => throw ("Failed to delete certificate: " ++ e)).

(** [issueCertificate(fid, cid, email, isPrivate)] with [isPrivate]
    false, its default: the public-transaction branch (the Tessera branch
    is not modelled). *)
Definition issueCertificate (this : t) (f c e : string) : Async TxResult :=
  try_catch
    (_ ← checkContract this;
     sendSignedTransaction this (IssueCertificate f c e))
    (fun e => throw ("Failed to issue certificate: " ++ e)).

End BlockchainService.

(** ** IPFSService *)

Module IPFSService.
Section WithPlatform.
Context {P : Platform}.

Record t : Type := {
  encryptionService : EncryptionService.t
}.

(** The cid is pasted into the request URL as it is.  A cid made of
    letters, digits, [-], [_], [.] and [~] reaches the daemon unchanged;
    for any other the daemon may be asked for a different address, which
    is outside the model. *)
Fixpoint url_safe (c : string) : bool :=
  match c with
  | EmptyString => true
  | String a rest =>
      let n := N_of_ascii a in
      (((48 <=? n) && (n <=? 57)) || ((65 <=? n) && (n <=? 90))
       || ((97 <=? n) && (n <=? 122))
       || (n =? 45) || (n =? 95) || (n =? 46) || (n =? 126))%N
      && url_safe rest
  end.

(** [fetch(apiUrl + "/api/v0/cat?arg=" + cid)]: rejects when the daemon
    is unreachable, answers non-OK for a block it does not hold. *)
Definition fetch_cat (c : string) : Async (option Buffer) :=
  fun w =>
    let w := sent (IpfsCat c) w in
    if ipfsOnline w then (Return (ipfsBlobs w !! c), w)
    else (Throw "fetch failed", w).

(** [fetch(apiUrl + "/api/v0/pin/rm?arg=" + cid)]: non-OK when the
    address is not pinned, otherwise the pin is dropped. *)
Definition fetch_pin_rm (c : string) : Async bool :=
  fun w =>
    let w := sent (IpfsPinRm c) w in
    if ipfsOnline w then
      if decide (c ∈ ipfsPins w) then
        (Return true,
         {| chain := chain w; blockTime := blockTime w; nonce := nonce w;
            ipfsOnline := ipfsOnline w; ipfsBlobs := ipfsBlobs w;
            ipfsPins := ipfsPins w ∖ {[c]}; requests := requests w |})
      else (Return false, w)
    else (Throw "fetch failed", w).

Definition retrieveFile (this : t) (c : string)
    : Async EncryptionService.DecryptedFile :=
  try_catch
    (response ← fetch_cat c;
     match response with
     | None => throw "IPFS retrieval failed: 500 Internal Server Error"
     | Some encryptedBuffer =>
         lift (EncryptionService.decryptFromIPFS
                 (encryptionService this) encryptedBuffer)
     end)
    (fun e => throw ("Failed to retrieve file from IPFS: " ++ e)).

Definition removeFile (this : t) (c : string) : Async bool :=
  try_catch
    (ok ← fetch_pin_rm c;
     if ok : bool then mret true
     else throw "IPFS unpin failed: 500 Internal Server Error")
    (fun e => throw ("Failed to remove file from IPFS: " ++ e)).

(** [getVaultUrl(fid, cid)] *)
Definition getVaultUrl (f c : string) : string :=
  ("vault://" ++ f ++ "/" ++ c)%string.

(** The text before the first [/] of [s], and the text after it; [None]
    when [s] has no [/]. *)
Fixpoint split_at_slash (s : string) : option (string * string) :=
  match s with
  | EmptyString => None
  | String c rest =>
      if Ascii.eqb c "/"%char then Some (EmptyString, rest)
      else '(before, after) ← split_at_slash rest;
           Some (String c before, after)
  end.

(** [s] holds no [/]. *)
Fixpoint no_slash (s : string) : bool :=
  match s with
  | EmptyString => true
  | String c rest => negb (Ascii.eqb c "/"%char) && no_slash rest
  end.

(** What [.] matches everywhere in [s]: no line feed, carriage return,
    U+2028 or U+2029 (bytes E2 80 A8 and E2 80 A9). *)
Fixpoint no_line_terminator (s : string) : bool :=
  match s with
  | EmptyString => true
  | String c rest =>
      if Ascii.eqb c "010"%char || Ascii.eqb c "013"%char then false
      else if Ascii.eqb c "226"%char then
        match rest with
        | String c1 (String c2 _) =>
            if Ascii.eqb c1 "128"%char
               && (Ascii.eqb c2 "168"%char || Ascii.eqb c2 "169"%char)
            then false else no_line_terminator rest
        | _ => no_line_terminator rest
        end
      else no_line_terminator rest
  end.

(** [s] without the leading [prefix], when it starts with it. *)
Fixpoint strip_prefix (prefix s : string) : option string :=
  match prefix, s with
  | EmptyString, _ => Some s
  | String a prefix', String b s' =>
      if Ascii.eqb a b then strip_prefix prefix' s' else None
  | _, _ => None
  end.

(** [parseVaultUrl(vaultUrl)]: the match of
    [/^vault:\/\/([^\/]+)\/(.+)$/].  The first group cannot hold a [/],
    so it is the text up to the first [/] after the scheme; the second is
    all that follows and must be non-empty and free of line terminators. *)
Definition parseVaultUrl (vaultUrl : string) : outcome (string * string) :=
  match strip_prefix "vault://" vaultUrl with
  | None => Throw "Invalid vault:// URL format"
  | Some rest =>
      match split_at_slash rest with
      | None => Throw "Invalid vault:// URL format"
      | Some (f, c) =>
          if negb (String.eqb f "") && negb (String.eqb c "")
             && no_line_terminator c
          then Return (f, c)
          else Throw "Invalid vault:// URL format"
      end
  end.

End WithPlatform.
End IPFSService.

(** ** CertificateController *)

Module CertificateController.
Section WithPlatform.
Context {P : Platform}.
Import CertificateManager.

Record t : Type := {
  ipfsService : IPFSService.t;
  blockchainService : BlockchainService.t
}.

Inductive Data : Type :=
| VerifyData (f e : string) (isValid : bool) (reason : option string)
    (certificate : option Certificate)
| DeleteData (f c : string) (transactionHash : N).

Inductive Body : Type :=
| JsonBody (success : bool) (message : string) (error : option string)
    (data : option Data)
| FileBody (content : Buffer).

(** [headers] are the fields a completed [res.set] call of the handler
    has set, in order, with the values the handler gave (Express may add a
    [charset] parameter to a [Content-Type] it is given). *)
Record Response : Type := {
  status : nat;
  headers : list (string * string);
  body : Body
}.

(** [res.status(code).json({ success, message, error, data })] *)
Definition json_response (code : nat) (success : bool) (message : string)
    (error : option string) (data : option Data) : Response :=
  {| status := code; headers := []; body := JsonBody success message error data |}.

Definition dquote : string := String "034"%char "".

(** [Joi.string().required()] on the value found under [key]. *)
Definition joi_string_required (key : string) (v : option string)
    : outcome string :=
  match v with
  | None => Throw (dquote ++ key ++ dquote ++ " is required")
  | Some s =>
      if String.eqb s "" then
        Throw (dquote ++ key ++ dquote ++ " is not allowed to be empty")
      else Return s
  end.

Record VerifyBody : Type := {
  body_fid : option string;
  body_email : option string
}.

(** [schema.validate(req.body)] for
    [{ fid: string().required(), email: string().email().required() }],
    on a body with no other keys and string values. *)
Definition validate_verify (b : VerifyBody) : outcome (string * string) :=
  f ← joi_string_required "fid" (body_fid b);
  e ← joi_string_required "email" (body_email b);
  if joi_email e then mret (f, e)
  else Throw (dquote ++ "email" ++ dquote ++ " must be a valid email").

Definition verifyCertificate (this : t) (b : VerifyBody) : Async Response :=
  try_catch
    (match validate_verify b with
     | Throw detail =>
         mret (json_response 400 false "Validation error" (Some detail) None)
     | Return (f, e) =>
         certificate ← BlockchainService.getCertificate (blockchainService this) f;
         if negb (isActive certificate) then
           mret (json_response 200 false "Certificate verification failed" None
                   (Some (VerifyData f e false
                            (Some "Certificate is not active") None)))
         else
           isValid ← BlockchainService.verifyCertificate
                       (blockchainService this) f e;
           mret (json_response 200 true
                   (if isValid : bool then "Certificate verification successful"
                    else "Certificate verification failed")
                   None
                   (Some (VerifyData f e isValid None
                            (if isValid then Some certificate else None))))
     end)
    (fun e => mret (json_response 500 false "Failed to verify certificate"
                      (Some e) None)).

Definition deleteCertificate (this : t) (f : string) : Async Response :=
  try_catch
    (certificate ← BlockchainService.getCertificate (blockchainService this) f;
     _ ← IPFSService.removeFile (ipfsService this) (cid certificate);
     txResult ← BlockchainService.deleteCertificate (blockchainService this) f;
     mret (json_response 200 true "Certificate deleted successfully" None
             (Some (DeleteData f (cid certificate)
                      (BlockchainService.transactionHash txResult)))))
    (fun e => mret (json_response 500 false "Failed to delete certificate"
                      (Some e) None)).

(** [s.toLowerCase()] on ASCII letters. *)
Definition lower_char (c : ascii) : ascii :=
  let n := N_of_ascii c in
  if ((65 <=? n) && (n <=? 90))%N then ascii_of_N (n + 32) else c.

Fixpoint toLowerCase (s : string) : string :=
  match s with
  | EmptyString => EmptyString
  | String c rest => String (lower_char c) (toLowerCase rest)
  end.

(** [s.split(".").pop()], [cur] being the segment read so far. *)
Fixpoint last_segment (cur s : string) : string :=
  match s with
  | EmptyString => cur
  | String c rest =>
      if Ascii.eqb c "."%char then last_segment "" rest
      else last_segment (cur ++ String c "") rest
  end.

Definition contentTypes : list (string * string) :=
  [ ("pdf", "application/pdf"); ("txt", "text/plain"); ("html", "text/html");
    ("htm", "text/html"); ("json", "application/json"); ("png", "image/png");
    ("jpg", "image/jpeg"); ("jpeg", "image/jpeg"); ("gif", "image/gif");
    ("svg", "image/svg+xml"); ("mp4", "video/mp4"); ("mp3", "audio/mpeg");
    ("zip", "application/zip"); ("doc", "application/msword");
    ("docx", "application/vnd.openxmlformats-officedocument.wordprocessingml.document");
    ("xls", "application/vnd.ms-excel");
    ("xlsx", "application/vnd.openxmlformats-officedocument.spreadsheetml.sheet") ].

Fixpoint lookup_type (ext : string) (table : list (string * string))
    : option string :=
  match table with
  | [] => None
  | (k, v) :: rest => if String.eqb k ext then Some v else lookup_type ext rest
  end.

(** [getContentType(fileName)].  For the two extensions that
    [contentTypes[ext]] finds in [Object.prototype] ([inherited_key]) the
    code returns the inherited value, not a type: they are outside the
    model. *)
Definition getContentType (name : string) : string :=
  let ext := last_segment "" (toLowerCase name) in
  default "application/octet-stream" (lookup_type ext contentTypes).

(** What Node accepts as the value of a header: tabs, the printable
    ASCII characters and U+0080 to U+00FF (bytes C2 or C3 and a
    continuation byte). *)
Fixpoint valid_header_value (s : string) : bool :=
  match s with
  | EmptyString => true
  | String c rest =>
      let n := N_of_ascii c in
      if ((n =? 9) || ((32 <=? n) && (n <=? 126)))%N
      then valid_header_value rest
      else if ((n =? 194) || (n =? 195))%N then
        match rest with
        | String c1 rest1 => continuation c1 && valid_header_value rest1
        | EmptyString => false
        end
      else false
  end.

(** Every byte is a printable ASCII character. *)
Fixpoint printable_ascii (s : string) : bool :=
  match s with
  | EmptyString => true
  | String c rest =>
      ((32 <=? N_of_ascii c) && (N_of_ascii c <=? 126))%N
      && printable_ascii rest
  end.

Fixpoint map_outcome {A B} (f : A -> outcome B) (l : list A)
    : outcome (list B) :=
  match l with
  | [] => Return []
  | x :: rest => y ← f x; ys ← map_outcome f rest; Return (y :: ys)
  end.

(** The text Express makes of a header value: [val.map(String)] for an
    array, which sets one header per element, [String(val)] otherwise. *)
Definition header_values (v : json) : outcome (list string) :=
  match v with
  | JArray items => map_outcome js_String items
  | _ => text ← js_String v; Return [text]
  end.

(** [res.set(object)]: the fields are set in order; a value that does
    not convert to text, or that Node refuses as header content, makes
    the call throw. *)
Fixpoint res_set (fields : list (string * json))
    : outcome (list (string * string)) :=
  match fields with
  | [] => Return []
  | (field, v) :: rest =>
      values ← header_values v;
      if forallb valid_header_value values then
        others ← res_set rest;
        Return (map (pair field) values ++ others)
      else Throw ("Invalid character in header content ["
                  ++ dquote ++ field ++ dquote ++ "]")
  end.

(** The extensions that [contentTypes[ext]] finds in [Object.prototype]
    rather than in the table. *)
Definition inherited_key (ext : string) : bool :=
  String.eqb ext "constructor" || String.eqb ext "__proto__".

(** The header object [downloadCertificate] hands to [res.set], the
    three [toString()] calls in it already made. *)
Definition download_headers (f c : string)
    (file : EncryptionService.DecryptedFile)
    (originalSize encryptedSize timestamp : string) : list (string * json) :=
  let name := EncryptionService.df_fileName file in
  [ ("Content-Type", JString (getContentType name));
    ("Content-Disposition",
     JString ("attachment; filename=" ++ dquote ++ name ++ dquote)%string);
    ("Content-Length",
     JString (pretty (length (EncryptionService.content file))));
    ("X-Vault-FID", JString f);
    ("X-Vault-CID", JString c);
    ("X-Vault-File-Name", JString name);
    ("X-Vault-Original-Size", JString originalSize);
    ("X-Vault-Encrypted-Size", JString encryptedSize);
    ("X-Vault-Algorithm", EncryptionService.df_algorithm file);
    ("X-Vault-Timestamp", JString timestamp) ].

(** [downloadCertificate]: [f] and [c] are [req.params.fid] and
    [req.params.cid]. *)
Definition downloadCertificate (this : t) (f c : string) : Async Response :=
  try_catch
    (if String.eqb f "" || String.eqb c "" then
       mret (json_response 400 false
               "Missing required parameters: fid and cid" None None)
     else
       certificate ← BlockchainService.getCertificate (blockchainService this) f;
       if negb (isActive certificate) then
         mret (json_response 404 false "Certificate not found or inactive"
                 None None)
       else if negb (String.eqb (cid certificate) c) then
         mret (json_response 400 false "CID does not match certificate"
                 None None)
       else
         decryptedFile ← IPFSService.retrieveFile (ipfsService this) c;
         originalSize ←
           lift (js_toString "decryptedFile.originalSize"
                   (EncryptionService.df_originalSize decryptedFile));
         encryptedSize ←
           lift (js_toString "decryptedFile.encryptedSize"
                   (EncryptionService.df_encryptedSize decryptedFile));
         timestamp ←
           lift (js_toString "decryptedFile.timestamp"
                   (EncryptionService.df_timestamp decryptedFile));
         fields ←
           lift (res_set (download_headers f c decryptedFile
                            originalSize encryptedSize timestamp));
         mret {| status := 200;
                 headers := fields;
                 body := FileBody (EncryptionService.content decryptedFile) |})
    (fun e => mret (json_response 500 false "Failed to download certificate"
                      (Some e) None)).

End WithPlatform.
End CertificateController.

(** ** vaultSchemeHandler

    [handleVaultScheme(req, res, next)]: [header] is
    [req.headers["x-vault-scheme"]].  The middleware either answers itself
    or calls [next()], after setting [req.vaultData] when the header held a
    vault URL. *)

Module VaultSchemeHandler.

Inductive Result : Type :=
| Respond (response : CertificateController.Response)
| Next (vaultData : option (string * string)).

Definition handleVaultScheme (header : option string) : Result :=
  match header with
  | None => Next None
  | Some h =>
      if String.eqb h "" then Next None
      else match IPFSService.strip_prefix "vault://" h with
           | None => Next None
           | Some _ =>
               match IPFSService.parseVaultUrl h with
               | Return data => Next (Some data)
               | Throw e =>
                   Respond (CertificateController.json_response 400 false
                              "Invalid vault:// URL format" (Some e) None)
               end
           end
  end.

End VaultSchemeHandler.

(** ** A reference platform

    A small executable [Platform], used to run the definitions above on
    concrete inputs and to show that [PlatformSpec] has a model.  Its
    cipher masks the data with a byte derived from key and nonce and tags
    nonce, associated data and ciphertext with a 16-byte checksum; its
    document format writes every field self-delimited.  Neither is meant
    as AES-256-GCM or as JSON text. *)

Module ModelPlatform.

Definition checksum (data : Buffer) : byte := foldr byte_xor "000"%byte data.

Fixpoint buffer_eqb (a b : Buffer) : bool :=
  match a, b with
  | [], [] => true
  | x :: a', y :: b' => Byte.eqb x y && buffer_eqb a' b'
  | _, _ => false
  end.

Definition mask (key nonce : Buffer) : byte := checksum (key ++ nonce).

Definition tag_of (key nonce aad ciphertext : Buffer) : Buffer :=
  replicate 13 (checksum key)
    ++ [checksum nonce; checksum aad; checksum ciphertext].

Definition check_parameters (key nonce : Buffer) : outcome unit :=
  if negb (length key =? 32)%nat then Throw "Invalid key length"
  else match nonce with
       | [] => Throw "Invalid initialization vector"
       | _ => Return tt
       end.

Definition encrypt (key nonce aad plaintext : Buffer)
    : outcome (Buffer * Buffer) :=
  _ ← check_parameters key nonce;
  let ciphertext := map (byte_xor (mask key nonce)) plaintext in
  mret (ciphertext, tag_of key nonce aad ciphertext).

Definition decrypt (key nonce aad tag ciphertext : Buffer) : outcome Buffer :=
  _ ← check_parameters key nonce;
  if buffer_eqb tag (tag_of key nonce aad ciphertext) then
    mret (map (byte_xor (mask key nonce)) ciphertext)
  else Throw "Unsupported state or unable to authenticate data".

(** Strings: each byte behind a [1], closed by a [0]. *)
Fixpoint write_bytes (bs : list byte) : Buffer :=
  match bs with
  | [] => ["000"%byte]
  | b :: rest => "001"%byte :: b :: write_bytes rest
  end.

Fixpoint read_bytes (fuel : nat) (buf : Buffer) : option (list byte * Buffer) :=
  match fuel, buf with
  | _, "000"%byte :: rest => Some ([], rest)
  | S fuel', "001"%byte :: b :: rest =>
      '(bs, rest') ← read_bytes fuel' rest; Some (b :: bs, rest')
  | _, _ => None
  end.

Definition write_string (s : string) : Buffer :=
  write_bytes (list_byte_of_string s).

Definition read_string (buf : Buffer) : option (string * Buffer) :=
  '(bs, rest) ← read_bytes (length buf) buf;
  Some (string_of_list_byte bs, rest).

(** Positive numbers: binary digits, least significant first, closed by
    a [2]. *)
Fixpoint write_positive (p : positive) : Buffer :=
  match p with
  | xH => ["002"%byte]
  | xO p' => "000"%byte :: write_positive p'
  | xI p' => "001"%byte :: write_positive p'
  end.

Fixpoint read_positive (fuel : nat) (buf : Buffer) : option (positive * Buffer) :=
  match fuel, buf with
  | _, "002"%byte :: rest => Some (xH, rest)
  | S fuel', "000"%byte :: rest =>
      '(p, rest') ← read_positive fuel' rest; Some (xO p, rest')
  | S fuel', "001"%byte :: rest =>
      '(p, rest') ← read_positive fuel' rest; Some (xI p, rest')
  | _, _ => None
  end.

(** Lists: each element behind a [1], closed by a [0]. *)
Definition write_list {A} (write : A -> Buffer) : list A -> Buffer :=
  fix go (l : list A) : Buffer :=
    match l with
    | [] => ["000"%byte]
    | x :: rest => "001"%byte :: write x ++ go rest
    end.

Fixpoint write_json (v : json) : Buffer :=
  match v with
  | JNull => ["000"%byte]
  | JBool false => ["001"%byte]
  | JBool true => ["002"%byte]
  | JNumber Z0 => ["003"%byte]
  | JNumber (Zpos p) => "004"%byte :: write_positive p
  | JNumber (Zneg p) => "005"%byte :: write_positive p
  | JString s => "006"%byte :: write_string s
  | JArray items => "007"%byte :: write_list write_json items
  | JObject members =>
      "008"%byte
      :: write_list (fun member => write_string member.1 ++ write_json member.2)
           members
  end.

Fixpoint read_json (fuel : nat) (buf : Buffer) : option (json * Buffer) :=
  match fuel with
  | O => None
  | S fuel' =>
      match buf with
      | "000"%byte :: rest => Some (JNull, rest)
      | "001"%byte :: rest => Some (JBool false, rest)
      | "002"%byte :: rest => Some (JBool true, rest)
      | "003"%byte :: rest => Some (JNumber 0, rest)
      | "004"%byte :: rest =>
          '(p, rest') ← read_positive (length rest) rest;
          Some (JNumber (Zpos p), rest')
      | "005"%byte :: rest =>
          '(p, rest') ← read_positive (length rest) rest;
          Some (JNumber (Zneg p), rest')
      | "006"%byte :: rest =>
          '(s, rest') ← read_string rest; Some (JString s, rest')
      | "007"%byte :: rest =>
          '(items, rest') ← read_items fuel' rest;
          Some (JArray items, rest')
      | "008"%byte :: rest =>
          '(members, rest') ← read_members fuel' rest;
          Some (JObject members, rest')
      | _ => None
      end
  end
with read_items (fuel : nat) (buf : Buffer) : option (list json * Buffer) :=
  match fuel with
  | O => None
  | S fuel' =>
      match buf with
      | "000"%byte :: rest => Some ([], rest)
      | "001"%byte :: rest =>
          '(x, rest1) ← read_json fuel' rest;
          '(xs, rest2) ← read_items fuel' rest1;
          Some (x :: xs, rest2)
      | _ => None
      end
  end
with read_members (fuel : nat) (buf : Buffer)
    : option (list (string * json) * Buffer) :=
  match fuel with
  | O => None
  | S fuel' =>
      match buf with
      | "000"%byte :: rest => Some ([], rest)
      | "001"%byte :: rest =>
          '(key, rest1) ← read_string rest;
          '(x, rest2) ← read_json fuel' rest1;
          '(xs, rest3) ← read_members fuel' rest2;
          Some ((key, x) :: xs, rest3)
      | _ => None
      end
  end.

Definition read_value (buf : Buffer) : option (json * Buffer) :=
  read_json (length buf) buf.

Definition stringify (d : SerializableData) : Buffer :=
  write_string (sd_encryptedContent d) ++ write_string (sd_iv d)
    ++ write_string (sd_authTag d) ++ write_json (sd_algorithm d)
    ++ write_string (sd_fileName d) ++ write_json (sd_originalSize d)
    ++ write_json (sd_encryptedSize d) ++ write_json (sd_timestamp d).

Definition parse_fields (buf : Buffer) : option SerializableData :=
  '(ec, buf) ← read_string buf;
  '(nonce, buf) ← read_string buf;
  '(tag, buf) ← read_string buf;
  '(alg, buf) ← read_value buf;
  '(name, buf) ← read_string buf;
  '(osize, buf) ← read_value buf;
  '(esize, buf) ← read_value buf;
  '(ts, buf) ← read_value buf;
  match buf with
  | [] => Some {| sd_encryptedContent := ec; sd_iv := nonce;
                  sd_authTag := tag; sd_algorithm := alg;
                  sd_fileName := name; sd_originalSize := osize;
                  sd_encryptedSize := esize; sd_timestamp := ts |}
  | _ => None
  end.

Definition parse (buf : Buffer) : outcome SerializableData :=
  match parse_fields buf with
  | Some d => Return d
  | None => Throw "Unexpected token in JSON"
  end.

(** Non-empty text on both sides of an [@]. *)
Fixpoint has_at (seen : bool) (s : string) : bool :=
  match s with
  | EmptyString => false
  | String c rest =>
      if Ascii.eqb c "@"%char then seen && negb (String.eqb rest "")
      else has_at true rest
  end.

Definition platform : Platform := {|
  aes_256_gcm_encrypt := encrypt;
  aes_256_gcm_decrypt := decrypt;
  JSON_stringify := stringify;
  JSON_parse := parse;
  joi_email := has_at false
|}.

End ModelPlatform.

(** ** Concrete ledgers and worlds

    Small concrete states, used below to run the definitions. *)

Module LedgerExamples.
Import CertificateManager.

Definition issuer1 : Msg := {| sender := 1%N; timestamp := 100 |}.
Definition other2 : Msg := {| sender := 2%N; timestamp := 200 |}.

(** [create("f1", "QmA", "a@x.com")] by address 1 *)
Definition issued : Storage :=
  run empty_storage [(issuer1, IssueCertificate "f1" "QmA" "a@x.com")].

(** ... followed by [deactivate("f1")] by the issuer *)
Definition deleted : Storage :=
  run issued [({| sender := 1%N; timestamp := 150 |}, DeleteCertificate "f1")].
End LedgerExamples.

Module WorldExamples.
Import CertificateController.

Definition key : Buffer := replicate 32 "007"%byte.

Definition encryption : EncryptionService.t :=
  {| EncryptionService.algorithm := "aes-256-gcm";
     EncryptionService.secretKey := key |}.

Definition controller : CertificateController.t :=
  {| ipfsService := {| IPFSService.encryptionService := encryption |};
     blockchainService := {| BlockchainService.contractLoaded := true;
                             BlockchainService.account := 1%N |} |}.

Definition plaintext : Buffer := list_byte_of_string "hello vault".

(** The envelope stored for "f1": "hello vault" under the name
    "note.txt". *)
Definition blob : Buffer :=
  match EncryptionService.encryptForIPFS (P := ModelPlatform.platform)
          encryption (replicate 16 "042"%byte) 1700000000000 plaintext "note.txt" with
  | Return b => b
  | Throw _ => []
  end.

(** The document inside [blob]. *)
Definition document : SerializableData :=
  match ModelPlatform.parse blob with
  | Return d => d
  | Throw _ =>
      {| sd_encryptedContent := ""; sd_iv := ""; sd_authTag := "";
         sd_algorithm := JNull; sd_fileName := ""; sd_originalSize := JNull;
         sd_encryptedSize := JNull; sd_timestamp := JNull |}
  end.



(** [document] with [originalSize] replaced by [{"toString": 1}]. *)
Definition object_size_document : SerializableData :=
  {| sd_encryptedContent := sd_encryptedContent document;
     sd_iv := sd_iv document;
     sd_authTag := sd_authTag document;
     sd_algorithm := sd_algorithm document;
     sd_fileName := sd_fileName document;
     sd_originalSize := JObject [("toString", JNumber 1)];
     sd_encryptedSize := sd_encryptedSize document;
     sd_timestamp := sd_timestamp document |}.

(** [document] with the three unauthenticated fields replaced. *)
Definition replaced_document : SerializableData :=
  {| sd_encryptedContent := sd_encryptedContent document;
     sd_iv := sd_iv document;
     sd_authTag := sd_authTag document;
     sd_algorithm := JString "none";
     sd_fileName := sd_fileName document;
     sd_originalSize := JArray [JNumber 0; JNull];
     sd_encryptedSize := sd_encryptedSize document;
     sd_timestamp := JObject [("at", JNull)] |}.

(** "f1" issued by address 1 with cid "QmA", the blob stored and pinned. *)
Definition world (online : bool) : World :=
  {| chain := LedgerExamples.issued; blockTime := 150; nonce := 7;
     ipfsOnline := online;
     ipfsBlobs := {["QmA" := blob]};
     ipfsPins := {["QmA"]};
     requests := [] |}.

(** The same world after the issuer deactivated "f1". *)
Definition world_deleted : World :=
  {| chain := LedgerExamples.deleted; blockTime := 160; nonce := 8;
     ipfsOnline := true;
     ipfsBlobs := {["QmA" := blob]};
     ipfsPins := ∅;
     requests := [] |}.
End WorldExamples.

Module ServiceExamples.
Import CertificateController.

(** The controller of a node whose account is address 2, not the issuer
    of "f1". *)
Definition controller_other : CertificateController.t :=
  {| ipfsService := {| IPFSService.encryptionService := WorldExamples.encryption |};
     blockchainService := {| BlockchainService.contractLoaded := true;
                             BlockchainService.account := 2%N |} |}.

(** The controller of a node that started without the contract. *)
Definition controller_unloaded : CertificateController.t :=
  {| ipfsService := {| IPFSService.encryptionService := WorldExamples.encryption |};
     blockchainService := {| BlockchainService.contractLoaded := false;
                             BlockchainService.account := 1%N |} |}.

(** The record of "f1" in [WorldExamples.world]. *)
Definition record_f1 : CertificateManager.Certificate :=
  {| CertificateManager.fid := "f1"; CertificateManager.cid := "QmA";
     CertificateManager.email := "a@x.com";
     CertificateManager.issueDate := 100;
     CertificateManager.lastModified := 100;
     CertificateManager.issuer := 1%N;
     CertificateManager.isActive := true |}.

(** A chain without certificates. *)
Definition empty_world : World :=
  {| chain := CertificateManager.empty_storage; blockTime := 100; nonce := 0;
     ipfsOnline := true; ipfsBlobs := ∅; ipfsPins := ∅; requests := [] |}.

(** The stored envelope of "f1" with [originalSize] replaced by [null]. *)
Definition blob_null_size : Buffer :=
  ModelPlatform.stringify
    {| sd_encryptedContent := sd_encryptedContent WorldExamples.document;
       sd_iv := sd_iv WorldExamples.document;
       sd_authTag := sd_authTag WorldExamples.document;
       sd_algorithm := sd_algorithm WorldExamples.document;
       sd_fileName := sd_fileName WorldExamples.document;
       sd_originalSize := JNull;
       sd_encryptedSize := sd_encryptedSize WorldExamples.document;
       sd_timestamp := sd_timestamp WorldExamples.document |}.

Definition world_null_size : World :=
  {| chain := LedgerExamples.issued; blockTime := 150; nonce := 7;
     ipfsOnline := true;
     ipfsBlobs := {["QmA" := blob_null_size]};
     ipfsPins := {["QmA"]};
     requests := [] |}.

End ServiceExamples.

(* ===================================================================== *)
(** * Part II: properties                                                 *)
(* ===================================================================== *)

(** ** Base64 *)

Example base64_encode_Man : Base64.encode ["M"; "a"; "n"]%byte = "TWFu".
Proof. reflexivity. Qed.

Example base64_encode_Ma : Base64.encode ["M"; "a"]%byte = "TWE=".
Proof. reflexivity. Qed.

Example base64_encode_M : Base64.encode ["M"]%byte = "TQ==".
Proof. reflexivity. Qed.

(** The last character before [==] carries two bits; its four low bits
    are dropped, so "TQ==" and "TS==" differ in one bit of the text and
    decode to the same byte. *)
Example base64_unused_bits :
  Base64.decode "TS==" = Base64.decode "TQ=="
  /\ one_bit_apart (list_byte_of_string "TQ==") (list_byte_of_string "TS==").
Proof. split; [reflexivity|]. exists 9%nat. split; [cbn; lia | reflexivity]. Qed.

Example base64_decode_lenient :
  Base64.decode "T W-E_=ignored" = Base64.decode "TW+E/".
Proof. reflexivity. Qed.

Lemma utf16_low_bytes_ascii (s : string) :
  ascii_text s = true -> utf16_low_bytes s = s.
Proof.
  induction s as [|c s IH]; [reflexivity|].
  cbn [ascii_text utf16_low_bytes]. intros [Hc Hs]%andb_prop.
  now rewrite Hc, (IH Hs).
Qed.

Lemma base64_char_ascii (s : Base64.sextet) :
  (N_of_ascii (Base64.base64_char s) <? 128)%N = true.
Proof.
  destruct s as [[[[[b5 b4] b3] b2] b1] b0].
  destruct b5, b4, b3, b2, b1, b0; vm_compute; reflexivity.
Qed.

Lemma unbase64_base64_char (s : Base64.sextet) :
  Base64.unbase64 (Base64.base64_char s) = Some s
  /\ Ascii.eqb (Base64.base64_char s) "="%char = false.
Proof.
  destruct s as [[[[[b5 b4] b3] b2] b1] b0].
  destruct b5, b4, b3, b2, b1, b0; split; vm_compute; reflexivity.
Qed.

Lemma sextets_base64_char (s : Base64.sextet) (rest : string) :
  Base64.sextets (String (Base64.base64_char s) rest)
  = s :: Base64.sextets rest.
Proof.
  destruct (unbase64_base64_char s) as [Hu He].
  cbn [Base64.sextets]. now rewrite He, Hu.
Qed.

Lemma join_split3 (a b c : byte) :
  let '(s1, s2, s3, s4) := Base64.split3 a b c in
  Base64.join1 s1 s2 = a /\ Base64.join2 s2 s3 = b /\ Base64.join3 s3 s4 = c.
Proof.
  unfold Base64.split3.
  destruct (Byte.to_bits a) as (a0 & a1 & a2 & a3 & a4 & a5 & a6 & a7) eqn:Ha.
  destruct (Byte.to_bits b) as (b0 & b1 & b2 & b3 & b4 & b5 & b6 & b7) eqn:Hb.
  destruct (Byte.to_bits c) as (c0 & c1 & c2 & c3 & c4 & c5 & c6 & c7) eqn:Hc.
  cbn [Base64.join1 Base64.join2 Base64.join3].
  rewrite <- Ha, <- Hb, <- Hc, !Byte.of_bits_to_bits. auto.
Qed.

Lemma pack_sextets_encode (n : nat) :
  forall bs : list byte, (length bs <= n)%nat ->
    Base64.pack (Base64.sextets (Base64.encode bs)) = bs
    /\ ascii_text (Base64.encode bs) = true.
Proof.
  induction n as [n IH] using lt_wf_ind. intros bs Hlen.
  destruct bs as [|a [|b [|c rest]]].
  - split; reflexivity.
  - pose proof (join_split3 a "000" "000") as H.
    cbn [Base64.encode]. destruct (Base64.split3 a "000" "000") as [[[s1 s2] s3] s4].
    destruct H as (H1 & _ & _).
    rewrite !sextets_base64_char. cbn [ascii_text].
    rewrite !base64_char_ascii. cbn. now rewrite H1.
  - pose proof (join_split3 a b "000") as H.
    cbn [Base64.encode]. destruct (Base64.split3 a b "000") as [[[s1 s2] s3] s4].
    destruct H as (H1 & H2 & _).
    rewrite !sextets_base64_char. cbn [ascii_text].
    rewrite !base64_char_ascii. cbn. now rewrite H1, H2.
  - pose proof (join_split3 a b c) as H.
    cbn [Base64.encode]. destruct (Base64.split3 a b c) as [[[s1 s2] s3] s4].
    destruct H as (H1 & H2 & H3).
    rewrite !sextets_base64_char. cbn [ascii_text].
    rewrite !base64_char_ascii.
    cbn [Base64.pack andb]. rewrite H1, H2, H3.
    destruct (IH (length rest) ltac:(cbn in Hlen; lia) rest (le_n _))
      as [Hrest Hascii].
    now rewrite Hrest, Hascii.
Qed.

(** The encoder writes ASCII text. *)
Lemma ascii_text_encode (bs : list byte) : ascii_text (Base64.encode bs) = true.
Proof. exact (proj2 (pack_sextets_encode (length bs) bs (le_n _))). Qed.

(** [Buffer.from(buf.toString("base64"), "base64")] gives [buf] back. *)
Lemma decode_encode (bs : list byte) : Base64.decode (Base64.encode bs) = bs.
Proof.
  unfold Base64.decode.
  rewrite (utf16_low_bytes_ascii _ (ascii_text_encode bs)).
  exact (proj1 (pack_sextets_encode (length bs) bs (le_n _))).
Qed.

(** A character outside ASCII is read by the low byte of its code unit:
    U+014B (bytes C5 8B) counts as the letter K. *)
Example base64_decode_low_byte :
  Base64.decode (String "197" (String "139" "Q==")) = Base64.decode "KQ==".
Proof. reflexivity. Qed.

(** ** The reference platform meets [PlatformSpec] *)

Lemma byte_xor_involutive (k a : byte) :
  byte_xor k (byte_xor k a) = a.
Proof.
  unfold byte_xor.
  destruct (Byte.to_bits k) as (k0 & k1 & k2 & k3 & k4 & k5 & k6 & k7).
  destruct (Byte.to_bits a) as (a0 & a1 & a2 & a3 & a4 & a5 & a6 & a7) eqn:Ha.
  rewrite Byte.to_bits_of_bits.
  rewrite <- (Byte.of_bits_to_bits a), Ha.
  now rewrite <- !xorb_assoc, !xorb_nilpotent, !xorb_false_l.
Qed.

Lemma to_bits_byte_xor (a b : byte) :
  Byte.to_bits (byte_xor a b)
  = let '(a0, (a1, (a2, (a3, (a4, (a5, (a6, a7))))))) := Byte.to_bits a in
    let '(b0, (b1, (b2, (b3, (b4, (b5, (b6, b7))))))) := Byte.to_bits b in
    (xorb a0 b0, (xorb a1 b1, (xorb a2 b2, (xorb a3 b3,
    (xorb a4 b4, (xorb a5 b5, (xorb a6 b6, xorb a7 b7))))))).
Proof.
  unfold byte_xor.
  destruct (Byte.to_bits a) as (a0 & a1 & a2 & a3 & a4 & a5 & a6 & a7).
  destruct (Byte.to_bits b) as (b0 & b1 & b2 & b3 & b4 & b5 & b6 & b7).
  apply Byte.to_bits_of_bits.
Qed.

Lemma to_bits_inj (a b : byte) : Byte.to_bits a = Byte.to_bits b -> a = b.
Proof.
  intros H. rewrite <- (Byte.of_bits_to_bits a), <- (Byte.of_bits_to_bits b).
  now rewrite H.
Qed.

(** Reduce an equation between [byte_xor] terms to its eight bits. *)
Ltac byte_bits :=
  apply to_bits_inj; rewrite ?to_bits_byte_xor;
  repeat match goal with
    | |- context [Byte.to_bits (byte_xor ?a ?b)] => rewrite (to_bits_byte_xor a b)
    | |- context [Byte.to_bits ?a] =>
        is_var a; destruct (Byte.to_bits a) as (? & ? & ? & ? & ? & ? & ? & ?)
    end.

Lemma byte_xor_comm (a b : byte) : byte_xor a b = byte_xor b a.
Proof.
  byte_bits. repeat (apply f_equal2; [apply xorb_comm|]). apply xorb_comm.
Qed.

Lemma byte_xor_assoc (a b c : byte) :
  byte_xor a (byte_xor b c) = byte_xor (byte_xor a b) c.
Proof.
  byte_bits. repeat (apply f_equal2; [symmetry; apply xorb_assoc|]).
  symmetry; apply xorb_assoc.
Qed.

Lemma byte_xor_self_inv (m c : byte) : byte_xor m c = c -> m = "000"%byte.
Proof.
  intros H. apply (f_equal Byte.to_bits) in H. rewrite to_bits_byte_xor in H.
  apply to_bits_inj.
  destruct (Byte.to_bits m) as (m0 & m1 & m2 & m3 & m4 & m5 & m6 & m7).
  destruct (Byte.to_bits c) as (c0 & c1 & c2 & c3 & c4 & c5 & c6 & c7).
  injection H as H0 H1 H2 H3 H4 H5 H6 H7.
  assert (Hbit : forall x y, xorb x y = y -> x = false)
    by (intros [] [] Hxy; cbn in Hxy; congruence).
  apply Hbit in H0, H1, H2, H3, H4, H5, H6, H7. now subst.
Qed.

Lemma bit_mask_nonzero (i : nat) : bit_mask i <> "000"%byte.
Proof. do 8 (destruct i as [|i]; [discriminate|]). discriminate. Qed.

Lemma checksum_alter (m : byte) (buf : Buffer) :
  forall k, (k < length buf)%nat ->
    ModelPlatform.checksum (alter (byte_xor m) k buf)
    = byte_xor m (ModelPlatform.checksum buf).
Proof.
  unfold ModelPlatform.checksum.
  induction buf as [|x buf IH]; intros k Hk; [cbn in Hk; lia|].
  destruct k as [|k]; cbn.
  - symmetry. apply byte_xor_assoc.
  - rewrite IH by (cbn in Hk; lia).
    now rewrite !byte_xor_assoc, (byte_xor_comm x m).
Qed.

Lemma checksum_flip_bit (i : nat) (buf : Buffer) :
  (i < 8 * length buf)%nat ->
  ModelPlatform.checksum (flip_bit i buf) <> ModelPlatform.checksum buf.
Proof.
  intros Hi Heq. unfold flip_bit in Heq.
  rewrite checksum_alter in Heq
    by (apply Nat.Div0.div_lt_upper_bound; lia).
  exact (bit_mask_nonzero _ (byte_xor_self_inv _ _ Heq)).
Qed.

Lemma one_bit_apart_checksum (a b : Buffer) :
  one_bit_apart a b -> ModelPlatform.checksum b <> ModelPlatform.checksum a.
Proof. intros (i & Hi & ->). now apply checksum_flip_bit. Qed.

Lemma one_bit_apart_length (a b : Buffer) :
  one_bit_apart a b -> length b = length a /\ a <> [].
Proof.
  intros (i & Hi & ->). unfold flip_bit. rewrite length_alter. split; [reflexivity|].
  intros ->. cbn in Hi. lia.
Qed.

Lemma buffer_eqb_eq (a b : Buffer) : ModelPlatform.buffer_eqb a b = true -> a = b.
Proof.
  revert b. induction a as [|x a IH]; intros [|y b] H; try discriminate;
    [reflexivity|].
  cbn in H. apply andb_prop in H as [Hxy Hab].
  f_equal; [now apply Byte.byte_dec_bl | now apply IH].
Qed.

Lemma buffer_eqb_refl (b : Buffer) : ModelPlatform.buffer_eqb b b = true.
Proof.
  induction b as [|x b IH]; [reflexivity|].
  cbn. rewrite IH, andb_true_r. now apply Byte.byte_dec_lb.
Qed.

Lemma model_decrypt_encrypt (key nonce aad plaintext : Buffer) :
  length key = 32%nat -> nonce <> [] ->
  exists ciphertext tag,
    ModelPlatform.encrypt key nonce aad plaintext = Return (ciphertext, tag)
    /\ ModelPlatform.decrypt key nonce aad tag ciphertext = Return plaintext.
Proof.
  intros Hkey Hnonce.
  assert (Hpar : ModelPlatform.check_parameters key nonce = Return tt).
  { unfold ModelPlatform.check_parameters. rewrite Hkey. cbn.
    destruct nonce; [contradiction | reflexivity]. }
  eexists _, _. unfold ModelPlatform.encrypt, ModelPlatform.decrypt.
  rewrite Hpar. cbn. split; [reflexivity|].
  rewrite buffer_eqb_refl. cbn. f_equal.
  rewrite map_map. rewrite <- (map_id plaintext) at 2.
  apply map_ext. intros a. apply byte_xor_involutive.
Qed.

Lemma tag_of_inj (key nonce aad ciphertext nonce' aad' ciphertext' : Buffer) :
  ModelPlatform.tag_of key nonce aad ciphertext
  = ModelPlatform.tag_of key nonce' aad' ciphertext' ->
  ModelPlatform.checksum nonce = ModelPlatform.checksum nonce'
  /\ ModelPlatform.checksum aad = ModelPlatform.checksum aad'
  /\ ModelPlatform.checksum ciphertext = ModelPlatform.checksum ciphertext'.
Proof.
  unfold ModelPlatform.tag_of. intros H. apply app_inv_head in H.
  injection H. auto.
Qed.

(** The reference cipher refuses every single-bit change, under any key. *)
Lemma model_rejects_single_bit_changes (key : Buffer) :
  rejects_single_bit_changes ModelPlatform.platform key.
Proof.
  intros nonce aad plaintext ciphertext tag [[[nonce' aad'] tag'] ciphertext']
    Henc Htampered.
  change (ModelPlatform.encrypt key nonce aad plaintext
          = Return (ciphertext, tag)) in Henc.
  change (exists reason,
             ModelPlatform.decrypt key nonce' aad' tag' ciphertext'
             = Throw reason).
  unfold ModelPlatform.encrypt in Henc. unfold ModelPlatform.decrypt.
  destruct (ModelPlatform.check_parameters key nonce) as [[]|] eqn:Hpar;
    cbn [mbind mret outcome_bind outcome_ret obind] in Henc; [|discriminate].
  injection Henc as Hc Ht.
  assert (Hpar' : length nonce' = length nonce ->
                  ModelPlatform.check_parameters key nonce' = Return tt).
  { intros Hlen. unfold ModelPlatform.check_parameters in *.
    destruct (negb _); [discriminate|].
    destruct nonce; [discriminate|]. now destruct nonce'. }
  assert (Hrej : ModelPlatform.buffer_eqb tag'
                   (ModelPlatform.tag_of key nonce' aad' ciphertext') = false).
  { destruct (ModelPlatform.buffer_eqb _ _) eqn:Heq; [|reflexivity].
    apply buffer_eqb_eq in Heq. exfalso.
    destruct Htampered as [(H & -> & -> & ->)|[(-> & H & -> & ->)|
                          [(-> & -> & H & ->)|(-> & -> & -> & H)]]];
      pose proof (one_bit_apart_checksum _ _ H) as Hne.
    1, 2, 4: rewrite Heq in Ht; apply tag_of_inj in Ht as (? & ? & ?);
             congruence.
    congruence. }
  rewrite Hpar'.
  - cbn [mbind mret outcome_bind outcome_ret obind]. rewrite Hrej. eauto.
  - destruct Htampered as [(H & _)|[(-> & _)|[(-> & _)|(-> & _)]]];
      [now apply one_bit_apart_length in H | reflexivity ..].
Qed.

Lemma read_write_bytes (bs : list byte) :
  forall (fuel : nat) (rest : Buffer), (length bs <= fuel)%nat ->
    ModelPlatform.read_bytes fuel (ModelPlatform.write_bytes bs ++ rest)
    = Some (bs, rest).
Proof.
  induction bs as [|b bs IH]; intros fuel rest Hfuel.
  - destruct fuel; reflexivity.
  - destruct fuel as [|fuel]; [cbn in Hfuel; lia|].
    cbn. rewrite IH by (cbn in Hfuel; lia). reflexivity.
Qed.

Lemma length_write_bytes (bs : list byte) :
  (length bs <= length (ModelPlatform.write_bytes bs))%nat.
Proof. induction bs; cbn; lia. Qed.

Lemma read_write_string (s : string) (rest : Buffer) :
  ModelPlatform.read_string (ModelPlatform.write_string s ++ rest)
  = Some (s, rest).
Proof.
  unfold ModelPlatform.read_string, ModelPlatform.write_string.
  rewrite read_write_bytes.
  - cbn. now rewrite string_of_list_byte_of_string.
  - rewrite length_app.
    pose proof (length_write_bytes (list_byte_of_string s)). lia.
Qed.

Lemma read_write_positive (p : positive) :
  forall (fuel : nat) (rest : Buffer),
    (length (ModelPlatform.write_positive p) <= S fuel)%nat ->
    ModelPlatform.read_positive fuel (ModelPlatform.write_positive p ++ rest)
    = Some (p, rest).
Proof.
  induction p as [p IH|p IH|]; intros fuel rest Hfuel.
  - destruct fuel as [|fuel]; [destruct p; cbn in Hfuel; lia|].
    cbn. rewrite IH by (cbn in Hfuel; lia). reflexivity.
  - destruct fuel as [|fuel]; [destruct p; cbn in Hfuel; lia|].
    cbn. rewrite IH by (cbn in Hfuel; lia). reflexivity.
  - destruct fuel; reflexivity.
Qed.

Lemma write_list_cons {A} (write : A -> Buffer) (x : A) (l : list A) :
  ModelPlatform.write_list write (x :: l)
  = "001"%byte :: write x ++ ModelPlatform.write_list write l.
Proof. reflexivity. Qed.

Lemma read_write_json_fuel (fuel : nat) :
  (forall v rest,
      (length (ModelPlatform.write_json v) <= fuel)%nat ->
      ModelPlatform.read_json fuel (ModelPlatform.write_json v ++ rest)
      = Some (v, rest))
  /\ (forall items rest,
        (length (ModelPlatform.write_list ModelPlatform.write_json items)
         <= fuel)%nat ->
        ModelPlatform.read_items fuel
          (ModelPlatform.write_list ModelPlatform.write_json items ++ rest)
        = Some (items, rest))
  /\ (forall members rest,
        (length (ModelPlatform.write_list
                   (fun member => ModelPlatform.write_string member.1
                                  ++ ModelPlatform.write_json member.2)
                   members) <= fuel)%nat ->
        ModelPlatform.read_members fuel
          (ModelPlatform.write_list
             (fun member => ModelPlatform.write_string member.1
                            ++ ModelPlatform.write_json member.2)
             members ++ rest)
        = Some (members, rest)).
Proof.
  induction fuel as [|fuel (IHj & IHi & IHm)].
  - split; [|split].
    + intros v rest H. destruct v as [|[]|[]| | |]; cbn in H; lia.
    + intros [|x l] rest H; cbn in H; lia.
    + intros [|x l] rest H; cbn in H; lia.
  - split; [|split].
    + intros v rest H. destruct v as [|[|]|[|p|p]|s|items|members];
        try reflexivity.
      * cbn. rewrite read_write_positive; [reflexivity|]. rewrite length_app. lia.
      * cbn. rewrite read_write_positive; [reflexivity|]. rewrite length_app. lia.
      * cbn. now rewrite read_write_string.
      * cbn [ModelPlatform.write_json] in *. cbn [length] in H.
        rewrite <- app_comm_cons.
        change (ModelPlatform.read_json (S fuel) ("007"%byte :: ?l))
          with ('(items, rest') ← ModelPlatform.read_items fuel l;
                Some (JArray items, rest')).
        rewrite IHi by lia. reflexivity.
      * cbn [ModelPlatform.write_json] in *. cbn [length] in H.
        rewrite <- app_comm_cons.
        change (ModelPlatform.read_json (S fuel) ("008"%byte :: ?l))
          with ('(members, rest') ← ModelPlatform.read_members fuel l;
                Some (JObject members, rest')).
        rewrite IHm by lia. reflexivity.
    + intros [|x l] rest H; [reflexivity|].
      rewrite write_list_cons in *. cbn [length] in H.
      rewrite length_app in H.
      rewrite <- app_comm_cons, <- app_assoc.
      change (ModelPlatform.read_items (S fuel) ("001"%byte :: ?b))
        with ('(x, rest1) ← ModelPlatform.read_json fuel b;
              '(xs, rest2) ← ModelPlatform.read_items fuel rest1;
              Some (x :: xs, rest2)).
      rewrite IHj by lia. cbn [mbind option_bind].
      rewrite IHi by lia. reflexivity.
    + intros [|[key x] l] rest H; [reflexivity|].
      rewrite write_list_cons in *. cbn [fst snd length] in H |- *.
      rewrite !length_app in H.
      rewrite <- app_comm_cons, <- !app_assoc.
      change (ModelPlatform.read_members (S fuel) ("001"%byte :: ?b))
        with ('(key, rest1) ← ModelPlatform.read_string b;
              '(x, rest2) ← ModelPlatform.read_json fuel rest1;
              '(xs, rest3) ← ModelPlatform.read_members fuel rest2;
              Some ((key, x) :: xs, rest3)).
      rewrite read_write_string. cbn [mbind option_bind].
      rewrite IHj by lia. cbn [mbind option_bind].
      rewrite IHm by lia. reflexivity.
Qed.

Lemma read_write_json (v : json) (rest : Buffer) :
  ModelPlatform.read_value (ModelPlatform.write_json v ++ rest) = Some (v, rest).
Proof.
  unfold ModelPlatform.read_value.
  apply (proj1 (read_write_json_fuel _)). rewrite length_app. lia.
Qed.

Lemma model_parse_stringify (d : SerializableData) :
  ModelPlatform.parse (ModelPlatform.stringify d) = Return d.
Proof.
  destruct d. unfold ModelPlatform.parse, ModelPlatform.parse_fields,
    ModelPlatform.stringify. cbn [sd_encryptedContent sd_iv sd_authTag
    sd_algorithm sd_fileName sd_originalSize sd_encryptedSize sd_timestamp].
  repeat (rewrite read_write_string || rewrite read_write_json; cbn [mbind option_bind]).
  rewrite <- (app_nil_r (ModelPlatform.write_json _)), read_write_json.
  reflexivity.
Qed.

Lemma model_platform_spec : PlatformSpec ModelPlatform.platform.
Proof.
  split.
  - exact model_decrypt_encrypt.
  - intros d _. exact (model_parse_stringify d).
Qed.

(** ** Envelope codec *)

#[local] Arguments list_byte_of_string : simpl never.
#[local] Arguments string_of_list_byte : simpl never.

Section Codec.
Context {P : Platform}.
Import EncryptionService.

(** What [decryptFromIPFS] hands to AES-256-GCM: the stored nonce, the
    stored name as associated data, the stored tag and the stored
    ciphertext, all as decoded, and nothing else of the document.  What
    the cipher releases is returned once [originalSize] has been converted
    to text for the log. *)
Lemma decryptFromIPFS_inputs (this : t) (blob : Buffer) (d : SerializableData) :
  JSON_parse blob = Return d ->
  decryptFromIPFS this blob
  = rethrow "Failed to decrypt file from IPFS: "
      (decrypted ←
         rethrow "Failed to decrypt file: "
           (decrypted ←
              aes_256_gcm_decrypt (secretKey this)
                (Base64.decode (sd_iv d))
                (list_byte_of_string (sd_fileName d))
                (Base64.decode (sd_authTag d))
                (Base64.decode (sd_encryptedContent d));
            _ ← js_String (sd_originalSize d);
            mret decrypted);
       mret {| content := decrypted;
               df_fileName := sd_fileName d;
               df_originalSize := sd_originalSize d;
               df_encryptedSize := sd_encryptedSize d;
               df_algorithm := sd_algorithm d;
               df_timestamp := sd_timestamp d |}).
Proof. intros Hparse. unfold decryptFromIPFS. now rewrite Hparse. Qed.

(** A rejected tag never yields content. *)
Lemma decryptFromIPFS_rejects (this : t) (blob : Buffer)
    (d : SerializableData) (reason : string) :
  JSON_parse blob = Return d ->
  aes_256_gcm_decrypt (secretKey this) (Base64.decode (sd_iv d))
    (list_byte_of_string (sd_fileName d)) (Base64.decode (sd_authTag d))
    (Base64.decode (sd_encryptedContent d)) = Throw reason ->
  decryptFromIPFS this blob
  = Throw ("Failed to decrypt file from IPFS: "
           ++ "Failed to decrypt file: " ++ reason).
Proof.
  intros Hparse Hcipher.
  rewrite (decryptFromIPFS_inputs this blob d Hparse), Hcipher. reflexivity.
Qed.

(** Content the cipher released is returned when [originalSize] converts
    to text, and lost with a [TypeError] when it does not. *)
Lemma decryptFromIPFS_released (this : t) (blob : Buffer)
    (d : SerializableData) (plain : Buffer) :
  JSON_parse blob = Return d ->
  aes_256_gcm_decrypt (secretKey this) (Base64.decode (sd_iv d))
    (list_byte_of_string (sd_fileName d)) (Base64.decode (sd_authTag d))
    (Base64.decode (sd_encryptedContent d)) = Return plain ->
  decryptFromIPFS this blob
  = match js_String (sd_originalSize d) with
    | Return _ =>
        Return {| content := plain;
                  df_fileName := sd_fileName d;
                  df_originalSize := sd_originalSize d;
                  df_encryptedSize := sd_encryptedSize d;
                  df_algorithm := sd_algorithm d;
                  df_timestamp := sd_timestamp d |}
    | Throw message =>
        Throw ("Failed to decrypt file from IPFS: "
               ++ "Failed to decrypt file: " ++ message)
    end.
Proof.
  intros Hparse Hcipher.
  rewrite (decryptFromIPFS_inputs this blob d Hparse), Hcipher.
  cbn [mbind mret outcome_bind outcome_ret obind].
  now destruct (js_String (sd_originalSize d)).
Qed.

(** Returned content is content the cipher released for the decoded
    values. *)
Lemma decryptFromIPFS_Return (this : t) (blob : Buffer)
    (d : SerializableData) (r : DecryptedFile) :
  JSON_parse blob = Return d ->
  decryptFromIPFS this blob = Return r ->
  aes_256_gcm_decrypt (secretKey this) (Base64.decode (sd_iv d))
    (list_byte_of_string (sd_fileName d)) (Base64.decode (sd_authTag d))
    (Base64.decode (sd_encryptedContent d)) = Return (content r).
Proof.
  intros Hparse Hr.
  destruct (aes_256_gcm_decrypt (secretKey this) (Base64.decode (sd_iv d))
              (list_byte_of_string (sd_fileName d))
              (Base64.decode (sd_authTag d))
              (Base64.decode (sd_encryptedContent d))) as [plain|reason] eqn:Hc.
  - rewrite (decryptFromIPFS_released this blob d plain Hparse Hc) in Hr.
    destruct (js_String (sd_originalSize d)); [|discriminate].
    now injection Hr as <-.
  - rewrite (decryptFromIPFS_rejects this blob d reason Hparse Hc) in Hr.
    discriminate.
Qed.

(** What [encryptForIPFS] stores: the cipher's output for the content,
    under the nonce and with the name as associated data. *)
Lemma encryptForIPFS_Return (this : t) (nonce : Buffer) (now : Z)
    (p : Buffer) (n : string) (blob : Buffer) :
  encryptForIPFS this nonce now p n = Return blob ->
  exists ciphertext tag,
    aes_256_gcm_encrypt (secretKey this) nonce (list_byte_of_string n) p
    = Return (ciphertext, tag)
    /\ blob
       = JSON_stringify
           {| sd_encryptedContent := Base64.encode ciphertext;
              sd_iv := Base64.encode nonce;
              sd_authTag := Base64.encode tag;
              sd_algorithm := JString (algorithm this);
              sd_fileName := n;
              sd_originalSize := JNumber (Z.of_nat (length p));
              sd_encryptedSize := JNumber (Z.of_nat (length ciphertext));
              sd_timestamp := JNumber now |}.
Proof.
  intros Henc. unfold encryptForIPFS, encryptFile in Henc.
  destruct (aes_256_gcm_encrypt (secretKey this) nonce
              (list_byte_of_string n) p) as [[c tag]|e] eqn:Hseal;
    cbn in Henc; [|discriminate].
  injection Henc as <-. eauto.
Qed.

(** Whatever else a document carries, [decryptFromIPFS] returns the same
    content for the same nonce, name, tag and ciphertext.  In particular a
    change of the base64 text that decodes to the same bytes (the unused
    low bits of its last character) goes unnoticed. *)
Lemma decryptFromIPFS_same_cipher_inputs (this : t) (blob blob' : Buffer)
    (d d' : SerializableData) (r : DecryptedFile) (text : string) :
  JSON_parse blob = Return d ->
  JSON_parse blob' = Return d' ->
  cipher_inputs_of d' = cipher_inputs_of d ->
  js_String (sd_originalSize d') = Return text ->
  decryptFromIPFS this blob = Return r ->
  exists r', decryptFromIPFS this blob' = Return r' /\ content r' = content r.
Proof.
  intros Hd Hd' Hsame Htext Hr. unfold cipher_inputs_of in Hsame.
  injection Hsame as Hiv Hname Htag Hct.
  pose proof (decryptFromIPFS_Return this blob d r Hd Hr) as Hc.
  rewrite <- Hiv, <- Hname, <- Htag, <- Hct in Hc.
  rewrite (decryptFromIPFS_released this blob' d' _ Hd' Hc), Htext. eauto.
Qed.

Context {S : PlatformSpec P}.

(** Under the assumption that the cipher refuses single-bit changes of
    its inputs under the key ([rejects_single_bit_changes]), an envelope
    whose decoded nonce, tag or ciphertext, or whose name, differs in
    exactly one bit from what [encryptForIPFS] stored fails to decode. *)
Lemma single_bit_changes_detected (this : t) (nonce : Buffer) (now : Z)
    (p : Buffer) (n : string) (blob blob' : Buffer) (d d' : SerializableData) :
  rejects_single_bit_changes P (secretKey this) ->
  encryptForIPFS this nonce now p n = Return blob ->
  JSON_parse blob = Return d ->
  JSON_parse blob' = Return d' ->
  tampered (cipher_inputs_of d) (cipher_inputs_of d') ->
  exists reason,
    decryptFromIPFS this blob'
    = Throw ("Failed to decrypt file from IPFS: "
             ++ "Failed to decrypt file: " ++ reason).
Proof.
  intros Hcipher Henc Hd Hd' Htampered.
  unfold encryptForIPFS, encryptFile in Henc.
  destruct (aes_256_gcm_encrypt (secretKey this) nonce
              (list_byte_of_string n) p) as [[c tag]|e] eqn:Hseal;
    cbn in Henc; [|discriminate].
  injection Henc as <-. rewrite JSON_parse_stringify in Hd by reflexivity.
  injection Hd as <-.
  unfold cipher_inputs_of in Htampered at 1.
  cbn [sd_encryptedContent sd_iv sd_authTag sd_fileName encryptedContent iv
       authTag fileName] in Htampered.
  rewrite !decode_encode in Htampered.
  pose proof (Hcipher _ _ _ _ _ _ Hseal Htampered) as Hrej.
  unfold cipher_inputs_of in Hrej. destruct Hrej as [reason Hrej].
  eexists. exact (decryptFromIPFS_rejects this blob' d' reason Hd' Hrej).
Qed.

Lemma decryptFile_encryptFile (this : t) (nonce : Buffer) (now : Z)
    (p : Buffer) (n : string) :
  length (secretKey this) = 32%nat -> nonce <> [] ->
  exists e, encryptFile this nonce now p n = Return e
            /\ iv e = nonce /\ fileName e = n
            /\ ed_algorithm e = JString (algorithm this)
            /\ originalSize e = JNumber (Z.of_nat (length p))
            /\ encryptedSize e = JNumber (Z.of_nat (length (encryptedContent e)))
            /\ timestamp e = JNumber now
            /\ decryptFile this e = Return p.
Proof.
  intros Hkey Hnonce.
  destruct (gcm_decrypt_encrypt (secretKey this) nonce
              (list_byte_of_string n) p Hkey Hnonce) as (c & tag & He & Hd).
  unfold encryptFile. rewrite He. cbn.
  eexists. split; [reflexivity|].
  unfold decryptFile. cbn. rewrite Hd. cbn. auto 10.
Qed.

(** The envelope [encryptForIPFS] makes, and what the cipher does with
    its decoded values. *)
Lemma encryptForIPFS_decodes (this : t) (nonce : Buffer) (now : Z)
    (p : Buffer) (n : string) (blob : Buffer) (d : SerializableData) :
  length (secretKey this) = 32%nat -> nonce <> [] ->
  encryptForIPFS this nonce now p n = Return blob ->
  JSON_parse blob = Return d ->
  aes_256_gcm_decrypt (secretKey this) (Base64.decode (sd_iv d))
    (list_byte_of_string (sd_fileName d)) (Base64.decode (sd_authTag d))
    (Base64.decode (sd_encryptedContent d)) = Return p
  /\ sd_fileName d = n
  /\ sd_algorithm d = JString (algorithm this)
  /\ sd_originalSize d = JNumber (Z.of_nat (length p))
  /\ sd_timestamp d = JNumber now.
Proof.
  intros Hkey Hnonce Henc Hd.
  destruct (encryptForIPFS_Return this nonce now p n blob Henc)
    as (c & tag & Hseal & ->).
  rewrite JSON_parse_stringify in Hd by reflexivity. injection Hd as <-.
  cbn [sd_encryptedContent sd_iv sd_authTag sd_algorithm sd_fileName
       sd_originalSize sd_encryptedSize sd_timestamp].
  rewrite !decode_encode.
  destruct (gcm_decrypt_encrypt (secretKey this) nonce
              (list_byte_of_string n) p Hkey Hnonce) as (c' & tag' & He & Hdec).
  rewrite Hseal in He. injection He as <- <-. auto.
Qed.

(** C3.  Under the configured 32-byte key, with the 16-byte nonce
    [encryptFile] draws, decoding what [encryptForIPFS] produced for
    content [p] and non-empty name [n] succeeds and returns content [p]
    and name [n] (together with the recorded size, algorithm and time). *)
Theorem decryptFromIPFS_encryptForIPFS (this : t) (nonce : Buffer) (now : Z)
    (p : Buffer) (n : string) :
  length (secretKey this) = 32%nat ->
  length nonce = 16%nat ->
  n <> "" ->
  exists blob r,
    encryptForIPFS this nonce now p n = Return blob
    /\ decryptFromIPFS this blob = Return r
    /\ content r = p
    /\ df_fileName r = n
    /\ df_originalSize r = JNumber (Z.of_nat (length p))
    /\ df_algorithm r = JString (algorithm this)
    /\ df_timestamp r = JNumber now.
Proof.
  intros Hkey Hnonce _.
  assert (Hne : nonce <> []) by (intros ->; discriminate).
  destruct (decryptFile_encryptFile this nonce now p n Hkey Hne)
    as (e & He & Hiv & Hname & Halg & Hsize & Hesize & Hts & Hdec).
  assert (Henc : encryptForIPFS this nonce now p n
                 = Return (JSON_stringify
                             {| sd_encryptedContent := Base64.encode (encryptedContent e);
                                sd_iv := Base64.encode (iv e);
                                sd_authTag := Base64.encode (authTag e);
                                sd_algorithm := ed_algorithm e;
                                sd_fileName := fileName e;
                                sd_originalSize := originalSize e;
                                sd_encryptedSize := encryptedSize e;
                                sd_timestamp := timestamp e |}))
    by (unfold encryptForIPFS; now rewrite He).
  assert (Hparse := JSON_parse_stringify
                      {| sd_encryptedContent := Base64.encode (encryptedContent e);
                         sd_iv := Base64.encode (iv e);
                         sd_authTag := Base64.encode (authTag e);
                         sd_algorithm := ed_algorithm e;
                         sd_fileName := fileName e;
                         sd_originalSize := originalSize e;
                         sd_encryptedSize := encryptedSize e;
                         sd_timestamp := timestamp e |}
                      ltac:(unfold plain_document;
                            cbn [sd_algorithm sd_originalSize sd_encryptedSize
                                 sd_timestamp];
                            now rewrite Halg, Hsize, Hesize, Hts)).
  destruct (encryptForIPFS_decodes this nonce now p n _ _ Hkey Hne Henc
              Hparse) as (Hc & _).
  eexists _, _. split; [exact Henc|].
  rewrite (decryptFromIPFS_released _ _ _ _ Hparse Hc).
  cbn [sd_encryptedContent sd_iv sd_authTag sd_algorithm sd_fileName
       sd_originalSize sd_encryptedSize sd_timestamp].
  rewrite Hsize. cbn [js_String]. auto 10.
Qed.


(** C10, amended.  The document fields [algorithm], [originalSize] and
    [timestamp] are not covered by the tag, but [originalSize] is
    converted to text for a log line while decoding.  Take the envelope
    [encryptForIPFS] produced for content [p] and name [n], and replace
    the three fields by any values.  If the replacement for [originalSize]
    converts to text, decoding succeeds, returns [p] and [n] and reports
    the three replacement values; if it does not (an object with a member
    of its own called [toString], or an array holding one), decoding fails
    with the [TypeError] although the tag verified. *)
Theorem metadata_not_authenticated (this : t) (nonce : Buffer) (now : Z)
    (p : Buffer) (n : string) (blob blob' : Buffer) (d : SerializableData)
    (alg size ts : json) :
  length (secretKey this) = 32%nat ->
  length nonce = 16%nat ->
  encryptForIPFS this nonce now p n = Return blob ->
  JSON_parse blob = Return d ->
  JSON_parse blob'
  = Return {| sd_encryptedContent := sd_encryptedContent d;
              sd_iv := sd_iv d;
              sd_authTag := sd_authTag d;
              sd_algorithm := alg;
              sd_fileName := sd_fileName d;
              sd_originalSize := size;
              sd_encryptedSize := sd_encryptedSize d;
              sd_timestamp := ts |} ->
  decryptFromIPFS this blob'
  = match js_String size with
    | Return _ =>
        Return {| content := p;
                  df_fileName := n;
                  df_originalSize := size;
                  df_encryptedSize := sd_encryptedSize d;
                  df_algorithm := alg;
                  df_timestamp := ts |}
    | Throw message =>
        Throw ("Failed to decrypt file from IPFS: "
               ++ "Failed to decrypt file: " ++ message)
    end.
Proof.
  intros Hkey Hnonce Henc Hd Hd'.
  assert (Hne : nonce <> []) by (intros ->; discriminate).
  destruct (encryptForIPFS_decodes this nonce now p n blob d Hkey Hne Henc Hd)
    as (Hc & Hname & _).
  rewrite (decryptFromIPFS_released this blob' _ p Hd' Hc).
  cbn [sd_originalSize sd_fileName sd_encryptedSize sd_algorithm sd_timestamp].
  now rewrite Hname.
Qed.

End Codec.

(** ** The ledger contract *)


(** Run the guards of a contract entry point: unfold it and split on every
    condition it tests. *)
Ltac guards :=
  unfold CertificateManager.transact, CertificateManager.execute,
    CertificateManager.issueCertificate, CertificateManager.updateCertificate,
    CertificateManager.verifyCertificate, CertificateManager.deleteCertificate,
    CertificateManager.getCertificate, CertificateManager.certificateExists,
    CertificateManager.onlyIssuer, CertificateManager.certificateActive,
    CertificateManager.require;
  cbn [fst snd mbind mret outcome_bind outcome_ret obind];
  repeat match goal with
    | |- context [if ?b then _ else _] =>
        destruct b eqn:?;
        cbn [fst snd mbind mret outcome_bind outcome_ret obind negb]
    end.

Ltac guards_in H :=
  unfold CertificateManager.transact, CertificateManager.execute,
    CertificateManager.issueCertificate, CertificateManager.updateCertificate,
    CertificateManager.verifyCertificate, CertificateManager.deleteCertificate,
    CertificateManager.getCertificate, CertificateManager.certificateExists,
    CertificateManager.onlyIssuer, CertificateManager.certificateActive,
    CertificateManager.require in H;
  cbn [fst snd mbind mret outcome_bind outcome_ret obind] in H;
  repeat match type of H with
    | context [if ?b then _ else _] =>
        destruct b eqn:?;
        cbn [fst snd mbind mret outcome_bind outcome_ret obind negb] in H
    end.

Section Ledger.
Import CertificateManager.

Lemma require_true (cond : bool) (reason : string) :
  cond = true -> require cond reason = Return tt.
Proof. now intros ->. Qed.

Lemma certificate_at_insert (st : gmap string Certificate) (byEmail : gmap string (list string))
    (fids : list string) (f g : string) (c : Certificate) :
  certificate_at {| certificates := <[f := c]> st;
                    certificatesByEmail := byEmail; allFIDs := fids |} g
  = if decide (f = g) then c
    else certificate_at {| certificates := st;
                           certificatesByEmail := byEmail; allFIDs := fids |} g.
Proof.
  unfold certificate_at. cbn. rewrite lookup_insert.
  now destruct (decide (f = g)).
Qed.

Example scenario_issue_then_read :
  getCertificate LedgerExamples.issued "f1"
  = Return {| fid := "f1"; cid := "QmA"; email := "a@x.com";
              issueDate := 100; lastModified := 100; issuer := 1%N;
              isActive := true |}.
Proof. vm_compute. reflexivity. Qed.

Example scenario_issue_then_verify :
  verifyCertificate LedgerExamples.issued LedgerExamples.other2 "f1" "a@x.com"
  = Return (true, [CertificateVerified "f1" "a@x.com" true 2%N])
  /\ verifyCertificate LedgerExamples.issued LedgerExamples.other2 "f1" "b@x.com"
     = Return (false, [CertificateVerified "f1" "b@x.com" false 2%N]).
Proof. split; vm_compute; reflexivity. Qed.

(** C6 as stated fails on a create call whose [cid] is empty: the
    existing fid "f1" is submitted again, and the contract answers
    "CID cannot be empty", not the duplicate error. *)
Lemma create_existing_fid_empty_cid :
  nonempty (fid (certificate_at LedgerExamples.issued "f1")) = true
  /\ transact LedgerExamples.issued
       (LedgerExamples.other2, IssueCertificate "f1" "" "a@x.com")
     = (LedgerExamples.issued, Throw "CID cannot be empty")
  /\ "CID cannot be empty" <> "Certificate with this FID already exists".
Proof. split; [|split]; [vm_compute; reflexivity .. | discriminate]. Qed.

(** C6, amended.  In a ledger state holding a record for [f] (active or
    not), a create call with fid [f] always fails and leaves the whole
    storage as it was; the failure is the duplicate error whenever fid,
    cid and email are all non-empty, and otherwise the error of the first
    empty argument. *)
Theorem create_existing_fid_rejected (st : Storage) (msg : Msg) (f c e : string) :
  nonempty (fid (certificate_at st f)) = true ->
  transact st (msg, IssueCertificate f c e)
  = (st, Throw (if negb (nonempty f) then "FID cannot be empty"
                else if negb (nonempty c) then "CID cannot be empty"
                else if negb (nonempty e) then "Email cannot be empty"
                else "Certificate with this FID already exists")).
Proof. intros Hex. guards; try congruence. rewrite Hex in *. discriminate. Qed.

(** C7.  For an existing record, [updateCertificate] and
    [deleteCertificate] sent by any address other than the stored issuer
    fail with "Only issuer can modify certificate" and leave the storage
    as it was. *)
Theorem issuer_only_mutation (st : Storage) (msg : Msg) (f newCid : string) :
  nonempty (fid (certificate_at st f)) = true ->
  sender msg <> issuer (certificate_at st f) ->
  transact st (msg, UpdateCertificate f newCid)
  = (st, Throw "Only issuer can modify certificate")
  /\ transact st (msg, DeleteCertificate f)
     = (st, Throw "Only issuer can modify certificate").
Proof.
  intros Hex Hne.
  assert ((issuer (certificate_at st f) =? sender msg)%N = false)
    by (apply N.eqb_neq; congruence).
  split; guards; congruence.
Qed.

(** C9.  A successful [updateCertificate] rewrites the record of [f] to
    the same record with the new cid and the block time as
    [lastModified]; fid, email, issue date, issuer and the active flag
    are kept, every other record, the email index and the fid list are
    untouched, and [getCertificate] then returns the new cid with the
    original email. *)
Theorem update_changes_pointer_only (st st' : Storage) (msg : Msg)
    (f newCid : string) (events : list Event) :
  updateCertificate st msg f newCid = Return (st', events) ->
  let old := certificate_at st f in
  isActive old = true
  /\ getCertificate st' f
     = Return {| fid := fid old; cid := newCid; email := email old;
                 issueDate := issueDate old;
                 lastModified := timestamp msg;
                 issuer := issuer old; isActive := true |}
  /\ (forall g, g <> f -> certificate_at st' g = certificate_at st g)
  /\ certificatesByEmail st' = certificatesByEmail st
  /\ allFIDs st' = allFIDs st.
Proof.
  intros Hup old. subst old. guards_in Hup; try discriminate.
  injection Hup as <- _.
  destruct st as [certs byEmail fids]. cbn [certificatesByEmail allFIDs].
  unfold getCertificate, certificateExists.
  rewrite certificate_at_insert.
  destruct (decide (f = f)) as [_|]; [|congruence].
  cbn [fid]. rewrite require_true by assumption.
  repeat match goal with H : isActive _ = true |- _ => rewrite H end.
  repeat split; try reflexivity.
  intros g Hg. rewrite certificate_at_insert.
  destruct (decide (f = g)); [congruence | reflexivity].
Qed.

(** A call that meets the four guards does succeed. *)
Lemma updateCertificate_succeeds (st : Storage) (msg : Msg) (f newCid : string) :
  nonempty (fid (certificate_at st f)) = true ->
  issuer (certificate_at st f) = sender msg ->
  isActive (certificate_at st f) = true ->
  nonempty newCid = true ->
  exists st', updateCertificate st msg f newCid
              = Return (st', [CertificateUpdated f newCid (timestamp msg) (sender msg)]).
Proof.
  intros Hex Hiss Hact Hcid. apply N.eqb_eq in Hiss.
  guards; try congruence. eauto.
Qed.

Lemma create_existing_fid_rejected_witness :
  nonempty (fid (certificate_at LedgerExamples.issued "f1")) = true
  /\ transact LedgerExamples.issued
       (LedgerExamples.other2, IssueCertificate "f1" "QmB" "b@x.com")
     = (LedgerExamples.issued, Throw "Certificate with this FID already exists").
Proof.
  split; [vm_compute; reflexivity|].
  apply (create_existing_fid_rejected LedgerExamples.issued
           LedgerExamples.other2 "f1" "QmB" "b@x.com").
  vm_compute; reflexivity.
Defined.

Lemma issuer_only_mutation_witness :
  transact LedgerExamples.issued
    (LedgerExamples.other2, UpdateCertificate "f1" "QmB")
  = (LedgerExamples.issued, Throw "Only issuer can modify certificate")
  /\ transact LedgerExamples.issued
       (LedgerExamples.other2, DeleteCertificate "f1")
     = (LedgerExamples.issued, Throw "Only issuer can modify certificate").
Proof.
  apply (issuer_only_mutation LedgerExamples.issued LedgerExamples.other2
           "f1" "QmB").
  - vm_compute; reflexivity.
  - vm_compute; discriminate.
Defined.

(** The scenario [create("f1","QmA","a@x.com")],
    [updatePointer("f1","QmB", issuer)]. *)
Lemma update_changes_pointer_only_witness :
  exists st',
    updateCertificate LedgerExamples.issued
      {| sender := 1%N; timestamp := 130 |} "f1" "QmB"
    = Return (st', [CertificateUpdated "f1" "QmB" 130 1%N])
    /\ getCertificate st' "f1"
       = Return {| fid := "f1"; cid := "QmB"; email := "a@x.com";
                   issueDate := 100; lastModified := 130; issuer := 1%N;
                   isActive := true |}.
Proof.
  eexists. split; [vm_compute; reflexivity|].
  refine (proj1 (proj2 (update_changes_pointer_only LedgerExamples.issued _
                          {| sender := 1%N; timestamp := 130 |} "f1" "QmB" _ _))).
  vm_compute; reflexivity.
Defined.

Lemma deleteCertificate_by_issuer (st : Storage) (msg : Msg) (f : string) :
  nonempty (fid (certificate_at st f)) = true ->
  issuer (certificate_at st f) = sender msg ->
  let old := certificate_at st f in
  transact st (msg, DeleteCertificate f)
  = ({| certificates :=
          <[f := {| fid := fid old; cid := cid old; email := email old;
                    issueDate := issueDate old;
                    lastModified := lastModified old;
                    issuer := issuer old; isActive := false |}]>
            (certificates st);
        certificatesByEmail := certificatesByEmail st;
        allFIDs := allFIDs st |},
     Return [CertificateDeleted f (sender msg)]).
Proof.
  intros Hex Hiss old. apply N.eqb_eq in Hiss.
  guards; try congruence. reflexivity.
Qed.

(** *** Records are keyed by their fid *)

Lemma well_keyed_empty : well_keyed empty_storage.
Proof. intros f. left. reflexivity. Qed.

Lemma transact_well_keyed (st : Storage) (tx : Msg * Call) :
  well_keyed st -> well_keyed (transact st tx).1.
Proof.
  intros Hwk g. destruct tx as [msg [f c e|f newCid|f e|f]];
    destruct st as [certs byEmail fids]; guards; try apply Hwk;
    rewrite certificate_at_insert; destruct (decide (f = g)) as [->|];
    try apply Hwk; cbn [fid]; auto.
Qed.

Lemma run_well_keyed (txs : list (Msg * Call)) :
  forall st, well_keyed st -> well_keyed (run st txs).
Proof.
  induction txs as [|tx txs IH]; intros st Hwk; [exact Hwk|].
  unfold run in *. cbn [foldl]. apply IH, transact_well_keyed, Hwk.
Qed.

(** In a ledger grown from the empty one, a record that exists has the
    fid it is stored under, which is therefore not empty. *)
Lemma existing_record_fid (txs : list (Msg * Call)) (f : string) :
  let st := run empty_storage txs in
  nonempty (fid (certificate_at st f)) = true ->
  fid (certificate_at st f) = f /\ nonempty f = true.
Proof.
  intros st Hex.
  destruct (run_well_keyed txs empty_storage well_keyed_empty f) as [H|H];
    fold st in H.
  - rewrite H in Hex. discriminate.
  - split; [exact H|]. now rewrite <- H.
Qed.

(** *** Deactivation is terminal *)

Lemma transact_keeps_inactive (st : Storage) (tx : Msg * Call) (f : string) :
  nonempty (fid (certificate_at st f)) = true ->
  isActive (certificate_at st f) = false ->
  certificate_at (transact st tx).1 f = certificate_at st f.
Proof.
  intros Hex Hin. destruct tx as [msg [g c e|g newCid|g e|g]];
    destruct st as [certs byEmail fids]; guards; try reflexivity;
    rewrite certificate_at_insert; destruct (decide (g = f)) as [->|];
    try reflexivity; try congruence.
  - rewrite Hex in *. discriminate.
  - destruct (certificate_at _ f). cbn in *. congruence.
Qed.

Lemma run_keeps_inactive (txs : list (Msg * Call)) :
  forall (st : Storage) (f : string),
    nonempty (fid (certificate_at st f)) = true ->
    isActive (certificate_at st f) = false ->
    certificate_at (run st txs) f = certificate_at st f.
Proof.
  induction txs as [|tx txs IH]; intros st f Hex Hin; [reflexivity|].
  pose proof (transact_keeps_inactive st tx f Hex Hin) as Hstep.
  unfold run in *. cbn [foldl]. rewrite IH; rewrite ?Hstep; auto.
Qed.

(** C5 as stated fails for a caller other than the issuer: after the
    issuer deactivated "f1", an update sent by address 2 is refused with
    the authorization error, not the inactive error. *)
Lemma update_after_deactivate_by_other :
  deleteCertificate LedgerExamples.issued
    {| sender := 1%N; timestamp := 150 |} "f1"
  = Return (LedgerExamples.deleted, [CertificateDeleted "f1" 1%N])
  /\ transact LedgerExamples.deleted
       (LedgerExamples.other2, UpdateCertificate "f1" "QmB")
     = (LedgerExamples.deleted, Throw "Only issuer can modify certificate")
  /\ "Only issuer can modify certificate" <> "Certificate is not active".
Proof. split; [|split]; [vm_compute; reflexivity .. | discriminate]. Qed.

(** C5, amended.  Once [deleteCertificate] has succeeded on [f], then
    after any further transactions every [updateCertificate] on [f]
    fails and leaves the storage as it was -- with "Certificate is not
    active" when sent by the issuer, with "Only issuer can modify
    certificate" otherwise -- and [getCertificate] still succeeds,
    returning the record as it was at deactivation: the last cid and
    [isActive = false]. *)
Theorem deactivation_is_terminal (st st1 : Storage) (msg : Msg) (f : string)
    (events : list Event) (txs : list (Msg * Call)) :
  deleteCertificate st msg f = Return (st1, events) ->
  let st2 := run st1 txs in
  let last := certificate_at st f in
  (forall msg' newCid,
      transact st2 (msg', UpdateCertificate f newCid)
      = (st2, Throw (if (issuer last =? sender msg')%N
                     then "Certificate is not active"
                     else "Only issuer can modify certificate")))
  /\ getCertificate st2 f
     = Return {| fid := fid last; cid := cid last; email := email last;
                 issueDate := issueDate last;
                 lastModified := lastModified last;
                 issuer := issuer last; isActive := false |}.
Proof.
  intros Hdel st2 last.
  assert (Hst1 : certificate_at st1 f
                 = {| fid := fid last; cid := cid last; email := email last;
                      issueDate := issueDate last;
                      lastModified := lastModified last;
                      issuer := issuer last; isActive := false |}
                 /\ nonempty (fid last) = true).
  { subst last. guards_in Hdel; try discriminate. injection Hdel as <- _.
    destruct st as [certs byEmail fids]. rewrite certificate_at_insert.
    destruct (decide (f = f)); [auto | congruence]. }
  destruct Hst1 as [Hst1 Hex].
  assert (Hst2 : certificate_at st2 f = certificate_at st1 f).
  { apply run_keeps_inactive; rewrite Hst1; [exact Hex | reflexivity]. }
  rewrite Hst1 in Hst2. split.
  - intros msg' newCid. guards; rewrite Hst2 in *; cbn in *; congruence.
  - unfold getCertificate, certificateExists. rewrite Hst2. cbn [fid].
    now rewrite require_true.
Qed.

Lemma deactivation_is_terminal_witness :
  getCertificate
    (run LedgerExamples.deleted
       [(LedgerExamples.issuer1, UpdateCertificate "f1" "QmB");
        (LedgerExamples.other2, IssueCertificate "f1" "QmC" "c@x.com");
        (LedgerExamples.other2, IssueCertificate "f2" "QmD" "d@x.com")]) "f1"
  = Return {| fid := "f1"; cid := "QmA"; email := "a@x.com";
              issueDate := 100; lastModified := 100; issuer := 1%N;
              isActive := false |}.
Proof.
  refine (proj2 (deactivation_is_terminal LedgerExamples.issued
                   LedgerExamples.deleted
                   {| sender := 1%N; timestamp := 150 |} "f1"
                   [CertificateDeleted "f1" 1%N] _ _)).
  vm_compute; reflexivity.
Defined.

End Ledger.

(** ** The lifecycle controller *)


Section Controller.
Import CertificateManager CertificateController.

Example download_matching_address :
  exists hdrs w',
    downloadCertificate (P := ModelPlatform.platform)
      WorldExamples.controller "f1" "QmA" (WorldExamples.world true)
    = (Return {| status := 200; headers := hdrs;
                 body := FileBody WorldExamples.plaintext |}, w')
    /\ requests w' = [EthGetCertificate "f1"; IpfsCat "QmA"]
    /\ hdrs !! 0%nat = Some ("Content-Type", "text/plain")
    /\ hdrs !! 6%nat = Some ("X-Vault-Original-Size", "11").
Proof. eexists _, _. vm_compute. repeat split; reflexivity. Qed.

(** Step through an [async] body. *)
Ltac async :=
  unfold mbind, mret, Async_bind, Async_ret, try_catch, throw, lift;
  cbn [fst snd requests chain ipfsOnline ipfsPins ipfsBlobs blockTime
       nonce sent].

Lemma getCertificate_loaded (bs : BlockchainService.t) (f : string) (w : World) :
  BlockchainService.contractLoaded bs = true ->
  BlockchainService.getCertificate bs f w
  = (rethrow "Failed to get certificate: "
       (CertificateManager.getCertificate (chain w) f),
     sent (EthGetCertificate f) w).
Proof.
  intros Hloaded.
  unfold BlockchainService.getCertificate, BlockchainService.checkContract,
    BlockchainService.call_getCertificate.
  rewrite Hloaded. async.
  now destruct (CertificateManager.getCertificate (chain w) f).
Qed.

Context {P : Platform}.

(** C8.  For an active record, a download request that names the fid
    and an address different from the record's cid is answered with
    status 400 "CID does not match certificate"; the only request sent
    is the ledger read, so nothing is fetched from the content store. *)
Theorem download_address_mismatch (this : CertificateController.t) (w : World)
    (f c' : string) (cert : Certificate) :
  BlockchainService.contractLoaded (blockchainService this) = true ->
  CertificateManager.getCertificate (chain w) f = Return cert ->
  isActive cert = true ->
  f <> "" -> c' <> "" -> c' <> cid cert ->
  downloadCertificate this f c' w
  = (Return (json_response 400 false "CID does not match certificate"
               None None),
     sent (EthGetCertificate f) w)
  /\ requests (sent (EthGetCertificate f) w)
     = requests w ++ [EthGetCertificate f].
Proof.
  intros Hloaded Hget Hactive Hf Hc Hne. split; [|reflexivity].
  unfold downloadCertificate.
  apply String.eqb_neq in Hf, Hc. rewrite Hf, Hc. cbn [orb].
  async. rewrite (getCertificate_loaded _ _ _ Hloaded), Hget.
  cbn [rethrow]. rewrite Hactive. cbn [negb].
  assert (String.eqb (cid cert) c' = false) as ->
    by (apply String.eqb_neq; congruence).
  reflexivity.
Qed.

(** *** Delete *)

Lemma removeFile_result (this : IPFSService.t) (c : string) (w : World) :
  IPFSService.removeFile this c w
  = let w1 := sent (IpfsPinRm c) w in
    if ipfsOnline w then
      if decide (c ∈ ipfsPins w) then
        (Return true,
         {| chain := chain w; blockTime := blockTime w; nonce := nonce w;
            ipfsOnline := ipfsOnline w; ipfsBlobs := ipfsBlobs w;
            ipfsPins := ipfsPins w ∖ {[c]}; requests := requests w1 |})
      else
        (Throw ("Failed to remove file from IPFS: "
                ++ "IPFS unpin failed: 500 Internal Server Error"), w1)
    else (Throw ("Failed to remove file from IPFS: " ++ "fetch failed"), w1).
Proof.
  unfold IPFSService.removeFile, IPFSService.fetch_pin_rm. async.
  destruct (ipfsOnline w); [|reflexivity].
  destruct (decide (c ∈ ipfsPins w)); reflexivity.
Qed.

Lemma deleteCertificate_loaded (bs : BlockchainService.t) (f : string) (w : World) :
  BlockchainService.contractLoaded bs = true ->
  let msg := {| sender := BlockchainService.account bs;
                timestamp := blockTime w |} in
  BlockchainService.deleteCertificate bs f w
  = (match (transact (chain w) (msg, DeleteCertificate f)).2 with
     | Return evs =>
         Return {| BlockchainService.transactionHash := nonce w;
                   BlockchainService.events := evs;
                   BlockchainService.isPrivate := false |}
     | Throw e => Throw ("Failed to delete certificate: " ++ e)
     end,
     {| chain := (transact (chain w) (msg, DeleteCertificate f)).1;
        blockTime := blockTime w; nonce := N.succ (nonce w);
        ipfsOnline := ipfsOnline w; ipfsBlobs := ipfsBlobs w;
        ipfsPins := ipfsPins w;
        requests := requests w ++ [EthSendTransaction (DeleteCertificate f)] |}).
Proof.
  intros Hloaded msg.
  unfold BlockchainService.deleteCertificate, BlockchainService.checkContract,
    BlockchainService.sendSignedTransaction.
  rewrite Hloaded. async. fold msg.
  destruct (transact (chain w) (msg, DeleteCertificate f)) as [st' [evs|e]];
    reflexivity.
Qed.



(** *** Verify *)

(** C4 as stated fails: for the deactivated record "f1" the contract's
    verify operation reverts with "Certificate is not active", and the
    service method wrapping it throws, instead of returning false. *)
Lemma verify_inactive_reverts :
  nonempty (fid (certificate_at LedgerExamples.deleted "f1")) = true
  /\ isActive (certificate_at LedgerExamples.deleted "f1") = false
  /\ CertificateManager.verifyCertificate LedgerExamples.deleted
       LedgerExamples.other2 "f1" "a@x.com"
     = Throw "Certificate is not active"
  /\ (exists message,
        (BlockchainService.verifyCertificate
           (blockchainService WorldExamples.controller) "f1" "a@x.com"
           WorldExamples.world_deleted).1
        = Throw message).
Proof.
  repeat split; try (vm_compute; reflexivity).
  eexists. vm_compute. reflexivity.
Qed.

(** C4, amended.  For a record that exists with [isActive = false], the
    contract's verify operation fails with the error "Certificate is not
    active" for every candidate email.  The negative, non-error result
    for the inactive case comes from the Verify handler: it reads the
    record, finds it inactive and answers [isValid = false] with reason
    "Certificate is not active", without calling the contract's verify. *)
Theorem verify_inactive_record (this : CertificateController.t) (w : World)
    (b : VerifyBody) (f e : string) (msg : Msg) :
  nonempty (fid (certificate_at (chain w) f)) = true ->
  isActive (certificate_at (chain w) f) = false ->
  CertificateManager.verifyCertificate (chain w) msg f e
  = Throw "Certificate is not active"
  /\ (BlockchainService.contractLoaded (blockchainService this) = true ->
      validate_verify b = Return (f, e) ->
      CertificateController.verifyCertificate this b w
      = (Return (json_response 200 false "Certificate verification failed"
                   None
                   (Some (VerifyData f e false
                            (Some "Certificate is not active") None))),
         sent (EthGetCertificate f) w)).
Proof.
  intros Hex Hin. split.
  - guards; congruence.
  - intros Hloaded Hval.
    unfold CertificateController.verifyCertificate. rewrite Hval. async.
    rewrite (getCertificate_loaded _ _ _ Hloaded).
    unfold CertificateManager.getCertificate, certificateExists.
    rewrite require_true by exact Hex.
    cbn [mbind mret outcome_bind outcome_ret obind rethrow].
    now rewrite Hin.
Qed.

End Controller.

(** ** The theorems at concrete inputs *)

Section Witnesses.
Import CertificateManager CertificateController.

Lemma download_address_mismatch_witness :
  downloadCertificate (P := ModelPlatform.platform)
    WorldExamples.controller "f1" "QmB" (WorldExamples.world true)
  = (Return (json_response 400 false "CID does not match certificate"
               None None),
     sent (EthGetCertificate "f1") (WorldExamples.world true))
  /\ requests (sent (EthGetCertificate "f1") (WorldExamples.world true))
     = [EthGetCertificate "f1"].
Proof.
  apply (download_address_mismatch (P := ModelPlatform.platform)
           WorldExamples.controller (WorldExamples.world true) "f1" "QmB"
           {| fid := "f1"; cid := "QmA"; email := "a@x.com";
              issueDate := 100; lastModified := 100; issuer := 1%N;
              isActive := true |});
    solve [vm_compute; reflexivity | discriminate].
Defined.


Lemma verify_inactive_record_witness :
  CertificateController.verifyCertificate (P := ModelPlatform.platform)
    WorldExamples.controller
    {| body_fid := Some "f1"; body_email := Some "a@x.com" |}
    WorldExamples.world_deleted
  = (Return (json_response 200 false "Certificate verification failed" None
               (Some (VerifyData "f1" "a@x.com" false
                        (Some "Certificate is not active") None))),
     sent (EthGetCertificate "f1") WorldExamples.world_deleted).
Proof.
  refine (proj2 (verify_inactive_record (P := ModelPlatform.platform)
                   WorldExamples.controller WorldExamples.world_deleted
                   {| body_fid := Some "f1"; body_email := Some "a@x.com" |}
                   "f1" "a@x.com" LedgerExamples.other2 _ _) _ _);
    vm_compute; reflexivity.
Defined.

Lemma decryptFromIPFS_encryptForIPFS_witness :
  exists blob r,
    EncryptionService.encryptForIPFS (P := ModelPlatform.platform)
      WorldExamples.encryption (replicate 16 "042"%byte) 1700000000000
      WorldExamples.plaintext "note.txt" = Return blob
    /\ EncryptionService.decryptFromIPFS (P := ModelPlatform.platform)
         WorldExamples.encryption blob
       = Return r
    /\ EncryptionService.content r = WorldExamples.plaintext
    /\ EncryptionService.df_fileName r = "note.txt"
    /\ EncryptionService.df_originalSize r = JNumber 11
    /\ EncryptionService.df_algorithm r = JString "aes-256-gcm"
    /\ EncryptionService.df_timestamp r = JNumber 1700000000000.
Proof.
  apply (decryptFromIPFS_encryptForIPFS (P := ModelPlatform.platform)
           (S := model_platform_spec) WorldExamples.encryption
           (replicate 16 "042"%byte) 1700000000000
           WorldExamples.plaintext "note.txt");
    [reflexivity | reflexivity | discriminate].
Defined.

(** The stored envelope of "f1" with its three metadata fields replaced. *)
Lemma metadata_not_authenticated_witness :
  EncryptionService.decryptFromIPFS (P := ModelPlatform.platform)
    WorldExamples.encryption
    (ModelPlatform.stringify WorldExamples.replaced_document)
  = Return {| EncryptionService.content := WorldExamples.plaintext;
              EncryptionService.df_fileName := "note.txt";
              EncryptionService.df_originalSize := JArray [JNumber 0; JNull];
              EncryptionService.df_encryptedSize := JNumber 11;
              EncryptionService.df_algorithm := JString "none";
              EncryptionService.df_timestamp := JObject [("at", JNull)] |}.
Proof.
  refine (metadata_not_authenticated (P := ModelPlatform.platform)
            (S := model_platform_spec) WorldExamples.encryption
            (replicate 16 "042"%byte) 1700000000000
            WorldExamples.plaintext "note.txt" WorldExamples.blob
            (ModelPlatform.stringify WorldExamples.replaced_document)
            WorldExamples.document
            (JString "none") (JArray [JNumber 0; JNull])
            (JObject [("at", JNull)]) _ _ _ _ _);
    vm_compute; reflexivity.
Defined.

(** C10 as stated fails for a replacement value that does not convert
    to text: with [originalSize] replaced by [{"toString": 1}] in the
    stored envelope of "f1", nothing the tag covers has changed, yet
    decoding fails. *)
Lemma metadata_object_size_rejected :
  EncryptionService.encryptForIPFS (P := ModelPlatform.platform)
    WorldExamples.encryption (replicate 16 "042"%byte) 1700000000000
    WorldExamples.plaintext "note.txt" = Return WorldExamples.blob
  /\ ModelPlatform.parse WorldExamples.blob = Return WorldExamples.document
  /\ EncryptionService.cipher_inputs_of WorldExamples.object_size_document
     = EncryptionService.cipher_inputs_of WorldExamples.document
  /\ sd_originalSize WorldExamples.object_size_document
     = JObject [("toString", JNumber 1)]
  /\ EncryptionService.decryptFromIPFS (P := ModelPlatform.platform)
       WorldExamples.encryption
       (ModelPlatform.stringify WorldExamples.object_size_document)
     = Throw "Failed to decrypt file from IPFS: Failed to decrypt file: Cannot convert object to primitive value".
Proof. repeat split; vm_compute; reflexivity. Qed.



End Witnesses.

(* ===================================================================== *)
(** * Part III: the rest of the services                                  *)
(* ===================================================================== *)

(** ** Key material *)

Lemma string_app_nil (x : string) : ("" ++ x)%string = x.
Proof. reflexivity. Qed.

Lemma string_app_cons (a : ascii) (s x : string) :
  (String a s ++ x)%string = String a (s ++ x).
Proof. reflexivity. Qed.

Lemma string_app_assoc (a b c : string) :
  ((a ++ b) ++ c)%string = (a ++ (b ++ c))%string.
Proof.
  induction a as [|x a IH]; [reflexivity|].
  rewrite !string_app_cons. now f_equal.
Qed.

Lemma unhex_hex_char (n : Hex.nibble) : Hex.unhex (Hex.hex_char n) = Some n.
Proof. destruct n as [[[[] []] []] []]; reflexivity. Qed.

Lemma hex_join_split (b : byte) :
  Hex.join (Hex.split b).1 (Hex.split b).2 = b.
Proof.
  unfold Hex.split, Hex.join.
  destruct (Byte.to_bits b) as (b0 & b1 & b2 & b3 & b4 & b5 & b6 & b7) eqn:E.
  cbn [fst snd]. rewrite <- E. apply Byte.of_bits_to_bits.
Qed.

Lemma hex_units_encode (bs : list byte) :
  Hex.decode_units (Hex.encode bs) = bs.
Proof.
  induction bs as [|b bs IH]; [reflexivity|].
  cbn [Hex.encode]. pose proof (hex_join_split b) as Hb.
  destruct (Hex.split b) as [hi lo]. cbn [fst snd] in Hb.
  cbn [Hex.decode_units]. now rewrite !unhex_hex_char, Hb, IH.
Qed.

(** A hexadecimal digit is an ASCII character. *)
Lemma unhex_ascii (c : ascii) (n : Hex.nibble) :
  Hex.unhex c = Some n -> (N_of_ascii c <? 128)%N = true.
Proof.
  unfold Hex.unhex.
  destruct (N.leb_spec 48 (N_of_ascii c)), (N.leb_spec (N_of_ascii c) 57),
    (N.leb_spec 97 (N_of_ascii c)), (N.leb_spec (N_of_ascii c) 102),
    (N.leb_spec 65 (N_of_ascii c)), (N.leb_spec (N_of_ascii c) 70);
    cbn; intros; try discriminate; apply N.ltb_lt; lia.
Qed.

Lemma ascii_starts_character (c : ascii) :
  (N_of_ascii c <? 128)%N = true ->
  starts_character c = true /\ (240 <=? N_of_ascii c)%N = false.
Proof.
  unfold starts_character. intros H%N.ltb_lt.
  destruct (N.leb_spec 128 (N_of_ascii c)), (N.leb_spec 240 (N_of_ascii c));
    cbn; split; try reflexivity; lia.
Qed.

Lemma all_hex_ascii (s : string) :
  Hex.all_hex s = true -> ascii_text s = true.
Proof.
  induction s as [|c s IH]; [reflexivity|]. cbn [Hex.all_hex ascii_text].
  destruct (Hex.unhex c) as [n|] eqn:Hc; [|discriminate]. intros Hs.
  now rewrite (unhex_ascii c n Hc), (IH Hs).
Qed.

Lemma ascii_js_length (s : string) :
  ascii_text s = true -> js_length s = String.length s.
Proof.
  induction s as [|c s IH]; [reflexivity|].
  cbn [ascii_text js_length String.length]. intros [Hc Hs]%andb_prop.
  destruct (ascii_starts_character c Hc) as [-> ->]. now rewrite (IH Hs).
Qed.

Lemma all_hex_encode (bs : list byte) : Hex.all_hex (Hex.encode bs) = true.
Proof.
  induction bs as [|b bs IH]; [reflexivity|].
  cbn [Hex.encode]. destruct (Hex.split b) as [hi lo].
  cbn [Hex.all_hex]. now rewrite !unhex_hex_char.
Qed.

(** On digits the decoder reads the text as it is. *)
Lemma hex_decode_all_hex (s : string) :
  Hex.all_hex s = true -> Hex.decode s = Hex.decode_units s.
Proof.
  intros Hs. unfold Hex.decode.
  now rewrite (utf16_low_bytes_ascii s (all_hex_ascii s Hs)).
Qed.

(** [Buffer.from(buf.toString("hex"), "hex")] gives [buf] back. *)
Lemma hex_decode_encode (bs : list byte) : Hex.decode (Hex.encode bs) = bs.
Proof.
  rewrite (hex_decode_all_hex _ (all_hex_encode bs)). apply hex_units_encode.
Qed.

Lemma js_length_hex_encode (bs : list byte) :
  js_length (Hex.encode bs) = (2 * length bs)%nat.
Proof.
  rewrite (ascii_js_length _ (all_hex_ascii _ (all_hex_encode bs))).
  induction bs as [|b bs IH]; [reflexivity|].
  cbn [Hex.encode]. destruct (Hex.split b) as [hi lo].
  cbn [String.length length]. rewrite IH. lia.
Qed.

(** The decoder yields one byte for every pair of digits. *)
Lemma length_hex_units (s : string) :
  (Hex.all_hex s = true ->
   length (Hex.decode_units s) = String.length s / 2)%nat
  /\ (forall c, Hex.all_hex (String c s) = true ->
        length (Hex.decode_units (String c s)) = S (String.length s) / 2)%nat.
Proof.
  induction s as [|a s [IH1 IH2]].
  - split; [reflexivity|]. intros c _. reflexivity.
  - split.
    + apply IH2.
    + intros c. cbn [Hex.all_hex].
      destruct (Hex.unhex c) as [hi|] eqn:Hc; [|discriminate].
      destruct (Hex.unhex a) as [lo|] eqn:Ha; [|discriminate]. intros Hs.
      cbn [Hex.decode_units]. rewrite Hc, Ha. cbn [length String.length].
      rewrite (IH1 Hs).
      change (S (S (String.length s))) with (1 * 2 + String.length s)%nat.
      now rewrite Nat.div_add_l by lia.
Qed.

Lemma length_hex_decode (s : string) :
  Hex.all_hex s = true -> length (Hex.decode s) = (String.length s / 2)%nat.
Proof.
  intros Hs. rewrite (hex_decode_all_hex s Hs).
  exact (proj1 (length_hex_units s) Hs).
Qed.

(** The decoder stops at the first unit that is not a digit. *)
Lemma hex_units_stop (pre : string) (c : ascii) (rest : string) :
  Hex.unhex c = None ->
  (Hex.all_hex pre = true ->
   Hex.decode_units (pre ++ String c rest) = Hex.decode_units pre)
  /\ (forall a, Hex.all_hex (String a pre) = true ->
        Hex.decode_units (String a pre ++ String c rest)
        = Hex.decode_units (String a pre)).
Proof.
  intros Hc. induction pre as [|b pre [IH1 IH2]].
  - split.
    + intros _. rewrite string_app_nil.
      destruct rest; cbn [Hex.decode_units]; [reflexivity|]. now rewrite Hc.
    + intros a _. rewrite string_app_cons, string_app_nil.
      cbn [Hex.decode_units]. rewrite Hc. now destruct (Hex.unhex a).
  - split; [apply IH2|].
    intros a. cbn [Hex.all_hex].
    destruct (Hex.unhex a) as [hi|] eqn:Ha; [|discriminate].
    destruct (Hex.unhex b) as [lo|] eqn:Hb; [|discriminate]. intros Hs.
    rewrite !string_app_cons. cbn [Hex.decode_units]. rewrite Ha, Hb.
    f_equal. exact (IH1 Hs).
Qed.

(** ASCII text in front of a string is read as it is. *)
Lemma utf16_low_bytes_ascii_app (pre rest : string) :
  ascii_text pre = true ->
  utf16_low_bytes (pre ++ rest) = (pre ++ utf16_low_bytes rest)%string.
Proof.
  induction pre as [|c pre IH]; [reflexivity|].
  cbn [ascii_text]. intros [Hc Hpre]%andb_prop.
  rewrite !string_app_cons. cbn [utf16_low_bytes]. now rewrite Hc, (IH Hpre).
Qed.

Lemma hex_decode_stops (pre : string) (c : ascii) (rest : string) :
  Hex.all_hex pre = true ->
  Hex.unhex c = None ->
  (N_of_ascii c <? 128)%N = true ->
  Hex.decode (pre ++ String c rest) = Hex.decode pre.
Proof.
  intros Hpre Hc Hascii.
  rewrite (hex_decode_all_hex pre Hpre). unfold Hex.decode.
  rewrite (utf16_low_bytes_ascii_app pre _ (all_hex_ascii pre Hpre)).
  cbn [utf16_low_bytes]. rewrite Hascii.
  exact (proj1 (hex_units_stop pre c _ Hc) Hpre).
Qed.

Lemma js_length_app (a b : string) :
  js_length (a ++ b) = (js_length a + js_length b)%nat.
Proof.
  induction a as [|c a IH]; [reflexivity|].
  rewrite string_app_cons. cbn [js_length]. rewrite IH. lia.
Qed.

(** A character outside ASCII is read by the low byte of its code unit:
    U+0130 and U+0131 (bytes C4 B0, C4 B1) count as the digits 0 and 1. *)
Example hex_decode_low_byte :
  Hex.decode (String "196" (String "176" (String "196" (String "177" ""))))
  = Hex.decode "01".
Proof. reflexivity. Qed.

Section SecretKey.
Import EncryptionService.
Variable sha256 : Buffer -> Buffer.

Lemma getSecretKey_unset (env : option string) (random : Buffer) :
  env = None \/ env = Some "" ->
  length random = 32%nat ->
  getSecretKey sha256 env random = Hex.decode (Hex.encode random).
Proof.
  intros Henv Hlen. unfold getSecretKey.
  assert (Hkey : match env with
                 | None => Hex.encode random
                 | Some k => if String.eqb k "" then Hex.encode random else k
                 end = Hex.encode random)
    by (destruct Henv as [-> | ->]; reflexivity).
  now rewrite Hkey, js_length_hex_encode, Hlen.
Qed.

(** X1.  With no key configured (the variable unset or empty),
    [getSecretKey] generates one: the secret is exactly the 32 random
    bytes drawn, which is also what the hexadecimal text printed for the
    operator decodes to. *)
Theorem getSecretKey_generated (env : option string) (random : Buffer) :
  env = None \/ env = Some "" ->
  length random = 32%nat ->
  getSecretKey sha256 env random = random
  /\ getSecretKey sha256 (Some (Hex.encode random)) [] = random.
Proof.
  intros Henv Hlen. split.
  - rewrite (getSecretKey_unset env random Henv Hlen). apply hex_decode_encode.
  - unfold getSecretKey.
    destruct (String.eqb (Hex.encode random) "") eqn:He.
    + apply String.eqb_eq in He. destruct random; [discriminate|].
      cbn in He. destruct (Hex.split b). discriminate.
    + rewrite js_length_hex_encode, Hlen. apply hex_decode_encode.
Qed.

(** X2.  The secret has the 32 bytes AES-256 needs whenever the
    configured key, if it is 64 characters long, consists of hexadecimal
    digits only: a generated key, a key of 64 digits and a key of any
    other length (which is hashed) all give 32 bytes. *)
Theorem getSecretKey_32_bytes (env : option string) (random : Buffer) :
  (forall b, length (sha256 b) = 32%nat) ->
  length random = 32%nat ->
  (forall k, env = Some k -> js_length k = 64%nat -> Hex.all_hex k = true) ->
  length (getSecretKey sha256 env random) = 32%nat.
Proof.
  intros Hsha Hlen Hhex.
  assert (Hgen : forall env', env' = None \/ env' = Some "" ->
            length (getSecretKey sha256 env' random) = 32%nat).
  { intros env' Henv. rewrite (getSecretKey_unset env' random Henv Hlen).
    now rewrite hex_decode_encode. }
  destruct env as [k|]; [|apply Hgen; auto].
  destruct (String.eqb k "") eqn:Hk.
  { apply String.eqb_eq in Hk as ->. apply Hgen; auto. }
  unfold getSecretKey. rewrite Hk.
  destruct (Nat.eqb_spec (js_length k) 64) as [H64|_]; [|apply Hsha].
  pose proof (Hhex k eq_refl H64) as Hall.
  rewrite (length_hex_decode k Hall).
  rewrite <- (ascii_js_length k (all_hex_ascii k Hall)), H64. reflexivity.
Qed.

(** X3.  A configured key of 64 characters whose first character that is
    not a hexadecimal digit is an ASCII character [c] is neither rejected
    nor hashed: it is decoded as hexadecimal text up to [c], so the secret
    is shorter than the 32 bytes AES-256 needs. *)
Theorem getSecretKey_truncated (pre : string) (c : ascii) (rest : string)
    (random : Buffer) :
  js_length (pre ++ String c rest) = 64%nat ->
  Hex.all_hex pre = true ->
  Hex.unhex c = None ->
  (N_of_ascii c <? 128)%N = true ->
  getSecretKey sha256 (Some (pre ++ String c rest)%string) random
  = Hex.decode pre
  /\ length (Hex.decode pre) = (String.length pre / 2)%nat
  /\ (length (Hex.decode pre) < 32)%nat.
Proof.
  intros H64 Hall Hc Hascii.
  assert (Hpre : (String.length pre < 64)%nat).
  { rewrite js_length_app, (ascii_js_length pre (all_hex_ascii pre Hall)) in H64.
    cbn [js_length] in H64.
    destruct (ascii_starts_character c Hascii) as [Hs H240].
    rewrite Hs, H240 in H64. lia. }
  split; [|split].
  - unfold getSecretKey.
    destruct (String.eqb (pre ++ String c rest)%string "") eqn:He.
    { apply String.eqb_eq in He. rewrite He in H64. discriminate. }
    rewrite H64. cbn [Nat.eqb]. exact (hex_decode_stops pre c rest Hall Hc Hascii).
  - exact (length_hex_decode pre Hall).
  - rewrite (length_hex_decode pre Hall).
    apply Nat.Div0.div_lt_upper_bound. lia.
Qed.

End SecretKey.

Lemma getSecretKey_generated_witness :
  EncryptionService.getSecretKey (fun _ => []) None (replicate 32 "171"%byte)
  = replicate 32 "171"%byte.
Proof.
  refine (proj1 (getSecretKey_generated (fun _ => []) None
                   (replicate 32 "171"%byte) _ _)).
  - left; reflexivity.
  - reflexivity.
Defined.

Lemma getSecretKey_32_bytes_witness :
  length (EncryptionService.getSecretKey (fun _ => replicate 32 "000"%byte)
            (Some "correct horse battery staple") (replicate 32 "171"%byte))
  = 32%nat.
Proof.
  apply (getSecretKey_32_bytes (fun _ => replicate 32 "000"%byte)
           (Some "correct horse battery staple") (replicate 32 "171"%byte)).
  - intros b. reflexivity.
  - reflexivity.
  - intros k Hk. injection Hk as <-. vm_compute. discriminate.
Defined.

(** A key of 64 characters whose third character is the letter g. *)
Lemma getSecretKey_truncated_witness :
  EncryptionService.getSecretKey (fun _ => [])
    (Some "a1g0000000000000000000000000000000000000000000000000000000000000")
    []
  = ["161"%byte].
Proof.
  refine (proj1 (getSecretKey_truncated (fun _ => []) "a1" "g"
                   "0000000000000000000000000000000000000000000000000000000000000"
                   [] _ _ _ _));
    vm_compute; reflexivity.
Defined.

(** ** Vault URLs *)

Section VaultUrls.
Import IPFSService.

Lemma strip_prefix_app (p s : string) : strip_prefix p (p ++ s) = Some s.
Proof.
  induction p as [|a p IH]; [now destruct s|].
  rewrite string_app_cons. cbn [strip_prefix]. now rewrite Ascii.eqb_refl.
Qed.

Lemma strip_prefix_Some (p s r : string) :
  strip_prefix p s = Some r -> s = (p ++ r)%string.
Proof.
  revert s. induction p as [|a p IH]; intros s.
  - destruct s; intros [= <-]; reflexivity.
  - destruct s as [|b s]; cbn [strip_prefix]; [discriminate|].
    destruct (Ascii.eqb_spec a b) as [->|]; [|discriminate].
    intros H. rewrite string_app_cons. f_equal. now apply IH.
Qed.

Lemma split_at_slash_app (a b : string) :
  no_slash a = true ->
  split_at_slash (a ++ String "/" b) = Some (a, b).
Proof.
  induction a as [|c a IH]; [reflexivity|].
  cbn [no_slash]. intros [Hc Ha]%andb_prop.
  rewrite string_app_cons. cbn [split_at_slash].
  destruct (Ascii.eqb c "/"); [discriminate|]. now rewrite (IH Ha).
Qed.

Lemma split_at_slash_Some (s a b : string) :
  split_at_slash s = Some (a, b) ->
  s = (a ++ String "/" b)%string /\ no_slash a = true.
Proof.
  revert a. induction s as [|c s IH]; intros a; [discriminate|].
  cbn [split_at_slash].
  destruct (Ascii.eqb_spec c "/") as [->|Hc].
  - intros [= <- <-]. auto.
  - destruct (split_at_slash s) as [[a' b']|]; [|discriminate].
    cbn. intros [= <- <-]. destruct (IH a' eq_refl) as [-> Ha].
    split; [reflexivity|]. cbn [no_slash]. rewrite Ha.
    now destruct (Ascii.eqb_spec c "/").
Qed.

(** X4.  [parseVaultUrl] inverts [getVaultUrl] for every fid that is not
    empty and holds no [/], and every cid that is not empty and holds no
    line terminator. *)
Theorem parseVaultUrl_getVaultUrl (f c : string) :
  f <> "" -> no_slash f = true ->
  c <> "" -> no_line_terminator c = true ->
  parseVaultUrl (getVaultUrl f c) = Return (f, c).
Proof.
  intros Hf Hslash Hc Hline. unfold parseVaultUrl, getVaultUrl.
  change ("/" ++ c)%string with (String "/" c).
  rewrite strip_prefix_app, (split_at_slash_app f c Hslash).
  apply String.eqb_neq in Hf, Hc. now rewrite Hf, Hc, Hline.
Qed.

(** X5.  Whatever [parseVaultUrl] accepts is a URL that [getVaultUrl]
    writes: the text is [vault://fid/cid] for the fid and cid returned,
    the fid is not empty and holds no [/], the cid is not empty. *)
Theorem parseVaultUrl_sound (url f c : string) :
  parseVaultUrl url = Return (f, c) ->
  url = getVaultUrl f c
  /\ f <> "" /\ no_slash f = true
  /\ c <> "" /\ no_line_terminator c = true.
Proof.
  unfold parseVaultUrl, getVaultUrl.
  destruct (strip_prefix "vault://" url) as [rest|] eqn:Hp; [|discriminate].
  destruct (split_at_slash rest) as [[f' c']|] eqn:Hs; [|discriminate].
  destruct (String.eqb_spec f' ""); [discriminate|].
  destruct (String.eqb_spec c' ""); [discriminate|].
  destruct (no_line_terminator c') eqn:Hl; [|discriminate].
  cbn [negb andb]. intros [= <- <-].
  apply strip_prefix_Some in Hp. apply split_at_slash_Some in Hs as [-> Hns].
  auto.
Qed.

(** X6.  An fid that holds a [/] does not survive the round trip: the
    URL written for fid [f1/f2] and cid [c] is read back as fid [f1] and
    cid [f2/c]. *)
Theorem parseVaultUrl_fid_with_slash (f1 f2 c : string) :
  f1 <> "" -> no_slash f1 = true ->
  no_line_terminator (f2 ++ String "/" c) = true ->
  parseVaultUrl (getVaultUrl (f1 ++ String "/" f2) c)
  = Return (f1, (f2 ++ String "/" c)%string).
Proof.
  intros Hf Hslash Hline. unfold parseVaultUrl, getVaultUrl.
  rewrite strip_prefix_app.
  replace ((f1 ++ String "/" f2) ++ "/" ++ c)%string
    with (f1 ++ String "/" (f2 ++ String "/" c))%string.
  2: { now rewrite string_app_assoc. }
  rewrite (split_at_slash_app f1 _ Hslash).
  apply String.eqb_neq in Hf. rewrite Hf, Hline.
  destruct f2; reflexivity.
Qed.

(** X7.  The scheme middleware answers 400 only for a header that
    starts with [vault://] and that [parseVaultUrl] refuses; every other
    request is passed on, carrying fid and cid exactly when the header is
    the URL [getVaultUrl] writes for them. *)
Theorem handleVaultScheme_outcome (header : option string) :
  match VaultSchemeHandler.handleVaultScheme header with
  | VaultSchemeHandler.Next (Some (f, c)) =>
      header = Some (getVaultUrl f c) /\ f <> "" /\ c <> ""
  | VaultSchemeHandler.Next None =>
      forall rest, header <> Some ("vault://" ++ rest)%string
  | VaultSchemeHandler.Respond r =>
      r = CertificateController.json_response 400 false
            "Invalid vault:// URL format"
            (Some "Invalid vault:// URL format") None
      /\ exists rest,
           header = Some ("vault://" ++ rest)%string
           /\ parseVaultUrl ("vault://" ++ rest)
              = Throw "Invalid vault:// URL format"
  end.
Proof.
  unfold VaultSchemeHandler.handleVaultScheme.
  destruct header as [h|]; [|discriminate].
  destruct (String.eqb_spec h "") as [->|Hh].
  { intros rest. discriminate. }
  destruct (strip_prefix "vault://" h) as [rest|] eqn:Hp.
  2: { intros rest [= ->]. now rewrite strip_prefix_app in Hp. }
  pose proof (strip_prefix_Some _ _ _ Hp) as Hh'.
  assert (Hfail : parseVaultUrl h = Throw "Invalid vault:// URL format" ->
            exists rest0,
              Some h = Some ("vault://" ++ rest0)%string
              /\ parseVaultUrl ("vault://" ++ rest0)
                 = Throw "Invalid vault:// URL format").
  { intros Hb. exists rest. rewrite <- Hh'. auto. }
  unfold parseVaultUrl in *. rewrite Hp in *.
  destruct (split_at_slash rest) as [[f c]|] eqn:Hs.
  - pose proof (split_at_slash_Some _ _ _ Hs) as [Hrest _].
    destruct (String.eqb_spec f ""), (String.eqb_spec c ""),
      (no_line_terminator c); cbn [negb andb] in *;
      try (split; [reflexivity | exact (Hfail eq_refl)]).
    subst. repeat split; auto.
  - split; [reflexivity | exact (Hfail eq_refl)].
Qed.

End VaultUrls.

Lemma parseVaultUrl_getVaultUrl_witness :
  IPFSService.parseVaultUrl (IPFSService.getVaultUrl "cert_1" "QmA")
  = Return ("cert_1", "QmA").
Proof.
  apply (parseVaultUrl_getVaultUrl "cert_1" "QmA");
    solve [discriminate | reflexivity].
Defined.

Lemma parseVaultUrl_sound_witness :
  "vault://cert_1/QmA/readme" = IPFSService.getVaultUrl "cert_1" "QmA/readme".
Proof.
  refine (proj1 (parseVaultUrl_sound "vault://cert_1/QmA/readme"
                   "cert_1" "QmA/readme" _)).
  reflexivity.
Defined.

Lemma parseVaultUrl_fid_with_slash_witness :
  IPFSService.parseVaultUrl (IPFSService.getVaultUrl "a/b" "QmA")
  = Return ("a", "b/QmA").
Proof.
  apply (parseVaultUrl_fid_with_slash "a" "b" "QmA");
    solve [discriminate | reflexivity].
Defined.

(** ** Content types *)

Section ContentTypes.
Import CertificateController.

Lemma toLowerCase_app (a b : string) :
  toLowerCase (a ++ b) = (toLowerCase a ++ toLowerCase b)%string.
Proof.
  induction a as [|c a IH]; [reflexivity|].
  rewrite string_app_cons. cbn [toLowerCase]. now rewrite IH.
Qed.

(** Only what follows the last dot counts. *)
Lemma last_segment_after_dot (a b cur : string) :
  last_segment cur (a ++ String "." b) = last_segment "" b.
Proof.
  revert cur. induction a as [|c a IH]; intros cur; [reflexivity|].
  rewrite string_app_cons. cbn [last_segment].
  destruct (Ascii.eqb c "."); apply IH.
Qed.

(** X8.  The content type is chosen by the text after the last dot of
    the name, compared without regard to letter case: a name
    [stem.ext] whose extension is, in lower case, a key of the table gets
    that key's type, whatever the stem; so does the bare name [ext]. *)
Theorem getContentType_known_extension (stem ext k v : string) :
  In (k, v) contentTypes ->
  toLowerCase ext = k ->
  getContentType (stem ++ String "." ext) = v
  /\ getContentType ext = v.
Proof.
  intros Hin Hk.
  assert (Hkey : last_segment "" k = k /\ lookup_type k contentTypes = Some v).
  { cbn in Hin.
    repeat (destruct Hin as [[= <- <-]|Hin]; [split; reflexivity|]).
    destruct Hin. }
  destruct Hkey as [Hseg Hlook].
  unfold getContentType. split.
  - rewrite toLowerCase_app. cbn [toLowerCase].
    change (lower_char ".") with "."%char.
    now rewrite last_segment_after_dot, Hk, Hseg, Hlook.
  - now rewrite Hk, Hseg, Hlook.
Qed.

End ContentTypes.

Lemma getContentType_known_extension_witness :
  CertificateController.getContentType "Diploma.final.PDF" = "application/pdf".
Proof.
  refine (proj1 (getContentType_known_extension "Diploma.final" "PDF" "pdf"
                   "application/pdf" _ _)).
  - left. reflexivity.
  - reflexivity.
Defined.

(** ** The ledger: creation, indexes and what never changes *)

Section LedgerIndexes.
Import CertificateManager.

Lemma getCertificatesByEmail_insert (certs : gmap string Certificate)
    (byEmail : gmap string (list string)) (fids : list string)
    (e e' : string) (l : list string) :
  getCertificatesByEmail {| certificates := certs;
                            certificatesByEmail := <[e := l]> byEmail;
                            allFIDs := fids |} e'
  = if decide (e = e') then l
    else getCertificatesByEmail {| certificates := certs;
                                   certificatesByEmail := byEmail;
                                   allFIDs := fids |} e'.
Proof.
  unfold getCertificatesByEmail. cbn. rewrite lookup_insert.
  now destruct (decide (e = e')).
Qed.

Lemma transact_issue_fresh (st : Storage) (msg : Msg) (f c e : string) :
  nonempty f = true -> nonempty c = true -> nonempty e = true ->
  nonempty (fid (certificate_at st f)) = false ->
  transact st (msg, IssueCertificate f c e)
  = ({| certificates :=
          <[f := {| fid := f; cid := c; email := e;
                    issueDate := timestamp msg; lastModified := timestamp msg;
                    issuer := sender msg; isActive := true |}]>
            (certificates st);
        certificatesByEmail :=
          <[e := default [] (certificatesByEmail st !! e) ++ [f]]>
            (certificatesByEmail st);
        allFIDs := allFIDs st ++ [f] |},
     Return [CertificateIssued f c e (timestamp msg) (sender msg)]).
Proof.
  intros Hf Hc He Hnew.
  unfold transact, execute, issueCertificate. cbn [fst snd].
  rewrite !require_true by (try assumption; now rewrite Hnew).
  reflexivity.
Qed.

Lemma getCertificate_after_insert (st : Storage)
    (byEmail : gmap string (list string)) (fids : list string) (f : string)
    (cert : Certificate) :
  nonempty (fid cert) = true ->
  getCertificate {| certificates := <[f := cert]> (certificates st);
                    certificatesByEmail := byEmail; allFIDs := fids |} f
  = Return cert.
Proof.
  intros Hex. unfold getCertificate, certificateExists.
  rewrite certificate_at_insert. destruct (decide (f = f)); [|congruence].
  now rewrite require_true.
Qed.

(** X9.  A create call with non-empty fid, cid and email for an fid
    that has no record succeeds: it emits [CertificateIssued], the record
    read back is active and carries the three values, the sender as
    issuer and the block time as both dates, and the fid is appended to
    the email's list and to the list of all fids. *)
Theorem issue_creates_record (st : Storage) (msg : Msg) (f c e : string) :
  nonempty f = true -> nonempty c = true -> nonempty e = true ->
  nonempty (fid (certificate_at st f)) = false ->
  let st' := (transact st (msg, IssueCertificate f c e)).1 in
  (transact st (msg, IssueCertificate f c e)).2
  = Return [CertificateIssued f c e (timestamp msg) (sender msg)]
  /\ getCertificate st' f
     = Return {| fid := f; cid := c; email := e;
                 issueDate := timestamp msg; lastModified := timestamp msg;
                 issuer := sender msg; isActive := true |}
  /\ certificateStatus st' f = (true, true)
  /\ getCertificatesByEmail st' e = getCertificatesByEmail st e ++ [f]
  /\ getAllFIDs st' = getAllFIDs st ++ [f]
  /\ getTotalCertificates st' = S (getTotalCertificates st).
Proof.
  intros Hf Hc He Hnew st'. subst st'.
  rewrite (transact_issue_fresh st msg f c e Hf Hc He Hnew). cbn [fst snd].
  split; [reflexivity|]. split; [now apply getCertificate_after_insert|].
  destruct st as [certs byEmail fids].
  cbn [certificates certificatesByEmail allFIDs].
  unfold certificateStatus, getAllFIDs, getTotalCertificates.
  rewrite certificate_at_insert, getCertificatesByEmail_insert.
  destruct (decide (f = f)); [|congruence].
  destruct (decide (e = e)); [|congruence].
  cbn [fid isActive allFIDs]. rewrite Hf, length_app. cbn.
  repeat split; try reflexivity. lia.
Qed.

(** X10.  A transaction about one fid never changes the record of
    another, whether it succeeds or reverts. *)
Theorem transact_other_fid (st : Storage) (msg : Msg) (call : Call) (f : string) :
  call_fid call <> f ->
  certificate_at (transact st (msg, call)).1 f = certificate_at st f.
Proof.
  intros Hne. destruct call as [g c e|g newCid|g e|g];
    destruct st as [certs byEmail fids]; cbn [call_fid] in Hne;
    guards; try reflexivity;
    rewrite certificate_at_insert;
    (destruct (decide (g = f)); [congruence | reflexivity]).
Qed.

Lemma transact_keeps_identity (st : Storage) (tx : Msg * Call) (f : string) :
  nonempty (fid (certificate_at st f)) = true ->
  same_identity (certificate_at (transact st tx).1 f) (certificate_at st f).
Proof.
  intros Hex. destruct tx as [msg [g c e|g newCid|g e|g]];
    destruct st as [certs byEmail fids]; guards;
    try (repeat split; reflexivity);
    rewrite certificate_at_insert; destruct (decide (g = f)) as [->|];
    try (repeat split; reflexivity).
  rewrite Hex in *. discriminate.
Qed.

(** X11.  A record, once created, is never removed and never changes its
    fid, email, issuer or issue date, whatever transactions follow. *)
Theorem record_identity_is_permanent (txs : list (Msg * Call)) (st : Storage)
    (f : string) :
  nonempty (fid (certificate_at st f)) = true ->
  let old := certificate_at st f in
  let new := certificate_at (run st txs) f in
  nonempty (fid new) = true
  /\ fid new = fid old /\ email new = email old
  /\ issuer new = issuer old /\ issueDate new = issueDate old.
Proof.
  revert st. induction txs as [|tx txs IH]; intros st Hex; [cbn; auto|].
  destruct (transact_keeps_identity st tx f Hex) as (H1 & H2 & H3 & H4).
  unfold run in *. cbn [foldl].
  assert (Hex' : nonempty (fid (certificate_at (transact st tx).1 f)) = true)
    by now rewrite H1.
  destruct (IH _ Hex') as (I0 & I1 & I2 & I3 & I4).
  cbn zeta. repeat split; congruence.
Qed.

Lemma indexed_empty : indexed empty_storage.
Proof.
  split; [constructor|]. split.
  - intros f. split; [intros H; inversion H | discriminate].
  - intros e f. split; [intros H; inversion H | intros [H _]; discriminate].
Qed.

Lemma transact_indexed (st : Storage) (tx : Msg * Call) :
  indexed st -> indexed (transact st tx).1.
Proof.
  intros (Hnd & Hall & Hmail).
  destruct tx as [msg [f c e|f newCid|f e|f]];
    destruct st as [certs byEmail fids];
    guards; try (split; [|split]; assumption);
    unfold indexed, getCertificatesByEmail, certificate_at in *;
    cbn [certificates certificatesByEmail allFIDs] in *.
  - (* issue *)
    split; [|split].
    + apply NoDup_app. split; [exact Hnd|]. split; [|apply NoDup_singleton].
      intros x Hx [= ->]%list_elem_of_singleton. apply Hall in Hx.
      destruct (nonempty (fid _)); discriminate.
    + intros g. rewrite lookup_insert, elem_of_app, list_elem_of_singleton.
      destruct (decide (f = g)) as [->|Hne]; cbn [default from_option id fid].
      * split; auto.
      * rewrite Hall. split; [intros [H|H]; congruence | auto].
    + intros e' g. rewrite !lookup_insert.
      destruct (decide (e = e')) as [->|Hne]; cbn [default from_option id].
      * rewrite elem_of_app, list_elem_of_singleton, Hmail.
        destruct (decide (f = g)) as [->|Hfg]; cbn [default from_option id fid email].
        -- split; auto.
        -- split; [intros [H|H]; [exact H | congruence] | auto].
      * rewrite Hmail.
        destruct (decide (f = g)) as [->|Hfg]; cbn [default from_option id fid email];
          [|reflexivity].
        split; [|intros [_ H]; congruence].
        intros [H _]. destruct (nonempty (fid _)); discriminate.
  - (* update *)
    split; [exact Hnd|]. split.
    + intros g. rewrite lookup_insert.
      destruct (decide (f = g)) as [->|]; [|apply Hall]. cbn [default from_option id fid].
      apply Hall.
    + intros e' g. rewrite lookup_insert.
      destruct (decide (f = g)) as [->|]; [|apply Hmail].
      cbn [default from_option id fid email]. apply Hmail.
  - (* delete *)
    split; [exact Hnd|]. split.
    + intros g. rewrite lookup_insert.
      destruct (decide (f = g)) as [->|]; [|apply Hall]. cbn [default from_option id fid].
      apply Hall.
    + intros e' g. rewrite lookup_insert.
      destruct (decide (f = g)) as [->|]; [|apply Hmail].
      cbn [default from_option id fid email]. apply Hmail.
Qed.

Lemma run_indexed (txs : list (Msg * Call)) :
  forall st, indexed st -> indexed (run st txs).
Proof.
  induction txs as [|tx txs IH]; intros st H; [exact H|].
  unfold run in *. cbn [foldl]. apply IH, transact_indexed, H.
Qed.

(** X12.  In every state reached from the empty ledger the list of all
    fids holds exactly the fids that have a record, each once; so
    [getTotalCertificates] counts the records ever created, deactivated
    ones included. *)
Theorem fid_list_matches_records (txs : list (Msg * Call)) :
  let st := run empty_storage txs in
  NoDup (getAllFIDs st)
  /\ (forall f, f ∈ getAllFIDs st <-> (certificateStatus st f).1 = true)
  /\ getTotalCertificates st = length (getAllFIDs st).
Proof.
  destruct (run_indexed txs _ indexed_empty) as (Hnd & Hall & _).
  cbn zeta. unfold getAllFIDs, getTotalCertificates, certificateStatus.
  cbn [fst]. auto.
Qed.

(** X13.  In every state reached from the empty ledger the list kept
    for an email holds exactly the fids of the records created with that
    email, deactivated ones included. *)
Theorem email_index_matches_records (txs : list (Msg * Call)) (e f : string) :
  let st := run empty_storage txs in
  f ∈ getCertificatesByEmail st e
  <-> (exists cert, getCertificate st f = Return cert /\ email cert = e).
Proof.
  destruct (run_indexed txs _ indexed_empty) as (_ & _ & Hmail).
  cbn zeta. rewrite Hmail. unfold getCertificate, certificateExists, require.
  destruct (nonempty (fid _)); cbn.
  - split; [intros [_ H]; eauto | intros (cert & [= <-] & H); auto].
  - split; [intros [H _]; discriminate | intros (cert & H & _); discriminate].
Qed.

(** X14.  Deleting is idempotent for the issuer: [deleteCertificate] on
    a record that is already inactive succeeds again, emits
    [CertificateDeleted] again and leaves the storage exactly as it was. *)
Theorem delete_inactive_again (st : Storage) (msg : Msg) (f : string) :
  nonempty (fid (certificate_at st f)) = true ->
  issuer (certificate_at st f) = sender msg ->
  isActive (certificate_at st f) = false ->
  transact st (msg, DeleteCertificate f)
  = (st, Return [CertificateDeleted f (sender msg)]).
Proof.
  intros Hex Hiss Hin.
  rewrite (deleteCertificate_by_issuer st msg f Hex Hiss). cbn zeta.
  f_equal. destruct st as [certs byEmail fids]. f_equal.
  unfold certificate_at in *. cbn [certificates] in *.
  destruct (certs !! f) as [cert|] eqn:Hlook; cbn [default from_option id] in *;
    [|discriminate].
  apply insert_id. rewrite Hlook. f_equal.
  destruct cert. cbn in *. now subst.
Qed.

End LedgerIndexes.

Lemma issue_creates_record_witness :
  CertificateManager.getCertificate
    (CertificateManager.transact LedgerExamples.issued
       (LedgerExamples.other2,
        CertificateManager.IssueCertificate "f2" "QmB" "b@x.com")).1 "f2"
  = Return {| CertificateManager.fid := "f2";
              CertificateManager.cid := "QmB";
              CertificateManager.email := "b@x.com";
              CertificateManager.issueDate := 200;
              CertificateManager.lastModified := 200;
              CertificateManager.issuer := 2%N;
              CertificateManager.isActive := true |}.
Proof.
  refine (proj1 (proj2 (issue_creates_record LedgerExamples.issued
                          LedgerExamples.other2 "f2" "QmB" "b@x.com"
                          _ _ _ _)));
    vm_compute; reflexivity.
Defined.

Lemma transact_other_fid_witness :
  CertificateManager.certificate_at
    (CertificateManager.transact LedgerExamples.issued
       (LedgerExamples.other2,
        CertificateManager.IssueCertificate "f2" "QmB" "b@x.com")).1 "f1"
  = CertificateManager.certificate_at LedgerExamples.issued "f1".
Proof.
  apply (transact_other_fid LedgerExamples.issued LedgerExamples.other2
           (CertificateManager.IssueCertificate "f2" "QmB" "b@x.com") "f1").
  vm_compute. discriminate.
Defined.

Lemma record_identity_is_permanent_witness :
  CertificateManager.email
    (CertificateManager.certificate_at
       (CertificateManager.run LedgerExamples.issued
          [(LedgerExamples.issuer1,
            CertificateManager.UpdateCertificate "f1" "QmB");
           (LedgerExamples.issuer1,
            CertificateManager.DeleteCertificate "f1")]) "f1")
  = CertificateManager.email
      (CertificateManager.certificate_at LedgerExamples.issued "f1").
Proof.
  refine (proj1 (proj2 (proj2 (record_identity_is_permanent
                                 [(LedgerExamples.issuer1,
                                   CertificateManager.UpdateCertificate "f1" "QmB");
                                  (LedgerExamples.issuer1,
                                   CertificateManager.DeleteCertificate "f1")]
                                 LedgerExamples.issued "f1" _)))).
  vm_compute; reflexivity.
Defined.

Lemma delete_inactive_again_witness :
  CertificateManager.transact LedgerExamples.deleted
    (LedgerExamples.issuer1, CertificateManager.DeleteCertificate "f1")
  = (LedgerExamples.deleted,
     Return [CertificateManager.CertificateDeleted "f1" 1%N]).
Proof.
  apply (delete_inactive_again LedgerExamples.deleted LedgerExamples.issuer1
           "f1"); vm_compute; reflexivity.
Defined.

(** ** Header values *)

Section HeaderValues.
Import CertificateController.

Lemma printable_ascii_valid (s : string) :
  printable_ascii s = true -> valid_header_value s = true.
Proof.
  induction s as [|c s IH]; [reflexivity|].
  cbn [printable_ascii valid_header_value]. intros [Hc Hs]%andb_true_iff.
  rewrite Hc, orb_true_r. now apply IH.
Qed.

Lemma printable_ascii_app (a b : string) :
  printable_ascii (a ++ b) = printable_ascii a && printable_ascii b.
Proof.
  induction a as [|c a IH]; [now rewrite string_app_nil|].
  rewrite string_app_cons. cbn [printable_ascii].
  now rewrite IH, andb_assoc.
Qed.

Lemma url_safe_printable (c : string) :
  IPFSService.url_safe c = true -> printable_ascii c = true.
Proof.
  induction c as [|a c IH]; [reflexivity|].
  cbn [IPFSService.url_safe printable_ascii].
  intros [Ha Hc]%andb_true_iff. rewrite (IH Hc), andb_true_r.
  apply andb_true_iff.
  repeat (apply orb_true_iff in Ha as [Ha|Ha]);
    try (apply andb_true_iff in Ha as [H1 H2]);
    rewrite ?N.leb_le, ?N.eqb_eq in *; lia.
Qed.

Lemma printable_pretty_N_char (x : N) :
  printable_ascii (String (pretty_N_char x) "") = true.
Proof. unfold pretty_N_char. repeat case_match; reflexivity. Qed.

Lemma printable_pretty_N_go (x : N) (s : string) :
  printable_ascii s = true -> printable_ascii (pretty_N_go x s) = true.
Proof.
  revert s. induction (N.lt_wf_0 x) as [x _ IH]; intros s Hs.
  destruct (decide (x = 0%N)) as [->|Hx]; [now rewrite pretty_N_go_0|].
  rewrite pretty_N_go_step by lia.
  apply IH; [apply N.div_lt; lia|].
  cbn [printable_ascii]. rewrite Hs, andb_true_r.
  pose proof (printable_pretty_N_char (x `mod` 10)) as H.
  cbn [printable_ascii] in H. now rewrite andb_true_r in H.
Qed.

Lemma printable_pretty_N (x : N) : printable_ascii (pretty x) = true.
Proof.
  unfold pretty, pretty_N. case_decide; [reflexivity|].
  now apply printable_pretty_N_go.
Qed.

Lemma printable_pretty_nat (x : nat) : printable_ascii (pretty x) = true.
Proof. apply printable_pretty_N. Qed.

Lemma printable_pretty_Z (x : Z) : printable_ascii (pretty x) = true.
Proof.
  destruct x as [|x|x]; [reflexivity|apply printable_pretty_N|].
  unfold pretty, pretty_Z. change ("-" +:+ ?s) with (String "-" s).
  cbn [printable_ascii]. apply printable_pretty_N.
Qed.

Lemma printable_getContentType (n : string) :
  printable_ascii (getContentType n) = true.
Proof.
  unfold getContentType. generalize (last_segment "" (toLowerCase n)).
  intros ext. unfold contentTypes. cbn [lookup_type].
  repeat (destruct (String.eqb _ ext); [reflexivity|]). reflexivity.
Qed.

(** Setting a field to text Node accepts, then the others. *)
Lemma res_set_text (field text : string) (rest : list (string * json)) :
  valid_header_value text = true ->
  res_set ((field, JString text) :: rest)
  = (others ← res_set rest; Return ((field, text) :: others)).
Proof.
  intros Hvalid.
  cbn [res_set header_values js_String mbind mret outcome_bind outcome_ret
       obind forallb].
  now rewrite Hvalid.
Qed.

End HeaderValues.

(** ** The services and the handlers, step by step *)

(** Step through an [async] body. *)
Ltac async_steps :=
  unfold mbind, mret, Async_bind, Async_ret, try_catch, throw, lift;
  cbn [fst snd requests chain ipfsOnline ipfsPins ipfsBlobs blockTime
       nonce sent].

Ltac async_steps_in H :=
  unfold mbind, mret, Async_bind, Async_ret, try_catch, throw, lift in H;
  cbn [fst snd requests chain ipfsOnline ipfsPins ipfsBlobs blockTime
       nonce sent] in H.

(** The answer [H] records is a JSON body, which [Hjson] rules out. *)
Ltac json_answer Hjson H := cbn [fst] in H; exact (Hjson _ _ _ _ _ _ H).

Section Handlers.
Import CertificateManager CertificateController.

Lemma getCertificate_not_loaded (bs : BlockchainService.t) (f : string) (w : World) :
  BlockchainService.contractLoaded bs = false ->
  BlockchainService.getCertificate bs f w
  = (Throw "Failed to get certificate: Contract not deployed or loaded", w).
Proof.
  intros Hno.
  unfold BlockchainService.getCertificate, BlockchainService.checkContract.
  rewrite Hno. reflexivity.
Qed.

Lemma getCertificate_found (bs : BlockchainService.t) (f : string) (w : World)
    (cert : Certificate) :
  BlockchainService.contractLoaded bs = true ->
  CertificateManager.getCertificate (chain w) f = Return cert ->
  BlockchainService.getCertificate bs f w
  = (Return cert, sent (EthGetCertificate f) w).
Proof.
  intros Hloaded Hget. now rewrite (getCertificate_loaded _ _ _ Hloaded), Hget.
Qed.

Lemma getCertificate_Return (st : Storage) (f : string) (cert : Certificate) :
  CertificateManager.getCertificate st f = Return cert ->
  certificate_at st f = cert /\ nonempty (fid (certificate_at st f)) = true.
Proof. intros Hget. guards_in Hget; [|discriminate]. injection Hget as <-. auto. Qed.

Lemma getCertificate_missing (st : Storage) (f : string) :
  nonempty (fid (certificate_at st f)) = false ->
  CertificateManager.getCertificate st f = Throw "Certificate does not exist".
Proof. intros Hno. guards; congruence. Qed.

Lemma verifyCertificate_loaded (bs : BlockchainService.t) (f e : string)
    (w : World) :
  BlockchainService.contractLoaded bs = true ->
  let msg := {| sender := BlockchainService.account bs;
                timestamp := blockTime w |} in
  BlockchainService.verifyCertificate bs f e w
  = (match CertificateManager.verifyCertificate (chain w) msg f e with
     | Return (isValid, _) => Return isValid
     | Throw reason => Throw ("Failed to verify certificate: " ++ reason)
     end,
     sent (EthCall (VerifyCertificate f e)) w).
Proof.
  intros Hloaded msg.
  unfold BlockchainService.verifyCertificate, BlockchainService.checkContract,
    BlockchainService.call_verifyCertificate.
  rewrite Hloaded. async_steps. fold msg.
  now destruct (CertificateManager.verifyCertificate (chain w) msg f e)
    as [[v evs]|reason].
Qed.

Lemma issueCertificate_loaded (bs : BlockchainService.t) (f c e : string)
    (w : World) :
  BlockchainService.contractLoaded bs = true ->
  let msg := {| sender := BlockchainService.account bs;
                timestamp := blockTime w |} in
  BlockchainService.issueCertificate bs f c e w
  = (match (transact (chain w) (msg, IssueCertificate f c e)).2 with
     | Return evs =>
         Return {| BlockchainService.transactionHash := nonce w;
                   BlockchainService.events := evs;
                   BlockchainService.isPrivate := false |}
     | Throw reason => Throw ("Failed to issue certificate: " ++ reason)
     end,
     {| chain := (transact (chain w) (msg, IssueCertificate f c e)).1;
        blockTime := blockTime w; nonce := N.succ (nonce w);
        ipfsOnline := ipfsOnline w; ipfsBlobs := ipfsBlobs w;
        ipfsPins := ipfsPins w;
        requests := requests w ++ [EthSendTransaction (IssueCertificate f c e)] |}).
Proof.
  intros Hloaded msg.
  unfold BlockchainService.issueCertificate, BlockchainService.checkContract,
    BlockchainService.sendSignedTransaction.
  rewrite Hloaded. async_steps. fold msg.
  destruct (transact (chain w) (msg, IssueCertificate f c e)) as [st' [evs|r]];
    reflexivity.
Qed.

(** X15.  Issuing through the service and reading back: for an fid
    without a record and non-empty arguments of the sizes the handlers
    pass, for which the transaction fits the gas limit the service sets,
    [issueCertificate] sends one transaction and returns its receipt, and
    [getCertificate] then returns the active record with the node's
    account as issuer and the block time as both dates. *)
Theorem service_issue_then_get (bs : BlockchainService.t) (w : World)
    (f c e : string) :
  BlockchainService.contractLoaded bs = true ->
  BlockchainService.handler_sized f c e = true ->
  nonempty f = true -> nonempty c = true -> nonempty e = true ->
  nonempty (fid (certificate_at (chain w) f)) = false ->
  let issued := BlockchainService.issueCertificate bs f c e w in
  issued.1
  = Return {| BlockchainService.transactionHash := nonce w;
              BlockchainService.events :=
                [CertificateIssued f c e (blockTime w)
                   (BlockchainService.account bs)];
              BlockchainService.isPrivate := false |}
  /\ requests issued.2
     = requests w ++ [EthSendTransaction (IssueCertificate f c e)]
  /\ (BlockchainService.getCertificate bs f issued.2).1
     = Return {| fid := f; cid := c; email := e;
                 issueDate := blockTime w; lastModified := blockTime w;
                 issuer := BlockchainService.account bs; isActive := true |}.
Proof.
  intros Hloaded _ Hf Hc He Hnew issued. subst issued.
  rewrite (issueCertificate_loaded _ _ _ _ _ Hloaded).
  rewrite (transact_issue_fresh _ _ f c e Hf Hc He Hnew). cbn [fst snd].
  split; [reflexivity|]. split; [reflexivity|].
  rewrite (getCertificate_loaded _ _ _ Hloaded). cbn [fst chain].
  now rewrite getCertificate_after_insert.
Qed.

(** What the Delete handler does once the record has been read. *)
Lemma deleteCertificate_steps (this : CertificateController.t) (w : World)
    (f : string) (cert : Certificate) :
  BlockchainService.contractLoaded (blockchainService this) = true ->
  CertificateManager.getCertificate (chain w) f = Return cert ->
  let failed e := Return (json_response 500 false
                            "Failed to delete certificate" (Some e) None) in
  let msg := {| sender := BlockchainService.account (blockchainService this);
                timestamp := blockTime w |} in
  let tx := transact (chain w) (msg, DeleteCertificate f) in
  deleteCertificate this f w
  = if ipfsOnline w then
      if decide (cid cert ∈ ipfsPins w) then
        (match tx.2 with
         | Return _ =>
             Return (json_response 200 true "Certificate deleted successfully"
                       None (Some (DeleteData f (cid cert) (nonce w))))
         | Throw e => failed ("Failed to delete certificate: " ++ e)%string
         end,
         {| chain := tx.1; blockTime := blockTime w;
            nonce := N.succ (nonce w);
            ipfsOnline := ipfsOnline w; ipfsBlobs := ipfsBlobs w;
            ipfsPins := ipfsPins w ∖ {[cid cert]};
            requests := requests w ++ [EthGetCertificate f; IpfsPinRm (cid cert);
                                       EthSendTransaction (DeleteCertificate f)] |})
      else
        (failed ("Failed to remove file from IPFS: "
                 ++ "IPFS unpin failed: 500 Internal Server Error")%string,
         sent (IpfsPinRm (cid cert)) (sent (EthGetCertificate f) w))
    else
      (failed ("Failed to remove file from IPFS: " ++ "fetch failed")%string,
       sent (IpfsPinRm (cid cert)) (sent (EthGetCertificate f) w)).
Proof.
  intros Hloaded Hget failed msg tx. subst failed tx.
  unfold deleteCertificate. async_steps.
  rewrite (getCertificate_found _ _ _ _ Hloaded Hget).
  rewrite removeFile_result.
  cbn [ipfsOnline ipfsPins sent requests chain].
  destruct (ipfsOnline w); [|reflexivity].
  destruct (decide (cid cert ∈ ipfsPins w)); [|reflexivity].
  rewrite (deleteCertificate_loaded _ _ _ Hloaded).
  cbn [chain blockTime nonce requests ipfsOnline ipfsBlobs ipfsPins sent].
  fold msg.
  destruct (transact (chain w) (msg, DeleteCertificate f))
    as [st' [evs|reason]];
    cbn [fst snd]; now rewrite <- !app_assoc.
Qed.

Context {P : Platform}.

(** X16.  Verify and Delete for an fid without a record answer 500
    with the contract's "Certificate does not exist"; the ledger read is
    the only request, so Delete unpins nothing and sends no transaction. *)
Theorem unknown_fid_is_an_error (this : CertificateController.t) (w : World)
    (b : VerifyBody) (f e : string) :
  BlockchainService.contractLoaded (blockchainService this) = true ->
  nonempty (fid (certificate_at (chain w) f)) = false ->
  validate_verify b = Return (f, e) ->
  CertificateController.verifyCertificate this b w
  = (Return (json_response 500 false "Failed to verify certificate"
               (Some "Failed to get certificate: Certificate does not exist")
               None),
     sent (EthGetCertificate f) w)
  /\ deleteCertificate this f w
     = (Return (json_response 500 false "Failed to delete certificate"
                  (Some "Failed to get certificate: Certificate does not exist")
                  None),
        sent (EthGetCertificate f) w).
Proof.
  intros Hloaded Hno Hval. split.
  - unfold CertificateController.verifyCertificate. rewrite Hval. async_steps.
    rewrite (getCertificate_loaded _ _ _ Hloaded).
    now rewrite (getCertificate_missing _ _ Hno).
  - unfold deleteCertificate. async_steps.
    rewrite (getCertificate_loaded _ _ _ Hloaded).
    now rewrite (getCertificate_missing _ _ Hno).
Qed.

(** X17.  Delete through a node whose account is not the record's
    issuer: with the store reachable and the cid pinned, the pin is
    removed first, then the contract refuses the transaction; the handler
    answers 500 and the record is left as it was, without its pin. *)
Theorem delete_by_other_account (this : CertificateController.t) (w : World)
    (f : string) (cert : Certificate) :
  BlockchainService.contractLoaded (blockchainService this) = true ->
  CertificateManager.getCertificate (chain w) f = Return cert ->
  issuer cert <> BlockchainService.account (blockchainService this) ->
  ipfsOnline w = true ->
  cid cert ∈ ipfsPins w ->
  let w' := (deleteCertificate this f w).2 in
  (deleteCertificate this f w).1
  = Return (json_response 500 false "Failed to delete certificate"
              (Some ("Failed to delete certificate: "
                     ++ "Only issuer can modify certificate")%string) None)
  /\ ipfsPins w' = ipfsPins w ∖ {[cid cert]}
  /\ chain w' = chain w
  /\ requests w'
     = requests w ++ [EthGetCertificate f; IpfsPinRm (cid cert);
                      EthSendTransaction (DeleteCertificate f)].
Proof.
  intros Hloaded Hget Hother Honline Hpin w'. subst w'.
  rewrite (deleteCertificate_steps this w f cert Hloaded Hget).
  rewrite Honline, decide_True by exact Hpin.
  destruct (getCertificate_Return _ _ _ Hget) as [Hcert Hex].
  set (msg := {| sender := _; timestamp := _ |}).
  assert (Htx : transact (chain w) (msg, DeleteCertificate f)
                = (chain w, Throw "Only issuer can modify certificate")).
  { assert ((issuer (certificate_at (chain w) f) =? sender msg)%N = false)
      by (apply N.eqb_neq; rewrite Hcert; exact Hother).
    guards; congruence. }
  rewrite Htx. cbn [fst snd]. auto.
Qed.

(** X18.  Delete cannot be repeated: after a Delete that succeeded, a
    second Delete of the same fid reads the (inactive) record, is refused
    by the store because the cid is no longer pinned, answers 500 and
    sends no transaction. *)
Theorem delete_twice (this : CertificateController.t) (w : World)
    (f : string) (cert : Certificate) :
  BlockchainService.contractLoaded (blockchainService this) = true ->
  CertificateManager.getCertificate (chain w) f = Return cert ->
  issuer cert = BlockchainService.account (blockchainService this) ->
  ipfsOnline w = true ->
  cid cert ∈ ipfsPins w ->
  let w1 := (deleteCertificate this f w).2 in
  (deleteCertificate this f w).1
  = Return (json_response 200 true "Certificate deleted successfully" None
              (Some (DeleteData f (cid cert) (nonce w))))
  /\ deleteCertificate this f w1
     = (Return (json_response 500 false "Failed to delete certificate"
                  (Some ("Failed to remove file from IPFS: "
                         ++ "IPFS unpin failed: 500 Internal Server Error")%string)
                  None),
        sent (IpfsPinRm (cid cert)) (sent (EthGetCertificate f) w1)).
Proof.
  intros Hloaded Hget Hissuer Honline Hpin w1. subst w1.
  rewrite (deleteCertificate_steps this w f cert Hloaded Hget).
  rewrite Honline, decide_True by exact Hpin.
  destruct (getCertificate_Return _ _ _ Hget) as [Hcert Hex].
  set (msg := {| sender := _; timestamp := _ |}).
  assert (Hi : issuer (certificate_at (chain w) f) = sender msg)
    by (rewrite Hcert; exact Hissuer).
  rewrite (deleteCertificate_by_issuer (chain w) msg f Hex Hi).
  cbn [fst snd]. split; [reflexivity|].
  set (cert' := {| fid := _; isActive := false |}).
  set (w1 := {| chain := _ |}).
  assert (Hget1 : CertificateManager.getCertificate (chain w1) f = Return cert').
  { subst w1. cbn [chain]. apply getCertificate_after_insert.
    subst cert'. cbn [fid]. exact Hex. }
  rewrite (deleteCertificate_steps this w1 f cert' Hloaded Hget1).
  assert (Hcid : cid cert' = cid cert) by (subst cert'; cbn; now rewrite Hcert).
  rewrite Hcid. subst w1. cbn [ipfsOnline ipfsPins]. rewrite ?Honline.
  rewrite decide_False
    by (intros [_ Hout]%elem_of_difference; apply Hout;
        now apply elem_of_singleton).
  reflexivity.
Qed.

(** X19.  A node that started without the contract answers 500 to
    Verify, Delete and Download and sends no request, neither to the chain
    nor to the store: in particular Delete unpins nothing. *)
Theorem handlers_without_contract (this : CertificateController.t) (w : World)
    (b : VerifyBody) (fv ev f c : string) :
  BlockchainService.contractLoaded (blockchainService this) = false ->
  validate_verify b = Return (fv, ev) ->
  f <> "" -> c <> "" ->
  let e := "Failed to get certificate: Contract not deployed or loaded" in
  CertificateController.verifyCertificate this b w
  = (Return (json_response 500 false "Failed to verify certificate"
               (Some e) None), w)
  /\ deleteCertificate this f w
     = (Return (json_response 500 false "Failed to delete certificate"
                  (Some e) None), w)
  /\ downloadCertificate this f c w
     = (Return (json_response 500 false "Failed to download certificate"
                  (Some e) None), w).
Proof.
  intros Hno Hval Hf Hc e. subst e. split; [|split].
  - unfold CertificateController.verifyCertificate. rewrite Hval. async_steps.
    now rewrite (getCertificate_not_loaded _ _ _ Hno).
  - unfold deleteCertificate. async_steps.
    now rewrite (getCertificate_not_loaded _ _ _ Hno).
  - unfold downloadCertificate.
    apply String.eqb_neq in Hf, Hc. rewrite Hf, Hc. cbn [orb]. async_steps.
    now rewrite (getCertificate_not_loaded _ _ _ Hno).
Qed.

(** X20.  Verify for an active record answers 200 with [isValid] true
    exactly when the submitted email equals the stored one, and discloses
    the record only then; it reads the record, calls the contract's verify
    and changes nothing on the chain. *)
Theorem verify_active_record (this : CertificateController.t) (w : World)
    (b : VerifyBody) (f e : string) (cert : Certificate) :
  BlockchainService.contractLoaded (blockchainService this) = true ->
  validate_verify b = Return (f, e) ->
  CertificateManager.getCertificate (chain w) f = Return cert ->
  isActive cert = true ->
  let isValid := String.eqb (email cert) e in
  CertificateController.verifyCertificate this b w
  = (Return (json_response 200 true
               (if isValid then "Certificate verification successful"
                else "Certificate verification failed")
               None
               (Some (VerifyData f e isValid None
                        (if isValid then Some cert else None)))),
     sent (EthCall (VerifyCertificate f e)) (sent (EthGetCertificate f) w)).
Proof.
  intros Hloaded Hval Hget Hactive isValid. subst isValid.
  unfold CertificateController.verifyCertificate. rewrite Hval. async_steps.
  rewrite (getCertificate_found _ _ _ _ Hloaded Hget), Hactive. cbn [negb].
  rewrite (verifyCertificate_loaded _ _ _ _ Hloaded). cbn [chain blockTime sent].
  destruct (getCertificate_Return _ _ _ Hget) as [Hcert Hex].
  unfold CertificateManager.verifyCertificate, certificateExists,
    certificateActive.
  rewrite Hcert in *. rewrite !require_true by assumption.
  cbn [mbind mret outcome_bind outcome_ret obind]. reflexivity.
Qed.

(** X21.  Verify answers 400 "Validation error" without sending any
    request when the body has no fid or no email, an empty one, or an
    email Joi rejects. *)
Theorem verify_rejects_invalid_body (this : CertificateController.t)
    (w : World) (b : VerifyBody) :
  body_fid b = None \/ body_fid b = Some ""
  \/ body_email b = None \/ body_email b = Some ""
  \/ (exists e, body_email b = Some e /\ joi_email e = false) ->
  exists detail,
    CertificateController.verifyCertificate this b w
    = (Return (json_response 400 false "Validation error" (Some detail) None),
       w).
Proof.
  intros Hbad.
  assert (Hval : exists detail, validate_verify b = Throw detail).
  { unfold validate_verify, joi_string_required.
    destruct (body_fid b) as [f|]; [|cbn; eauto].
    destruct (String.eqb_spec f ""); [cbn; eauto|].
    destruct (body_email b) as [e|]; [|cbn; eauto].
    destruct (String.eqb_spec e ""); [cbn; eauto|].
    cbn [mbind mret outcome_bind outcome_ret obind].
    destruct (joi_email e) eqn:Hjoi; [|eauto].
    destruct Hbad as [H|[H|[H|[H|(e' & H & Hrej)]]]]; try discriminate;
      try (injection H as ->; congruence). }
  destruct Hval as [detail Hval]. exists detail.
  unfold CertificateController.verifyCertificate. now rewrite Hval.
Qed.

Lemma retrieveFile_steps (this : IPFSService.t) (c : string) (w : World) :
  IPFSService.retrieveFile this c w
  = (if ipfsOnline w then
       match ipfsBlobs w !! c with
       | None =>
           Throw ("Failed to retrieve file from IPFS: "
                  ++ "IPFS retrieval failed: 500 Internal Server Error")
       | Some blob =>
           rethrow "Failed to retrieve file from IPFS: "
             (EncryptionService.decryptFromIPFS
                (IPFSService.encryptionService this) blob)
       end
     else Throw ("Failed to retrieve file from IPFS: " ++ "fetch failed"),
     sent (IpfsCat c) w).
Proof.
  unfold IPFSService.retrieveFile, IPFSService.fetch_cat. async_steps.
  destruct (ipfsOnline w); [|reflexivity].
  destruct (ipfsBlobs w !! c) as [blob|]; [|reflexivity].
  now destruct (EncryptionService.decryptFromIPFS _ blob).
Qed.

(** What the Download handler does for an active record under its cid. *)
Lemma downloadCertificate_steps (this : CertificateController.t) (w : World)
    (f : string) (cert : Certificate) (r : EncryptionService.DecryptedFile) :
  BlockchainService.contractLoaded (blockchainService this) = true ->
  CertificateManager.getCertificate (chain w) f = Return cert ->
  isActive cert = true ->
  f <> "" -> cid cert <> "" ->
  (IPFSService.retrieveFile (ipfsService this) (cid cert)
     (sent (EthGetCertificate f) w)).1 = Return r ->
  downloadCertificate this f (cid cert) w
  = (match
       (originalSize ←
          js_toString "decryptedFile.originalSize"
            (EncryptionService.df_originalSize r);
        encryptedSize ←
          js_toString "decryptedFile.encryptedSize"
            (EncryptionService.df_encryptedSize r);
        timestamp ←
          js_toString "decryptedFile.timestamp"
            (EncryptionService.df_timestamp r);
        res_set (download_headers f (cid cert) r
                   originalSize encryptedSize timestamp))
     with
     | Return fields =>
         Return {| status := 200;
                   headers := fields;
                   body := FileBody (EncryptionService.content r) |}
     | Throw e =>
         Return (json_response 500 false "Failed to download certificate"
                   (Some e) None)
     end,
     sent (IpfsCat (cid cert)) (sent (EthGetCertificate f) w)).
Proof.
  intros Hloaded Hget Hactive Hf Hc Hret.
  unfold downloadCertificate.
  apply String.eqb_neq in Hf, Hc. rewrite Hf, Hc. cbn [orb]. async_steps.
  rewrite (getCertificate_found _ _ _ _ Hloaded Hget), Hactive.
  rewrite String.eqb_refl. cbn [negb].
  rewrite retrieveFile_steps in Hret |- *. cbn [fst] in Hret. rewrite Hret.
  destruct (js_toString _ (EncryptionService.df_originalSize r)) as [a1|];
    [|reflexivity].
  destruct (js_toString _ (EncryptionService.df_encryptedSize r)) as [a2|];
    [|reflexivity].
  destruct (js_toString _ (EncryptionService.df_timestamp r)) as [a3|];
    [|reflexivity].
  cbn [outcome_bind obind]. now destruct (res_set _).
Qed.

(** X22.  Download without an active record: for an fid that has no
    record the answer is 500 with the contract's "Certificate does not
    exist" (not 404); for an inactive record it is 404.  Either way the
    ledger read is the only request: nothing is fetched from the store. *)
Theorem download_without_active_record (this : CertificateController.t)
    (w : World) (f c : string) :
  BlockchainService.contractLoaded (blockchainService this) = true ->
  f <> "" -> c <> "" ->
  isActive (certificate_at (chain w) f) = false ->
  downloadCertificate this f c w
  = (Return (if nonempty (fid (certificate_at (chain w) f))
             then json_response 404 false "Certificate not found or inactive"
                    None None
             else json_response 500 false "Failed to download certificate"
                    (Some "Failed to get certificate: Certificate does not exist")
                    None),
     sent (EthGetCertificate f) w).
Proof.
  intros Hloaded Hf Hc Hin. unfold downloadCertificate.
  apply String.eqb_neq in Hf, Hc. rewrite Hf, Hc. cbn [orb]. async_steps.
  rewrite (getCertificate_loaded _ _ _ Hloaded).
  unfold CertificateManager.getCertificate, certificateExists, require.
  destruct (nonempty (fid (certificate_at (chain w) f)));
    cbn [mbind mret outcome_bind outcome_ret obind rethrow]; [|reflexivity].
  now rewrite Hin.
Qed.

(** A value that converts to text has a [toString] that returns that
    text, unless it is [null]. *)
Lemma js_toString_converts (callee : string) (v : json) (text : string) :
  js_String v = Return text ->
  v = JNull \/ js_toString callee v = Return text.
Proof.
  destruct v as [| | | | |members]; intros Htext; auto.
  right. cbn [js_String js_toString] in *.
  now destruct (has_own "toString" members).
Qed.

(** X23.  A stored envelope whose [originalSize], [encryptedSize] or
    [timestamp] is [null] still decodes, but Download then fails on
    [toString()] of the [null] value and answers 500 instead of the file.
    This is for sizes that convert to text, as [null], booleans, numbers
    and strings do; an object or an array that does not makes the answer
    carry another message ([toString_hidden_by_member]). *)
Theorem download_null_metadata (this : CertificateController.t) (w : World)
    (f : string) (cert : Certificate) (r : EncryptionService.DecryptedFile)
    (originalSize encryptedSize : string) :
  BlockchainService.contractLoaded (blockchainService this) = true ->
  CertificateManager.getCertificate (chain w) f = Return cert ->
  isActive cert = true ->
  f <> "" -> cid cert <> "" ->
  (IPFSService.retrieveFile (ipfsService this) (cid cert)
     (sent (EthGetCertificate f) w)).1 = Return r ->
  js_String (EncryptionService.df_originalSize r) = Return originalSize ->
  js_String (EncryptionService.df_encryptedSize r) = Return encryptedSize ->
  EncryptionService.df_originalSize r = JNull
  \/ EncryptionService.df_encryptedSize r = JNull
  \/ EncryptionService.df_timestamp r = JNull ->
  downloadCertificate this f (cid cert) w
  = (Return (json_response 500 false "Failed to download certificate"
               (Some "Cannot read properties of null (reading 'toString')")
               None),
     sent (IpfsCat (cid cert)) (sent (EthGetCertificate f) w)).
Proof.
  intros Hloaded Hget Hactive Hf Hc Hret Hos Hes Hnull.
  rewrite (downloadCertificate_steps this w f cert r Hloaded Hget Hactive
             Hf Hc Hret).
  f_equal.
  destruct (js_toString_converts "decryptedFile.originalSize" _ _ Hos)
    as [->|Hos']; [reflexivity|].
  destruct (js_toString_converts "decryptedFile.encryptedSize" _ _ Hes)
    as [Hnone|Hes']; [now rewrite Hos', Hnone|].
  destruct Hnull as [H|[H|H]]; rewrite H in *; try discriminate.
  now rewrite Hos', Hes'.
Qed.

(** An object whose own [toString] member hides the inherited method
    fails the call with a message that names the expression. *)
Example toString_hidden_by_member :
  js_toString "decryptedFile.encryptedSize" (JObject [("toString", JNumber 1)])
  = Throw "decryptedFile.encryptedSize.toString is not a function".
Proof. reflexivity. Qed.

(** X24.  Download sends file content only for an active record whose
    cid is the one requested, and only content that [decryptFromIPFS]
    returned for the envelope stored under that cid: every other case is
    answered without a file body.  The cid is one that the request URL
    carries unchanged ([url_safe]). *)
Theorem download_sends_only_decoded_content (this : CertificateController.t)
    (w : World) (f c : string) (response : Response) (sent_content : Buffer) :
  IPFSService.url_safe c = true ->
  (downloadCertificate this f c w).1 = Return response ->
  body response = FileBody sent_content ->
  exists cert blob r,
    CertificateManager.getCertificate (chain w) f = Return cert
    /\ isActive cert = true
    /\ cid cert = c
    /\ ipfsBlobs w !! c = Some blob
    /\ EncryptionService.decryptFromIPFS
         (IPFSService.encryptionService (ipfsService this)) blob = Return r
    /\ EncryptionService.content r = sent_content
    /\ status response = 200%nat.
Proof.
  intros _ Hresp Hbody. unfold downloadCertificate in Hresp.
  assert (Hjson : forall code ok message e d (o : Prop),
            Return (json_response code ok message e d) = Return response -> o)
    by (intros * [= <-]; discriminate Hbody).
  destruct (String.eqb f "" || String.eqb c ""); async_steps_in Hresp;
    [json_answer Hjson Hresp|].
  destruct (BlockchainService.contractLoaded (blockchainService this)) eqn:Hl.
  2: { rewrite (getCertificate_not_loaded _ _ _ Hl) in Hresp.
       json_answer Hjson Hresp. }
  rewrite (getCertificate_loaded _ _ _ Hl) in Hresp.
  destruct (CertificateManager.getCertificate (chain w) f) as [cert|reason]
    eqn:Hget; cbn [rethrow] in Hresp; [|json_answer Hjson Hresp].
  destruct (isActive cert) eqn:Hactive; cbn [negb] in Hresp;
    [|json_answer Hjson Hresp].
  destruct (String.eqb_spec (cid cert) c) as [Hcid|]; cbn [negb] in Hresp;
    [|json_answer Hjson Hresp].
  rewrite retrieveFile_steps in Hresp. cbn [sent ipfsOnline ipfsBlobs] in Hresp.
  destruct (ipfsOnline w); [|json_answer Hjson Hresp].
  destruct (ipfsBlobs w !! c) as [blob|] eqn:Hblob; [|json_answer Hjson Hresp].
  destruct (EncryptionService.decryptFromIPFS _ blob) as [r|reason] eqn:Hdec;
    cbn [rethrow] in Hresp; [|json_answer Hjson Hresp].
  destruct (js_toString _ (EncryptionService.df_originalSize r));
    [|json_answer Hjson Hresp].
  destruct (js_toString _ (EncryptionService.df_encryptedSize r));
    [|json_answer Hjson Hresp].
  destruct (js_toString _ (EncryptionService.df_timestamp r));
    [|json_answer Hjson Hresp].
  destruct (res_set _); [|json_answer Hjson Hresp].
  cbn [fst] in Hresp. injection Hresp as <-. cbn [body status] in *.
  injection Hbody as <-. exists cert, blob, r. auto 10.
Qed.

Context {S : PlatformSpec P}.

Lemma Buffer_equals_refl (b : Buffer) : Buffer_equals b b = true.
Proof.
  induction b as [|x b IH]; [reflexivity|]. cbn.
  rewrite IH, andb_true_r. now apply Byte.byte_dec_lb.
Qed.

(** X25.  The self-test passes for every service whose secret has 32
    bytes, whatever nonce (not empty) [encryptFile] draws. *)
Theorem testEncryption_passes (this : EncryptionService.t) (nonce : Buffer)
    (now : Z) :
  length (EncryptionService.secretKey this) = 32%nat ->
  nonce <> [] ->
  EncryptionService.testEncryption this nonce now = true.
Proof.
  intros Hkey Hnonce. unfold EncryptionService.testEncryption.
  destruct (decryptFile_encryptFile this nonce now EncryptionService.testData
              "test.txt" Hkey Hnonce) as (e & -> & _ & _ & _ & _ & _ & _ & ->).
  apply Buffer_equals_refl.
Qed.

(** X26.  Download returns what was uploaded: when the record of [f] is
    active and the store holds, under the record's cid, the envelope
    [encryptForIPFS] produced for content [p] and name [n], Download
    answers 200 with body [p], the content type of [n], the length of [p]
    and the recorded name, size, algorithm and time in its headers, after
    one ledger read and one fetch.  This is for an fid, a name and an
    algorithm name of printable ASCII characters, which Node accepts as
    header content, a name whose extension is looked up in the table
    itself, a cid that the request URL carries unchanged, and a time and
    a length that JavaScript prints in decimal digits. *)
Theorem download_returns_upload (this : CertificateController.t) (w : World)
    (f : string) (cert : Certificate) (nonce : Buffer) (now : Z)
    (p : Buffer) (n : string) (blob : Buffer) :
  let es := IPFSService.encryptionService (ipfsService this) in
  BlockchainService.contractLoaded (blockchainService this) = true ->
  CertificateManager.getCertificate (chain w) f = Return cert ->
  isActive cert = true ->
  f <> "" -> cid cert <> "" ->
  IPFSService.url_safe (cid cert) = true ->
  printable_ascii f = true ->
  printable_ascii n = true ->
  printable_ascii (EncryptionService.algorithm es) = true ->
  inherited_key (last_segment "" (toLowerCase n)) = false ->
  (0 <= now < 2 ^ 53)%Z ->
  (Z.of_nat (length p) < 2 ^ 53)%Z ->
  length (EncryptionService.secretKey es) = 32%nat ->
  length nonce = 16%nat ->
  EncryptionService.encryptForIPFS es nonce now p n = Return blob ->
  ipfsOnline w = true ->
  ipfsBlobs w !! cid cert = Some blob ->
  exists encryptedSize : nat,
    downloadCertificate this f (cid cert) w
    = (Return
         {| status := 200;
            headers :=
              [ ("Content-Type", getContentType n);
                ("Content-Disposition",
                 ("attachment; filename=" ++ dquote ++ n ++ dquote)%string);
                ("Content-Length", pretty (length p));
                ("X-Vault-FID", f);
                ("X-Vault-CID", cid cert);
                ("X-Vault-File-Name", n);
                ("X-Vault-Original-Size", pretty (Z.of_nat (length p)));
                ("X-Vault-Encrypted-Size", pretty (Z.of_nat encryptedSize));
                ("X-Vault-Algorithm", EncryptionService.algorithm es);
                ("X-Vault-Timestamp", pretty now) ];
            body := FileBody p |},
       sent (IpfsCat (cid cert)) (sent (EthGetCertificate f) w)).
Proof.
  intros es Hloaded Hget Hactive Hf Hc Hurl Hfid Hn Halgorithm _ _ _
    Hkey Hnonce Henc Honline Hblob.
  assert (Hne : nonce <> []) by (intros ->; discriminate).
  destruct (decryptFile_encryptFile es nonce now p n Hkey Hne)
    as (e & He & Hiv & Hname & Halg & Hsize & Hesize & Hts & Hdec).
  unfold EncryptionService.encryptForIPFS in Henc. rewrite He in Henc.
  cbn [mbind mret outcome_bind outcome_ret obind] in Henc.
  injection Henc as <-.
  exists (length (EncryptionService.encryptedContent e)).
  set (r := {| EncryptionService.content := p;
               EncryptionService.df_fileName := n;
               EncryptionService.df_originalSize := JNumber (Z.of_nat (length p));
               EncryptionService.df_encryptedSize :=
                 JNumber (Z.of_nat (length (EncryptionService.encryptedContent e)));
               EncryptionService.df_algorithm :=
                 JString (EncryptionService.algorithm es);
               EncryptionService.df_timestamp := JNumber now |}).
  rewrite (downloadCertificate_steps this w f cert r Hloaded Hget Hactive Hf Hc).
  - apply url_safe_printable in Hurl.
    assert (Hquote : printable_ascii dquote = true) by reflexivity.
    subst r. unfold download_headers.
    cbn [js_toString js_String mbind mret outcome_bind outcome_ret obind
         EncryptionService.content EncryptionService.df_fileName
         EncryptionService.df_originalSize EncryptionService.df_encryptedSize
         EncryptionService.df_algorithm EncryptionService.df_timestamp].
    rewrite !res_set_text
      by (apply printable_ascii_valid;
          rewrite ?printable_ascii_app, ?printable_getContentType,
            ?printable_pretty_nat, ?printable_pretty_Z, ?Hurl, ?Hfid, ?Hn,
            ?Halgorithm, ?Hquote;
          reflexivity).
    reflexivity.
  - rewrite retrieveFile_steps. cbn [fst sent ipfsOnline ipfsBlobs].
    rewrite Honline, Hblob. fold es.
    assert (Hparse := JSON_parse_stringify
                        {| sd_encryptedContent :=
                             Base64.encode (EncryptionService.encryptedContent e);
                           sd_iv := Base64.encode (EncryptionService.iv e);
                           sd_authTag :=
                             Base64.encode (EncryptionService.authTag e);
                           sd_algorithm := EncryptionService.ed_algorithm e;
                           sd_fileName := EncryptionService.fileName e;
                           sd_originalSize := EncryptionService.originalSize e;
                           sd_encryptedSize := EncryptionService.encryptedSize e;
                           sd_timestamp := EncryptionService.timestamp e |}
                        ltac:(unfold plain_document;
                              cbn [sd_algorithm sd_originalSize
                                   sd_encryptedSize sd_timestamp];
                              now rewrite Halg, Hsize, Hesize, Hts)).
    rewrite (decryptFromIPFS_inputs _ _ _ Hparse).
    cbn [sd_encryptedContent sd_iv sd_authTag sd_algorithm sd_fileName
         sd_originalSize sd_encryptedSize sd_timestamp].
    rewrite !decode_encode.
    unfold EncryptionService.decryptFile in Hdec.
    destruct (aes_256_gcm_decrypt _ _ _ _ _) as [plain|reason];
      cbn in Hdec |- *; [|discriminate].
    rewrite Hdec. cbn [mbind mret outcome_bind outcome_ret obind rethrow].
    now rewrite Hname, Halg, Hsize, Hesize, Hts.
Qed.

End Handlers.

(** ** The handler theorems at concrete inputs *)

Section HandlerWitnesses.
Import CertificateManager CertificateController.

Lemma service_issue_then_get_witness :
  (BlockchainService.getCertificate
     (blockchainService WorldExamples.controller) "f1"
     (BlockchainService.issueCertificate
        (blockchainService WorldExamples.controller) "f1" "QmA" "a@x.com"
        ServiceExamples.empty_world).2).1
  = Return {| fid := "f1"; cid := "QmA"; email := "a@x.com";
              issueDate := 100; lastModified := 100; issuer := 1%N;
              isActive := true |}.
Proof.
  refine (proj2 (proj2 (service_issue_then_get
                          (blockchainService WorldExamples.controller)
                          ServiceExamples.empty_world "f1" "QmA" "a@x.com"
                          _ _ _ _ _ _)));
    vm_compute; reflexivity.
Defined.

Lemma unknown_fid_is_an_error_witness :
  deleteCertificate WorldExamples.controller "f9" (WorldExamples.world true)
  = (Return (json_response 500 false "Failed to delete certificate"
               (Some "Failed to get certificate: Certificate does not exist")
               None),
     sent (EthGetCertificate "f9") (WorldExamples.world true)).
Proof.
  refine (proj2 (unknown_fid_is_an_error (P := ModelPlatform.platform)
                   WorldExamples.controller (WorldExamples.world true)
                   {| body_fid := Some "f9"; body_email := Some "a@x.com" |}
                   "f9" "a@x.com" _ _ _));
    vm_compute; reflexivity.
Defined.

Lemma delete_by_other_account_witness :
  ipfsPins (deleteCertificate ServiceExamples.controller_other "f1"
              (WorldExamples.world true)).2
  = ipfsPins (WorldExamples.world true) ∖ {["QmA"]}
  /\ chain (deleteCertificate ServiceExamples.controller_other "f1"
              (WorldExamples.world true)).2
     = LedgerExamples.issued.
Proof.
  pose proof (delete_by_other_account ServiceExamples.controller_other
                (WorldExamples.world true) "f1" ServiceExamples.record_f1
                eq_refl eq_refl
                ltac:(vm_compute; discriminate) eq_refl
                ltac:(vm_compute; reflexivity)) as H.
  split; [exact (proj1 (proj2 H)) | exact (proj1 (proj2 (proj2 H)))].
Defined.

Lemma delete_twice_witness :
  (deleteCertificate WorldExamples.controller "f1"
     (deleteCertificate WorldExamples.controller "f1"
        (WorldExamples.world true)).2).1
  = Return (json_response 500 false "Failed to delete certificate"
              (Some "Failed to remove file from IPFS: IPFS unpin failed: 500 Internal Server Error")
              None).
Proof.
  pose proof (delete_twice WorldExamples.controller
                (WorldExamples.world true) "f1" ServiceExamples.record_f1
                eq_refl eq_refl eq_refl eq_refl
                ltac:(vm_compute; reflexivity)) as H.
  exact (f_equal fst (proj2 H)).
Defined.

Lemma handlers_without_contract_witness :
  deleteCertificate ServiceExamples.controller_unloaded "f1"
    (WorldExamples.world true)
  = (Return (json_response 500 false "Failed to delete certificate"
               (Some "Failed to get certificate: Contract not deployed or loaded")
               None),
     WorldExamples.world true).
Proof.
  refine (proj1 (proj2 (handlers_without_contract (P := ModelPlatform.platform)
                          ServiceExamples.controller_unloaded
                          (WorldExamples.world true)
                          {| body_fid := Some "f1";
                             body_email := Some "a@x.com" |}
                          "f1" "a@x.com" "f1" "QmA" _ _ _ _)));
    solve [vm_compute; reflexivity | discriminate].
Defined.

Lemma verify_active_record_witness :
  (CertificateController.verifyCertificate (P := ModelPlatform.platform)
     WorldExamples.controller
     {| body_fid := Some "f1"; body_email := Some "b@x.com" |}
     (WorldExamples.world true)).1
  = Return (json_response 200 true "Certificate verification failed" None
              (Some (VerifyData "f1" "b@x.com" false None None))).
Proof.
  exact (f_equal fst
           (verify_active_record (P := ModelPlatform.platform)
              WorldExamples.controller (WorldExamples.world true)
              {| body_fid := Some "f1"; body_email := Some "b@x.com" |}
              "f1" "b@x.com" ServiceExamples.record_f1
              eq_refl eq_refl eq_refl eq_refl)).
Defined.

Lemma verify_rejects_invalid_body_witness :
  exists detail,
    CertificateController.verifyCertificate (P := ModelPlatform.platform)
      WorldExamples.controller
      {| body_fid := Some "f1"; body_email := Some "" |}
      (WorldExamples.world true)
    = (Return (json_response 400 false "Validation error" (Some detail) None),
       WorldExamples.world true).
Proof.
  apply (verify_rejects_invalid_body (P := ModelPlatform.platform)
           WorldExamples.controller (WorldExamples.world true)
           {| body_fid := Some "f1"; body_email := Some "" |}).
  right. right. right. left. reflexivity.
Defined.

Lemma download_without_active_record_witness :
  downloadCertificate (P := ModelPlatform.platform)
    WorldExamples.controller "f1" "QmA" WorldExamples.world_deleted
  = (Return (json_response 404 false "Certificate not found or inactive"
               None None),
     sent (EthGetCertificate "f1") WorldExamples.world_deleted).
Proof.
  apply (download_without_active_record (P := ModelPlatform.platform)
           WorldExamples.controller WorldExamples.world_deleted "f1" "QmA");
    solve [vm_compute; reflexivity | discriminate].
Defined.

Lemma download_null_metadata_witness :
  (downloadCertificate (P := ModelPlatform.platform)
     WorldExamples.controller "f1" "QmA" ServiceExamples.world_null_size).1
  = Return (json_response 500 false "Failed to download certificate"
              (Some "Cannot read properties of null (reading 'toString')")
              None).
Proof.
  exact (f_equal fst
           (download_null_metadata (P := ModelPlatform.platform)
              WorldExamples.controller ServiceExamples.world_null_size "f1"
              ServiceExamples.record_f1
              {| EncryptionService.content := WorldExamples.plaintext;
                 EncryptionService.df_fileName := "note.txt";
                 EncryptionService.df_originalSize := JNull;
                 EncryptionService.df_encryptedSize := JNumber 11;
                 EncryptionService.df_algorithm := JString "aes-256-gcm";
                 EncryptionService.df_timestamp := JNumber 1700000000000 |}
              "null" "11"
              eq_refl eq_refl eq_refl
              ltac:(discriminate) ltac:(discriminate)
              ltac:(vm_compute; reflexivity)
              eq_refl eq_refl
              (or_introl eq_refl))).
Defined.

Lemma download_sends_only_decoded_content_witness :
  exists cert blob r,
    CertificateManager.getCertificate (chain (WorldExamples.world true)) "f1"
    = Return cert
    /\ isActive cert = true
    /\ cid cert = "QmA"
    /\ ipfsBlobs (WorldExamples.world true) !! "QmA" = Some blob
    /\ EncryptionService.decryptFromIPFS (P := ModelPlatform.platform)
         WorldExamples.encryption blob = Return r
    /\ EncryptionService.content r = WorldExamples.plaintext
    /\ 200%nat = 200%nat.
Proof.
  refine (download_sends_only_decoded_content (P := ModelPlatform.platform)
            WorldExamples.controller (WorldExamples.world true) "f1" "QmA"
            {| status := 200;
               headers :=
                 [ ("Content-Type", "text/plain");
                   ("Content-Disposition",
                    ("attachment; filename=" ++ dquote ++ "note.txt" ++ dquote)%string);
                   ("Content-Length", "11");
                   ("X-Vault-FID", "f1");
                   ("X-Vault-CID", "QmA");
                   ("X-Vault-File-Name", "note.txt");
                   ("X-Vault-Original-Size", "11");
                   ("X-Vault-Encrypted-Size", "11");
                   ("X-Vault-Algorithm", "aes-256-gcm");
                   ("X-Vault-Timestamp", "1700000000000") ];
               body := FileBody WorldExamples.plaintext |}
            WorldExamples.plaintext _ _ _);
    vm_compute; reflexivity.
Defined.

Lemma testEncryption_passes_witness :
  EncryptionService.testEncryption (P := ModelPlatform.platform)
    WorldExamples.encryption (replicate 16 "042"%byte) 1700000000000 = true.
Proof.
  apply (testEncryption_passes (P := ModelPlatform.platform)
           (S := model_platform_spec) WorldExamples.encryption
           (replicate 16 "042"%byte) 1700000000000);
    [reflexivity | discriminate].
Defined.

Lemma download_returns_upload_witness :
  exists encryptedSize : nat,
    (downloadCertificate (P := ModelPlatform.platform)
       WorldExamples.controller "f1" "QmA" (WorldExamples.world true)).1
    = Return
        {| status := 200;
           headers :=
             [ ("Content-Type", "text/plain");
               ("Content-Disposition",
                ("attachment; filename=" ++ dquote ++ "note.txt" ++ dquote)%string);
               ("Content-Length", "11");
               ("X-Vault-FID", "f1");
               ("X-Vault-CID", "QmA");
               ("X-Vault-File-Name", "note.txt");
               ("X-Vault-Original-Size", "11");
               ("X-Vault-Encrypted-Size", pretty (Z.of_nat encryptedSize));
               ("X-Vault-Algorithm", "aes-256-gcm");
               ("X-Vault-Timestamp", "1700000000000") ];
           body := FileBody WorldExamples.plaintext |}.
Proof.
  destruct (download_returns_upload (P := ModelPlatform.platform)
              (S := model_platform_spec) WorldExamples.controller
              (WorldExamples.world true) "f1" ServiceExamples.record_f1
              (replicate 16 "042"%byte) 1700000000000
              WorldExamples.plaintext "note.txt" WorldExamples.blob
              eq_refl eq_refl eq_refl
              ltac:(discriminate) ltac:(discriminate)
              eq_refl eq_refl eq_refl eq_refl eq_refl
              ltac:(lia) ltac:(vm_compute; reflexivity)
              eq_refl eq_refl
              ltac:(vm_compute; reflexivity) eq_refl
              ltac:(vm_compute; reflexivity)) as [n Hn].
  exists n. exact (f_equal fst Hn).
Defined.

End HandlerWitnesses.
